(** * Feature Statistics widget: statistics, sortable model and selection

    A shallow embedding of [owfeaturestatistics.py]
    ([FeatureStatisticsTableModel] and [OWFeatureStatistics]) together with
    the properties of its sorting, its statistics and its outputs. *)

From Stdlib Require Import String Ascii.
From Stdlib Require Import List Bool Arith ZArith QArith Lia.
From Stdlib Require Import Permutation Sorted Lqa.
From Stdlib Require Import DecimalString.
Import ListNotations.
Close Scope Q_scope.
Local Open Scope string_scope.
Local Open Scope nat_scope.
Local Open Scope list_scope.

(* ================================================================== *)
(** ** float64 values *)
(* ================================================================== *)

(** The entries of numpy's float64 arrays.  NaN and the two infinities are
    kept apart from the finite values; finite values are exact rationals, so
    rounding, overflow and the sign of zero are not part of the model. *)
Inductive float64 : Type :=
| NaN
| NInf
| Fin (q : Q)
| PInf.

(** [np.isnan] *)
Definition isnan (x : float64) : bool :=
  match x with NaN => true | _ => false end.

Definition Qltb (p q : Q) : bool := negb (Qle_bool q p).

(** The comparison [a < b] of IEEE values: false as soon as one side is NaN. *)
Definition fltb (a b : float64) : bool :=
  match a, b with
  | NaN, _ | _, NaN => false
  | _, NInf => false
  | NInf, _ => true
  | PInf, _ => false
  | Fin _, PInf => true
  | Fin p, Fin q => Qltb p q
  end.

(** The comparison [a == b] of IEEE values: NaN equals nothing. *)
Definition feqb (a b : float64) : bool :=
  match a, b with
  | NInf, NInf | PInf, PInf => true
  | Fin p, Fin q => Qeq_bool p q
  | _, _ => false
  end.

Definition fzero : float64 := Fin (0 # 1).

Definition of_nat (n : nat) : float64 := Fin (inject_Z (Z.of_nat n)).

Definition fneg (a : float64) : float64 :=
  match a with
  | NaN => NaN
  | NInf => PInf
  | PInf => NInf
  | Fin q => Fin (Qopp q)
  end.

Definition fadd (a b : float64) : float64 :=
  match a, b with
  | NaN, _ | _, NaN => NaN
  | PInf, NInf | NInf, PInf => NaN
  | PInf, _ | _, PInf => PInf
  | NInf, _ | _, NInf => NInf
  | Fin p, Fin q => Fin (Qplus p q)
  end.

Definition fsub (a b : float64) : float64 := fadd a (fneg b).

(** Sign of a value that is not NaN: [Lt], [Eq] or [Gt] against zero. *)
Definition fsign (a : float64) : comparison :=
  match a with
  | NaN => Eq
  | NInf => Lt
  | PInf => Gt
  | Fin q => Qcompare q (0 # 1)
  end.

Definition fmul (a b : float64) : float64 :=
  match a, b with
  | NaN, _ | _, NaN => NaN
  | Fin p, Fin q => Fin (Qmult p q)
  | _, _ =>
      match fsign a, fsign b with
      | Eq, _ | _, Eq => NaN
      | Lt, Lt | Gt, Gt => PInf
      | _, _ => NInf
      end
  end.

(** Division as numpy performs it: [0/0] and [inf/inf] are NaN, a non-zero
    value over zero is an infinity (a warning, never an exception). *)
Definition fdiv (a b : float64) : float64 :=
  match a, b with
  | NaN, _ | _, NaN => NaN
  | Fin p, Fin q =>
      if Qeq_bool q (0 # 1) then
        match Qcompare p (0 # 1) with
        | Eq => NaN
        | Gt => PInf
        | Lt => NInf
        end
      else Fin (Qdiv p q)
  | Fin _, _ => fzero
  | _, Fin _ =>
      match fsign a, fsign b with
      | Lt, Lt | Gt, Gt | Gt, Eq => PInf
      | _, _ => NInf
      end
  | _, _ => NaN
  end.

(** Square root of a rational, rounded down on a grid of step [2^-52]:
    exact on perfect squares, in particular on zero. *)
Definition Qsqrt (q : Q) : Q :=
  let scale := (2 ^ 52)%Z in
  Qmake (Z.sqrt (Qnum q * Z.pos (Qden q) * scale * scale))
        (Qden q * Z.to_pos scale).

(** [np.sqrt] *)
Definition fsqrt (a : float64) : float64 :=
  match a with
  | NaN | NInf => NaN
  | PInf => PInf
  | Fin q => if Qltb q (0 # 1) then NaN else Fin (Qsqrt q)
  end.

(** The sum of an array, left to right from zero. *)
Definition fsum (l : list float64) : float64 := fold_left fadd l fzero.

(* ================================================================== *)
(** ** Sorting: [np.argsort], [np.roll] and [_argsortData] *)
(* ================================================================== *)

Section Argsort.
(** [lt i j]: the key at index [i] sorts strictly before the key at [j]. *)
Variable lt : nat -> nat -> bool.

(** Insertion in front of the first entry that is not smaller. *)
Fixpoint insert (i : nat) (l : list nat) : list nat :=
  match l with
  | [] => [i]
  | j :: l' => if lt j i then j :: insert i l' else i :: j :: l'
  end.

(** A stable sort of the indices [0 .. n-1]: index [0] is inserted last,
    in front of every entry that is not smaller, so entries with the same
    key keep their order. *)
Definition stable_argsort (n : nat) : list nat :=
  fold_right insert [] (seq 0 n).
End Argsort.

(** The arrays handed to the sort: the five statistics are float64 arrays,
    the type and name columns are arrays of strings. *)
Inductive ndarray : Type :=
| FloatArray (a : list float64)
| StrArray (a : list string).

Definition size (data : ndarray) : nat :=
  match data with
  | FloatArray a => length a
  | StrArray a => length a
  end.

(** [np.issubdtype(data.dtype, np.number)] *)
Definition is_number_dtype (data : ndarray) : bool :=
  match data with FloatArray _ => true | StrArray _ => false end.

(** The order numpy sorts float64 with: [a < b], or [b] is NaN and [a] is
    not; NaN is therefore larger than everything else. *)
Definition np_lt (a b : float64) : bool :=
  fltb a b || (isnan b && negb (isnan a)).

Definition key_lt (data : ndarray) (i j : nat) : bool :=
  match data with
  | FloatArray a => np_lt (nth i a NaN) (nth j a NaN)
  | StrArray a => String.ltb (nth i a "") (nth j a "")
  end.

(** [np.argsort(data, kind='mergesort')]: the stable ascending sort. *)
Definition np_argsort (data : ndarray) : list nat :=
  stable_argsort (key_lt data) (size data).

(** [np.isnan(data).sum()] *)
Definition isnan_sum (data : ndarray) : nat :=
  match data with
  | FloatArray a => length (filter isnan a)
  | StrArray _ => 0
  end.

(** [np.roll(a, shift)]: entry [i] moves to position [(i + shift) mod n]. *)
Definition np_roll {A : Type} (a : list A) (shift : Z) : list A :=
  match a with
  | [] => []
  | _ :: _ =>
      let k := Z.to_nat ((- shift) mod Z.of_nat (length a)) in
      skipn k a ++ firstn k a
  end.

Inductive SortOrder : Type := AscendingOrder | DescendingOrder.

(** [FeatureStatisticsTableModel._argsortData] *)
Definition _argsortData (data : ndarray) (order : SortOrder) : list nat :=
  let indices := np_argsort data in
  match order with
  | DescendingOrder =>
      let indices := rev indices in
      if is_number_dtype data
      then np_roll indices (- Z.of_nat (isnan_sum data))
      else indices
  | AscendingOrder => indices
  end.

(** [before l a b]: [a] occurs in [l] at a position in front of [b]. *)
Definition before (l : list nat) (a b : nat) : Prop :=
  exists l1 l2 l3, l = l1 ++ a :: l2 ++ b :: l3.

(** The key of a float array at an index, as the sort reads it. *)
Definition key_at (a : list float64) (i : nat) : float64 := nth i a NaN.

(** [late_tail late l]: once an entry of [l] satisfies [late], every later
    entry does. *)
Fixpoint late_tail (late : nat -> bool) (l : list nat) : bool :=
  match l with
  | [] => true
  | a :: l' => if late a then forallb late l' else late_tail late l'
  end.

(** Two rows tie when neither sorts strictly before the other. *)
Definition tie (data : ndarray) (i j : nat) : bool :=
  negb (key_lt data i j) && negb (key_lt data j i).

(* ================================================================== *)
(** ** Results of code that may raise *)
(* ================================================================== *)

Inductive Exception : Type := IndexError | ValueError | TypeError.

Inductive result (A : Type) : Type :=
| Ok (a : A)
| Raise (e : Exception).
Arguments Ok {A} a.
Arguments Raise {A} e.

Definition bind {A B : Type} (r : result A) (k : A -> result B) : result B :=
  match r with
  | Ok a => k a
  | Raise e => Raise e
  end.

Notation "x <- r ;; k" := (bind r (fun x => k))
  (at level 61, r at next level, right associativity).

Fixpoint mapM {A B : Type} (f : A -> result B) (l : list A) : result (list B) :=
  match l with
  | [] => Ok []
  | a :: l' => b <- f a ;; bs <- mapM f l' ;; Ok (b :: bs)
  end.

(* ================================================================== *)
(** ** Variables, domains and tables (the Orange data model) *)
(* ================================================================== *)

Inductive VarType : Type :=
| DiscreteVariable
| ContinuousVariable
| TimeVariable
| StringVariable.

(** [Orange.data.Variable] *)
Record Var : Type := {
  name : string;
  var_type : VarType;
  values : list string;   (* the categories of a discrete variable *)
  ordered : bool
}.

(** [isinstance(attr, cls)]: [TimeVariable] is a subclass of
    [ContinuousVariable]. *)
Definition isinstance (attr : Var) (cls : VarType) : bool :=
  match var_type attr, cls with
  | DiscreteVariable, DiscreteVariable => true
  | ContinuousVariable, ContinuousVariable => true
  | TimeVariable, ContinuousVariable => true
  | TimeVariable, TimeVariable => true
  | StringVariable, StringVariable => true
  | _, _ => false
  end.

(** [type(var).__name__] *)
Definition type_name (v : Var) : string :=
  match var_type v with
  | DiscreteVariable => "DiscreteVariable"
  | ContinuousVariable => "ContinuousVariable"
  | TimeVariable => "TimeVariable"
  | StringVariable => "StringVariable"
  end.

Definition lower_ascii (c : ascii) : ascii :=
  let n := nat_of_ascii c in
  if (65 <=? n) && (n <=? 90) then ascii_of_nat (n + 32) else c.

(** [str.lower] on ASCII names *)
Fixpoint lower (s : string) : string :=
  match s with
  | EmptyString => EmptyString
  | String c s' => String (lower_ascii c) (lower s')
  end.

(** An entry of a data matrix: [X] and [Y] hold floats, [metas] is an object
    array that holds floats and, in the columns of string variables, strings. *)
Inductive Cell : Type :=
| Num (x : float64)
| Str (s : string).

(** A matrix with [n_rows] rows, stored by columns; numpy keeps the shape,
    so a matrix without rows still has its columns. *)
Record Matrix : Type := {
  n_rows : nat;
  columns : list (list Cell)
}.

(** [x.size] *)
Definition msize (x : Matrix) : nat := n_rows x * length (columns x).

(** [x[:, idx]] for a list of column numbers taken from [enumerate] over the
    variables of the matrix. *)
Definition take_columns (x : Matrix) (idx : list nat) : Matrix :=
  {| n_rows := n_rows x;
     columns := map (fun i => nth i (columns x) []) idx |}.

Record Domain : Type := {
  attributes : list Var;
  class_vars : list Var;
  metas : list Var
}.

Record Table : Type := {
  domain : Domain;
  X : Matrix;
  Y : Matrix;
  M : Matrix;              (* [table.metas] *)
  table_name : string
}.

(** [len(data)] *)
Definition n_instances_of (data : Table) : nat := n_rows (X data).

(** A group: the variables of one part of the domain and their matrix. *)
Definition Group : Type := (list Var * Matrix)%type.

(** [[i for i, attr in enumerate(attrs) if p(attr)]] *)
Definition indices_where (p : Var -> bool) (attrs : list Var) : list nat :=
  map fst (filter (fun iv => p (snd iv)) (combine (seq 0 (length attrs)) attrs)).

(** [HIDDEN_VAR_TYPES = (StringVariable, TimeVariable)] *)
Definition is_hidden (attr : Var) : bool :=
  isinstance attr StringVariable || isinstance attr TimeVariable.

(** [FeatureStatisticsTableModel._attr_indices] *)
Definition _attr_indices (attrs : list Var)
  : list nat * list nat * list nat * list nat :=
  let disc_var_idx := indices_where (fun attr => isinstance attr DiscreteVariable) attrs in
  let cont_var_idx :=
    indices_where (fun attr => isinstance attr ContinuousVariable
                               && negb (isinstance attr TimeVariable)) attrs in
  let time_var_idx := indices_where (fun attr => isinstance attr TimeVariable) attrs in
  let string_var_idx := indices_where (fun attr => isinstance attr StringVariable) attrs in
  (disc_var_idx, cont_var_idx, time_var_idx, string_var_idx).

(** Filler for a position outside a list of variables; the positions used
    below come from [enumerate] over that list. *)
Definition no_var : Var :=
  {| name := ""; var_type := StringVariable; values := []; ordered := false |}.

(** [FeatureStatisticsTableModel.__filter_attributes] *)
Definition __filter_attributes (attributes : list Var) (matrix : Matrix) : Group :=
  let mask := indices_where (fun attr => negb (is_hidden attr)) attributes in
  (map (fun i => nth i attributes no_var) mask, take_columns matrix mask).

(* ================================================================== *)
(** ** The reducers of [Orange.statistics.util], column by column *)
(* ================================================================== *)

Definition notnan (x : float64) : bool := negb (isnan x).

(** [ut.nanmean(x, axis=0)] on one column: sum and count of the entries that
    are not NaN; an all-NaN column gives [0/0]. *)
Definition nanmean (col : list float64) : float64 :=
  let xs := filter notnan col in
  fdiv (fsum xs) (of_nat (length xs)).

(** [ut.nanvar(x, axis=0)] on one column (population variance). *)
Definition nanvar (col : list float64) : float64 :=
  let xs := filter notnan col in
  let avg := nanmean col in
  fdiv (fsum (map (fun x => fmul (fsub x avg) (fsub x avg)) xs))
       (of_nat (length xs)).

Definition fmin (a b : float64) : float64 := if fltb b a then b else a.
Definition fmax (a b : float64) : float64 := if fltb a b then b else a.

(** [ut.nanmin(x, axis=0)] on one column: NaN when nothing is left. *)
Definition nanmin (col : list float64) : float64 :=
  match filter notnan col with
  | [] => NaN
  | x :: xs => fold_left fmin xs x
  end.

(** [ut.nanmax(x, axis=0)] on one column. *)
Definition nanmax (col : list float64) : float64 :=
  match filter notnan col with
  | [] => NaN
  | x :: xs => fold_left fmax xs x
  end.

(** [ut.countnans(x, axis=0)] on one column. *)
Definition countnans (col : list float64) : float64 :=
  of_nat (length (filter isnan col)).

(** The cast [astype(np.int32)] of a category code; [np.bincount] refuses
    negative entries. *)
Definition to_code (x : float64) : result nat :=
  match x with
  | Fin q =>
      let z := Z.quot (Qnum q) (Z.pos (Qden q)) in
      if (z <? 0)%Z then Raise ValueError else Ok (Z.to_nat z)
  | _ => Raise ValueError
  end.

(** [ut.bincount(row)[0]]: NaN entries are dropped, the others are counted
    per code [0 .. max]; without entries the result is the empty array. *)
Definition bincount (col : list float64) : result (list float64) :=
  codes <- mapM to_code (filter notnan col) ;;
  let bins := match codes with [] => 0 | _ :: _ => S (list_max codes) end in
  Ok (map (fun k => of_nat (count_occ Nat.eq_dec codes k)) (seq 0 bins)).

(* ================================================================== *)
(** ** The statistics of [FeatureStatisticsTableModel] *)
(* ================================================================== *)

(** What the statistics take from SciPy and is left open here:
    [ss.mode(x)[0]] for one column (its value on columns that hold NaN
    differs between SciPy releases) and the natural logarithm that
    [ss.entropy] applies to positive probabilities. *)
Class SciPy : Type := {
  ss_mode : list float64 -> float64;
  ln : Q -> Q
}.

(** [astype(np.float64)] for one entry and for one column. *)
Definition cell_float (c : Cell) : result float64 :=
  match c with
  | Num x => Ok x
  | Str _ => Raise ValueError
  end.

Definition floats (col : list Cell) : result (list float64) := mapM cell_float col.

(** A matrix of floats, by columns: what the reducers receive. *)
Definition FloatMatrix : Type := list (list float64).

(** A reducer maps every column of a matrix to one number. *)
Definition Reducer : Type := FloatMatrix -> result (list float64).

Definition per_column (f : list float64 -> float64) : Reducer :=
  fun x => Ok (map f x).

(** [StringVariable.Unknown] *)
Definition StringVariable_Unknown : string := "".

Definition cell_is_unknown (c : Cell) : bool :=
  match c with
  | Str s => String.eqb s StringVariable_Unknown
  | Num _ => false
  end.

(** [(x == StringVariable.Unknown).sum(axis=0)] *)
Definition count_unknown (x : list (list Cell)) : result (list float64) :=
  Ok (map (fun col => of_nat (length (filter cell_is_unknown col))) x).

Section Statistics.
Context `{SciPy}.

(** [scipy.special.entr] *)
Definition entr (p : float64) : float64 :=
  match p with
  | NaN => NaN
  | Fin q =>
      match Qcompare q (0 # 1) with
      | Gt => Fin (Qopp (Qmult q (ln q)))
      | Eq => fzero
      | Lt => NInf
      end
  | PInf | NInf => NInf
  end.

(** [ss.entropy(pk)]: [pk] is normalised once more, then summed up. *)
Definition ss_entropy (pk : list float64) : float64 :=
  let total := fsum pk in
  let pk := map (fun p => fdiv p total) pk in
  fsum (map entr pk).

(** [_categorical_entropy] for one column. *)
Definition categorical_entropy_col (col : list float64) : result float64 :=
  pk <- bincount col ;;
  let total := fsum pk in
  let pk := map (fun p => fdiv p total) pk in
  Ok (ss_entropy pk).

(** [_categorical_entropy] *)
Definition _categorical_entropy : Reducer :=
  fun x => mapM categorical_entropy_col x.

(** [_to_float] inside [__compute_stat]: floats pass; a string in a
    column of a variable that is not a string variable cannot be
    converted. *)
Definition _to_float (data : Matrix) : result FloatMatrix :=
  mapM floats (columns data).

Fixpoint set_nth (i : nat) (v : float64) (l : list float64) : list float64 :=
  match l, i with
  | [], _ => []
  | _ :: l', O => v :: l'
  | x :: l', S i' => x :: set_nth i' v l'
  end.

(** [result[idx] = vals]: one value per listed position. *)
Fixpoint assign (idx : list nat) (vals : list float64) (res : list float64)
  : list float64 :=
  match idx, vals with
  | i :: idx', v :: vals' => assign idx' vals' (set_nth i v res)
  | _, _ => res
  end.

(** One [if f: x_ = x[:, idx]; if x_.size: result[idx] = f(_to_float(x_))]
    step of [__compute_stat]. *)
Definition apply_numeric (f : option Reducer) (x : Matrix) (idx : list nat)
           (res : list float64) : result (list float64) :=
  match f with
  | None => Ok res
  | Some f =>
      let x_ := take_columns x idx in
      if msize x_ =? 0 then Ok res
      else data <- _to_float x_ ;; vals <- f data ;; Ok (assign idx vals res)
  end.

(** The same step for [string_f], which reads the cells as objects. *)
Definition apply_string (f : option (list (list Cell) -> result (list float64)))
           (x : Matrix) (idx : list nat) (res : list float64)
  : result (list float64) :=
  match f with
  | None => Ok res
  | Some f =>
      let x_ := take_columns x idx in
      if msize x_ =? 0 then Ok res
      else vals <- f (columns x_) ;; Ok (assign idx vals res)
  end.

(** The body of the loop of [__compute_stat] for one group. *)
Definition compute_stat_group
           (discrete_f continuous_f time_f : option Reducer)
           (string_f : option (list (list Cell) -> result (list float64)))
           (default_val : float64) (g : Group) : result (list float64) :=
  let '(variables, x) := g in
  let res := repeat default_val (length variables) in
  let '(disc_idx, cont_idx, time_idx, str_idx) := _attr_indices variables in
  res <- apply_numeric discrete_f x disc_idx res ;;
  res <- apply_numeric continuous_f x cont_idx res ;;
  res <- apply_numeric time_f x time_idx res ;;
  res <- apply_string string_f x str_idx res ;;
  Ok res.

(** [FeatureStatisticsTableModel.__compute_stat] *)
Definition __compute_stat (matrices : list Group)
           (discrete_f continuous_f time_f : option Reducer)
           (string_f : option (list (list Cell) -> result (list float64)))
           (default_val : float64) : result (list float64) :=
  match matrices with
  | [] => Ok []
  | _ :: _ =>
      results <- mapM (compute_stat_group discrete_f continuous_f time_f
                                          string_f default_val) matrices ;;
      Ok (concat results)
  end.
End Statistics.

(* ================================================================== *)
(** ** [FeatureStatisticsTableModel] *)
(* ================================================================== *)

(** [FeatureStatisticsTableModel.Columns] *)
Inductive Columns : Type :=
| ICON | NAME | DISTRIBUTION | CENTER | DISPERSION | MIN | MAX | MISSING.

(** [Columns.name] *)
Definition column_name (c : Columns) : string :=
  match c with
  | ICON => ""
  | NAME => "Name"
  | DISTRIBUTION => "Distribution"
  | CENTER => "Center"
  | DISPERSION => "Dispersion"
  | MIN => "Min."
  | MAX => "Max."
  | MISSING => "Missing"
  end.

(** [Columns.from_index] *)
Definition from_index (i : Z) : option Columns :=
  match i with
  | 0%Z => Some ICON | 1%Z => Some NAME | 2%Z => Some DISTRIBUTION
  | 3%Z => Some CENTER | 4%Z => Some DISPERSION | 5%Z => Some MIN
  | 6%Z => Some MAX | 7%Z => Some MISSING
  | _ => None
  end.

(** The statistic columns: those that sort by one of the five vectors. *)
Definition is_statistic (c : Columns) : bool :=
  match c with
  | CENTER | DISPERSION | MIN | MAX | MISSING => true
  | ICON | NAME | DISTRIBUTION => false
  end.

(** The state of the model.  The target variable and the cache of histogram
    scenes only serve the rendering and are left out; [sortInd] and
    [sortIndInv] are the two arrays of the sortable base class. *)
Record Model : Type := {
  table : option Table;
  n_attributes : nat;
  n_instances : nat;
  __attributes : Group;
  __class_vars : Group;
  __metas : Group;
  _variable_types : list string;
  _variable_names : list string;
  _center : list float64;
  _dispersion : list float64;
  _min : list float64;
  _max : list float64;
  _missing : list float64;
  sortInd : option (list nat);
  sortIndInv : option (list nat)
}.

Definition empty_group : Group := ([], {| n_rows := 0; columns := [] |}).

(** The model as [__init__] leaves it when no data is given.  The five
    vectors do not exist before the first computation; they are shown as
    empty. *)
Definition initial_model : Model :=
  {| table := None; n_attributes := 0; n_instances := 0;
     __attributes := empty_group; __class_vars := empty_group;
     __metas := empty_group;
     _variable_types := []; _variable_names := [];
     _center := []; _dispersion := []; _min := []; _max := []; _missing := [];
     sortInd := None; sortIndInv := None |}.

(** [FeatureStatisticsTableModel.clear]: the vectors are not touched. *)
Definition clear (m : Model) : Model :=
  {| table := None; n_attributes := 0; n_instances := 0;
     __attributes := empty_group; __class_vars := empty_group;
     __metas := empty_group;
     _variable_types := _variable_types m; _variable_names := _variable_names m;
     _center := _center m; _dispersion := _dispersion m; _min := _min m;
     _max := _max m; _missing := _missing m;
     sortInd := sortInd m; sortIndInv := sortIndInv m |}.

(** [FeatureStatisticsTableModel.variables] *)
Definition variables (m : Model) : list Var :=
  fst (__attributes m) ++ fst (__class_vars m) ++ fst (__metas m).

(** The three groups that [__compute_statistics] keeps: those whose matrix
    has a size other than zero. *)
Definition kept_matrices (m : Model) : list Group :=
  filter (fun tup => negb (msize (snd tup) =? 0))
         [__attributes m; __class_vars m; __metas m].

Section ModelStatistics.
Context `{SciPy}.

(** The coefficient of variation of one column:
    [np.sqrt(ut.nanvar(x, axis=0)) / ut.nanmean(x, axis=0)]. *)
Definition coefficient_of_variation (col : list float64) : float64 :=
  fdiv (fsqrt (nanvar col)) (nanmean col).

(** [FeatureStatisticsTableModel.__compute_statistics] *)
Definition __compute_statistics (m : Model) : result Model :=
  let matrices := kept_matrices m in
  let types := map type_name (variables m) in
  let names := map (fun var => lower (name var)) (variables m) in
  center <- __compute_stat matrices
              (Some (per_column ss_mode)) (Some (per_column nanmean))
              None None NaN ;;
  dispersion <- __compute_stat matrices
              (Some _categorical_entropy)
              (Some (per_column coefficient_of_variation))
              None None NaN ;;
  min <- __compute_stat matrices
              (Some (per_column nanmin)) (Some (per_column nanmin))
              None None NaN ;;
  max <- __compute_stat matrices
              (Some (per_column nanmax)) (Some (per_column nanmax))
              None None NaN ;;
  missing <- __compute_stat matrices
              (Some (per_column countnans)) (Some (per_column countnans))
              (Some (per_column countnans)) (Some count_unknown) NaN ;;
  Ok {| table := table m; n_attributes := n_attributes m;
        n_instances := n_instances m;
        __attributes := __attributes m; __class_vars := __class_vars m;
        __metas := __metas m;
        _variable_types := types; _variable_names := names;
        _center := center; _dispersion := dispersion; _min := min;
        _max := max; _missing := missing;
        sortInd := sortInd m; sortIndInv := sortIndInv m |}.

(** [FeatureStatisticsTableModel.set_data] *)
Definition model_set_data (m : Model) (data : option Table) : result Model :=
  match data with
  | None => Ok (clear m)
  | Some data =>
      let attrs := __filter_attributes (attributes (domain data)) (X data) in
      let class := __filter_attributes (class_vars (domain data)) (Y data) in
      let metas := __filter_attributes (metas (domain data)) (M data) in
      __compute_statistics
        {| table := Some data;
           n_attributes := length (fst attrs ++ fst class ++ fst metas);
           n_instances := n_instances_of data;
           __attributes := attrs; __class_vars := class; __metas := metas;
           _variable_types := _variable_types m;
           _variable_names := _variable_names m;
           _center := _center m; _dispersion := _dispersion m;
           _min := _min m; _max := _max m; _missing := _missing m;
           sortInd := sortInd m; sortIndInv := sortIndInv m |}
  end.
End ModelStatistics.

(** [FeatureStatisticsTableModel.sortColumnData] *)
Definition sortColumnData (m : Model) (column : Columns) : ndarray :=
  match column with
  | ICON => StrArray (_variable_types m)
  | NAME => StrArray (_variable_names m)
  | DISTRIBUTION => StrArray (_variable_names m)
  | CENTER => FloatArray (_center m)
  | DISPERSION => FloatArray (_dispersion m)
  | MIN => FloatArray (_min m)
  | MAX => FloatArray (_max m)
  | MISSING => FloatArray (_missing m)
  end.

(** [np.argsort] of an array of row numbers. *)
Definition argsort_rows (ind : list nat) : list nat :=
  stable_argsort (fun i j => nth i ind 0 <? nth j ind 0) (length ind).

Definition set_sorting (m : Model) (ind inv : option (list nat)) : Model :=
  {| table := table m; n_attributes := n_attributes m;
     n_instances := n_instances m;
     __attributes := __attributes m; __class_vars := __class_vars m;
     __metas := __metas m;
     _variable_types := _variable_types m; _variable_names := _variable_names m;
     _center := _center m; _dispersion := _dispersion m; _min := _min m;
     _max := _max m; _missing := _missing m;
     sortInd := ind; sortIndInv := inv |}.

(** Modelled from the spec: the sortable base class of the host framework is
    not part of the sources.  [sort(column, direction)] takes the raw data
    of the column, asks [_argsortData] for the display order and keeps that
    permutation together with its inverse. *)
Definition sort (m : Model) (column : Columns) (order : SortOrder) : Model :=
  let indices := _argsortData (sortColumnData m column) order in
  set_sorting m (Some indices) (Some (argsort_rows indices)).

(** Modelled from the spec: [resetSorting] of the base class returns to the
    source order. *)
Definition resetSorting (m : Model) : Model := set_sorting m None None.

(** Modelled from the spec: [mapToSourceRows], the spec's
    [toSourceRow(displayRow)]: the entry of the display order at that row. *)
Definition mapToSourceRows (m : Model) (row : nat) : result nat :=
  match sortInd m with
  | None => Ok row
  | Some ind =>
      match nth_error ind row with
      | Some r => Ok r
      | None => Raise IndexError
      end
  end.

(** Modelled from the spec: [mapFromSourceRows], the spec's
    [toDisplayRow(sourceRow)]: the entry of the inverse order. *)
Definition mapFromSourceRows (m : Model) (row : nat) : result nat :=
  match sortIndInv m with
  | None => Ok row
  | Some inv =>
      match nth_error inv row with
      | Some r => Ok r
      | None => Raise IndexError
      end
  end.

(** A [QModelIndex]: valid when row and column are not negative. *)
Record QModelIndex : Type := {
  row : Z;
  column : Z
}.

Definition isValid (index : QModelIndex) : bool :=
  (0 <=? row index)%Z && (0 <=? column index)%Z.

Inductive ItemDataRole : Type :=
| DisplayRole | DecorationRole | BackgroundRole | TextAlignmentRole | OtherRole.

(** What a call of [data] comes to. *)
Inductive DataAnswer : Type :=
| ReturnsNone                       (* the bare [return] for an invalid index *)
| EmptyQVariant                     (* [return QVariant()]: the row was refused *)
| Raises (e : Exception)            (* an exception leaves [data] *)
| CellOf (attribute : Var) (source_row : nat) (column : Z) (role : ItemDataRole).
                                    (* the branch that renders this variable *)

(** [FeatureStatisticsTableModel.data] up to the lookup of the variable of
    the row; the rendering of the cell that follows is kept as [CellOf]. *)
Definition data (m : Model) (index : QModelIndex) (role : ItemDataRole)
  : DataAnswer :=
  if negb (isValid index) then ReturnsNone
  else
    match mapToSourceRows m (Z.to_nat (row index)) with
    | Raise e => Raises e
    | Ok row =>
        if negb ((0 <=? row) && (row <=? n_attributes m)) then EmptyQVariant
        else
          match nth_error (variables m) row with
          | None => Raises IndexError
          | Some attribute => CellOf attribute row (column index) role
          end
    end.

(** [FeatureStatisticsTableModel.rowCount] and [columnCount] for the root. *)
Definition rowCount (m : Model) : nat := n_attributes m.
Definition columnCount : nat := 8.

(** What [get_statistics_matrix] returns. *)
Inductive StatisticsMatrix : Type :=
| JustMatrix (rows : list (list float64))
| WithLabels (labels : list string) (rows : list (list float64)).

Definition Var_eq_dec (a b : Var) : {a = b} + {a <> b}.
Proof.
  decide equality.
  - apply Bool.bool_dec.
  - apply (list_eq_dec string_dec).
  - decide equality.
  - apply string_dec.
Defined.

Fixpoint position (v : Var) (l : list Var) : option nat :=
  match l with
  | [] => None
  | x :: l' =>
      if Var_eq_dec v x then Some 0
      else match position v l' with
           | Some i => Some (S i)
           | None => None
           end
  end.

(** [Domain.index(var)]: attributes and class variables count from zero,
    meta variables are numbered [-1, -2, ...]. *)
Definition domain_index (d : Domain) (var : Var) : result Z :=
  match position var (metas d) with
  | Some i => Ok (-1 - Z.of_nat i)%Z
  | None =>
      match position var (attributes d ++ class_vars d) with
      | Some i => Ok (Z.of_nat i)
      | None => Raise ValueError
      end
  end.

(** [vec[i]] inside a list of indices: a negative index counts from the
    end, an index outside the array raises. *)
Definition item (vec : list float64) (i : Z) : result float64 :=
  let n := Z.of_nat (length vec) in
  let j := if (i <? 0)%Z then (i + n)%Z else i in
  if (j <? 0)%Z || (n <=? j)%Z then Raise IndexError
  else Ok (nth (Z.to_nat j) vec NaN).

(** [vec[indices]], where [indices] is a list of numbers or [...] *)
Definition items (vec : list float64) (indices : option (list Z))
  : result (list float64) :=
  match indices with
  | None => Ok vec
  | Some l => mapM (item vec) l
  end.

(** [np.vstack((a, b, c, d, e)).T] for five vectors of one length. *)
Fixpoint vstack_T (a b c d e : list float64) : list (list float64) :=
  match a, b, c, d, e with
  | x :: a', y :: b', z :: c', u :: d', v :: e' =>
      [x; y; z; u; v] :: vstack_T a' b' c' d' e'
  | _, _, _, _, _ => []
  end.

(** [FeatureStatisticsTableModel.get_statistics_matrix] *)
Definition get_statistics_matrix (m : Model) (variables : option (list Var))
           (return_labels : bool) : result StatisticsMatrix :=
  match table m with
  | None => Ok (JustMatrix [[]])          (* [np.atleast_2d([])] *)
  | Some t =>
      indices <-
        match variables with
        | Some (v :: vs) =>
            l <- mapM (domain_index (domain t)) (v :: vs) ;; Ok (Some l)
        | _ => Ok None
        end ;;
      center <- items (_center m) indices ;;
      dispersion <- items (_dispersion m) indices ;;
      min <- items (_min m) indices ;;
      max <- items (_max m) indices ;;
      missing <- items (_missing m) indices ;;
      let matrix := vstack_T center dispersion min max missing in
      if return_labels then
        Ok (WithLabels [column_name CENTER; column_name DISPERSION;
                        column_name MIN; column_name MAX; column_name MISSING]
                       matrix)
      else Ok (JustMatrix matrix)
  end.

(* ================================================================== *)
(** ** [OWFeatureStatistics] *)
(* ================================================================== *)

Definition Domain_eq_dec (a b : Domain) : {a = b} + {a <> b}.
Proof. decide equality; apply (list_eq_dec Var_eq_dec). Defined.

(** The context settings of the widget that matter here: [selected_rows]
    and [sorting]. *)
Record Settings : Type := {
  saved_selected_rows : list nat;
  saved_sorting : nat * SortOrder
}.

(** The table sent on the [Statistics] output. *)
Record StatisticsTable : Type := {
  statistics_name : string;
  statistics_attributes : list string;      (* one continuous variable per label *)
  statistics_rows : list (list float64);
  statistics_features : list string         (* the meta column [Feature] *)
}.

(** The state of the widget: its data, the two context settings, the model,
    the contexts the handler has stored and what was last sent on the two
    outputs ([None] once [send(None)] ran).  The table view and its
    selection model belong to the host; the rows they hold are arguments and
    results of the functions below. *)
Record Widget : Type := {
  widget_data : option Table;
  selected_rows : list nat;
  sorting : nat * SortOrder;
  model : Model;
  contexts : list (Domain * Settings);
  current_context : option Domain;
  reduced_data : option Table;
  statistics : option StatisticsTable
}.

Definition initial_widget : Widget :=
  {| widget_data := None; selected_rows := [];
     sorting := (0, DescendingOrder); model := initial_model;
     contexts := []; current_context := None;
     reduced_data := None; statistics := None |}.

Definition with_selected_rows (w : Widget) (rows : list nat) : Widget :=
  {| widget_data := widget_data w; selected_rows := rows;
     sorting := sorting w; model := model w; contexts := contexts w;
     current_context := current_context w;
     reduced_data := reduced_data w; statistics := statistics w |}.

Definition with_model (w : Widget) (m : Model) : Widget :=
  {| widget_data := widget_data w; selected_rows := selected_rows w;
     sorting := sorting w; model := m; contexts := contexts w;
     current_context := current_context w;
     reduced_data := reduced_data w; statistics := statistics w |}.

Definition with_data (w : Widget) (d : option Table) : Widget :=
  {| widget_data := d; selected_rows := selected_rows w;
     sorting := sorting w; model := model w; contexts := contexts w;
     current_context := current_context w;
     reduced_data := reduced_data w; statistics := statistics w |}.

Definition with_outputs (w : Widget) (r : option Table)
           (s : option StatisticsTable) : Widget :=
  {| widget_data := widget_data w; selected_rows := selected_rows w;
     sorting := sorting w; model := model w; contexts := contexts w;
     current_context := current_context w;
     reduced_data := r; statistics := s |}.

Fixpoint lookup_context (d : Domain) (l : list (Domain * Settings))
  : option Settings :=
  match l with
  | [] => None
  | (d', s) :: l' => if Domain_eq_dec d d' then Some s else lookup_context d l'
  end.

Fixpoint store_context (d : Domain) (s : Settings) (l : list (Domain * Settings))
  : list (Domain * Settings) :=
  match l with
  | [] => [(d, s)]
  | (d', s') :: l' =>
      if Domain_eq_dec d d' then (d, s) :: l' else (d', s') :: store_context d s l'
  end.

(** Modelled from the spec: the context handler belongs to the host
    framework.  Closing the context files the current settings under the
    domain of the data that was open. *)
Definition closeContext (w : Widget) : Widget :=
  match current_context w with
  | None => w
  | Some d =>
      {| widget_data := widget_data w; selected_rows := selected_rows w;
         sorting := sorting w; model := model w;
         contexts := store_context d
                       {| saved_selected_rows := selected_rows w;
                          saved_sorting := sorting w |} (contexts w);
         current_context := None;
             reduced_data := reduced_data w; statistics := statistics w |}
  end.

(** Modelled from the spec: opening a context for data whose domain was seen
    before brings the settings filed for it back; for a domain not seen
    before the settings stay as they are; without data no context opens. *)
Definition openContext (w : Widget) (d : option Table) : Widget :=
  match d with
  | None => w
  | Some t =>
      match lookup_context (domain t) (contexts w) with
      | Some s =>
          {| widget_data := widget_data w;
             selected_rows := saved_selected_rows s;
             sorting := saved_sorting s; model := model w;
             contexts := contexts w;
             current_context := Some (domain t);
                     reduced_data := reduced_data w; statistics := statistics w |}
      | None =>
          {| widget_data := widget_data w; selected_rows := selected_rows w;
             sorting := sorting w; model := model w; contexts := contexts w;
             current_context := Some (domain t);
                     reduced_data := reduced_data w; statistics := statistics w |}
      end
  end.

(** [variables[rows]]: the property [variables] is a plain empty list when
    there is no variable, and a list cannot be indexed by a list. *)
Definition variables_at (m : Model) (rows : list nat) : result (list Var) :=
  match variables m with
  | [] => Raise TypeError
  | vars =>
      mapM (fun r => match nth_error vars r with
                     | Some v => Ok v
                     | None => Raise IndexError
                     end) rows
  end.

(** The columns of [vars] out of one part of the table: [keep] tells the
    part by the domain index, [local] turns it into a column number. *)
Definition part_of (vars : list Var) (cols : list Z) (keep : Z -> bool)
           (local : Z -> nat) (x : Matrix) : list Var * Matrix :=
  let chosen := filter (fun vc => keep (snd vc)) (combine vars cols) in
  (map fst chosen, take_columns x (map (fun vc => local (snd vc)) chosen)).

(** [data[:, variables]]: the table reduced to the given variables, each in
    the part of the domain it came from. *)
Definition table_columns (t : Table) (vars : list Var) : result Table :=
  cols <- mapM (domain_index (domain t)) vars ;;
  let n_attrs := Z.of_nat (length (attributes (domain t))) in
  let attrs := part_of vars cols (fun c => (0 <=? c)%Z && (c <? n_attrs)%Z)
                       Z.to_nat (X t) in
  let class := part_of vars cols (fun c => (n_attrs <=? c)%Z)
                       (fun c => Z.to_nat (c - n_attrs)) (Y t) in
  let metas := part_of vars cols (fun c => (c <? 0)%Z)
                       (fun c => Z.to_nat (-1 - c)) (M t) in
  Ok {| domain := {| attributes := fst attrs; class_vars := fst class;
                     metas := fst metas |};
        X := snd attrs; Y := snd class; M := snd metas;
        table_name := table_name t |}.

(** [OWFeatureStatistics.commit] *)
Definition commit (w : Widget) : result Widget :=
  match selected_rows w with
  | [] => Ok (with_outputs w None None)
  | _ :: _ =>
      variables <- variables_at (model w) (selected_rows w) ;;
      match widget_data w with
      | None => Raise TypeError
      | Some data =>
          reduced <- table_columns data variables ;;
          let w := with_outputs w (Some reduced) (statistics w) in
          answer <- get_statistics_matrix (model w) (Some variables) true ;;
          match answer with
          | JustMatrix _ => Raise ValueError   (* nothing to unpack into two *)
          | WithLabels labels rows =>
              let table :=
                {| statistics_name := table_name data ++ " (Feature Statistics)";
                   statistics_attributes := labels;
                   statistics_rows := rows;
                   statistics_features := map name variables |} in
              Ok (with_outputs w (Some reduced) (Some table))
          end
      end
  end.

(** [OWFeatureStatistics.on_select]; [selectedRows] are the display rows
    that the selection model of the view reports. *)
Definition on_select (w : Widget) (selectedRows : list nat) : result Widget :=
  rows <- mapM (mapToSourceRows (model w)) selectedRows ;;
  commit (with_selected_rows w rows).

(** [OWFeatureStatistics.__restore_selection]: the display rows handed to
    the selection model of the view. *)
Definition __restore_selection (w : Widget) : result (list nat) :=
  mapM (mapFromSourceRows (model w)) (selected_rows w).

Definition column_of_nat (i : nat) : option Columns := from_index (Z.of_nat i).

(** [OWFeatureStatistics.__restore_sorting] *)
Definition __restore_sorting (w : Widget) : Widget :=
  let '(sort_column, sort_order) := sorting w in
  if sort_column <? columnCount then
    match column_of_nat sort_column with
    | Some c => with_model w (sort (model w) c sort_order)
    | None => w
    end
  else w.

Section WidgetData.
Context `{SciPy}.

(** [OWFeatureStatistics.set_data].  The colour variable, the info labels
    and the histogram cache do not touch the fields kept here. *)
Definition set_data (w : Widget) (data : option Table) : result Widget :=
  let w := closeContext w in
  let w := with_selected_rows w [] in
  let w := with_model w (resetSorting (model w)) in
  let w := with_data w data in
  m <- model_set_data (model w) data ;;
  let w := with_model w m in
  let w := openContext w data in
  _ <- __restore_selection w ;;
  Ok (__restore_sorting w).
End WidgetData.

(** The context handler of the host, of which the widget calls two methods.
    Which filed context, if any, it takes for incoming data is its own
    matter, and nothing of it is fixed here. *)
Record ContextHandler : Type := {
  handler_close : Widget -> Widget;                 (* [closeContext()] *)
  handler_open : Widget -> option Table -> Widget   (* [openContext(data)] *)
}.

Section WidgetDataWith.
Context `{SciPy}.
Variable handler : ContextHandler.

(** [OWFeatureStatistics.set_data], over any context handler. *)
Definition set_data_with (w : Widget) (data : option Table) : result Widget :=
  let w := handler_close handler w in
  let w := with_selected_rows w [] in
  let w := with_model w (resetSorting (model w)) in
  let w := with_data w data in
  m <- model_set_data (model w) data ;;
  let w := with_model w m in
  let w := handler_open handler w data in
  _ <- __restore_selection w ;;
  Ok (__restore_sorting w).
End WidgetDataWith.

(** The handler that files the settings per domain. *)
Definition domain_handler : ContextHandler :=
  {| handler_close := closeContext; handler_open := openContext |}.



(* ================================================================== *)
(** ** The header and the cells of the model, the rows of the view *)
(* ================================================================== *)

(** [Columns.index] *)
Definition column_index (c : Columns) : Z :=
  match c with
  | ICON => 0 | NAME => 1 | DISTRIBUTION => 2 | CENTER => 3
  | DISPERSION => 4 | MIN => 5 | MAX => 6 | MISSING => 7
  end%Z.

Inductive Orientation : Type := Horizontal | Vertical.

(** [FeatureStatisticsTableModel.headerData]: [Columns.from_index] raises
    ValueError for a number that is no column; outside the display role of
    the horizontal header the function falls off its end. *)
Definition headerData (section : Z) (orientation : Orientation)
           (role : ItemDataRole) : result (option string) :=
  match orientation, role with
  | Horizontal, DisplayRole =>
      match from_index section with
      | Some c => Ok (Some (column_name c))
      | None => Raise ValueError
      end
  | _, _ => Ok None
  end.

(** [CLASS_VAR, META, ATTRIBUTE = range(3)] *)
Inductive VariableRole : Type := CLASS_VAR | META | ATTRIBUTE.

Record QColor : Type := { red : nat; green : nat; blue : nat }.

(** [COLOR_FOR_ROLE] *)
Definition COLOR_FOR_ROLE (r : VariableRole) : QColor :=
  match r with
  | CLASS_VAR => {| red := 160; green := 160; blue := 160 |}
  | META => {| red := 220; green := 220; blue := 200 |}
  | ATTRIBUTE => {| red := 255; green := 255; blue := 255 |}
  end.

(** [Qt.AlignLeft | Qt.AlignVCenter] and [Qt.AlignRight | Qt.AlignVCenter] *)
Inductive Alignment : Type := AlignLeft_AlignVCenter | AlignRight_AlignVCenter.

(** The exceptions of a cell: those of the model so far, the OverflowError
    of ['%d'] on an infinity, and the AttributeError of a domain that is
    [None]. *)
Inductive CellError : Type :=
| Python (e : Exception)
| OverflowError
| AttributeError.

(** What [data] answers. *)
Inductive CellValue : Type :=
| NoValue                          (* [None] *)
| Invalid                          (* [QVariant()] *)
| Color (c : QColor)
| Align (a : Alignment)
| Icon (attribute : Var)           (* [gui.attributeIconDict[attribute]] *)
| Scene (attribute : Var)          (* the histogram scene of the variable *)
| Text (s : string)
| Error (e : CellError).

(** The local [output] of [data] before it is formatted. *)
Inductive Output : Type :=
| OutNone
| OutStr (s : string)
| OutFloat (x : float64).

(** ['%d' % z] for an integer. *)
Definition int_text (z : Z) : string := NilZero.string_of_int (Z.to_int z).

(** ['%d' % x] for a float: the whole part of a finite value, towards
    zero; NaN and the infinities cannot be converted. *)
Definition format_d (x : float64) : string + CellError :=
  match x with
  | Fin q => inl (int_text (Z.quot (Qnum q) (Z.pos (Qden q))))
  | NaN => inr (Python ValueError)
  | PInf | NInf => inr OverflowError
  end.

(** ['%d (%d%%)' % (missing, 100 * missing / n_instances)] *)
Definition missing_text (missing : float64) (n_instances : nat)
  : string + CellError :=
  match format_d missing with
  | inr e => inr e
  | inl count =>
      match format_d (fdiv (fmul (of_nat 100) missing) (of_nat n_instances)) with
      | inr e => inr e
      | inl percent => inl (count ++ " (" ++ percent ++ "%)")%string
      end
  end.

(** [attribute in variables] *)
Definition contains (l : list Var) (v : Var) : bool :=
  if in_dec Var_eq_dec v l then true else false.

(** What the cells take from Orange and from the locale and is left open
    here: [DiscreteVariable.str_val] and, for a finite value,
    [locale.format('%.2f', x, grouping=True)]. *)
Class Rendering : Type := {
  str_val : Var -> float64 -> result string;
  locale_format : Q -> string
}.

Section Cells.
Context `{Rendering}.

(** The end of [data], which formats [output]: NaN and the infinities by
    name, any other float by the locale; a string and [None] pass. *)
Definition format_output (output : Output) : CellValue :=
  match output with
  | OutNone => NoValue
  | OutStr s => Text s
  | OutFloat NaN => Text "NaN"
  | OutFloat PInf => Text "∞"
  | OutFloat NInf => Text "-∞"
  | OutFloat (Fin q) => Text (locale_format q)
  end.

(** [vec[row]], handed to what is done with the entry. *)
Definition entry (vec : list float64) (row : nat) (k : float64 -> CellValue)
  : CellValue :=
  match nth_error vec row with
  | Some x => k x
  | None => Error (Python IndexError)
  end.

(** [attribute.str_val(x)] as the [output]. *)
Definition str_val_output (attribute : Var) (x : float64) : CellValue :=
  match str_val attribute x with
  | Ok s => format_output (OutStr s)
  | Raise e => Error (Python e)
  end.

(** The chain of tests on the column in [data], for the variable of the
    row. *)
Definition cell_output (m : Model) (attribute : Var) (row : nat) (column : Z)
           (role : ItemDataRole) : CellValue :=
  let is_display := match role with DisplayRole => true | _ => false end in
  if (column =? column_index ICON)%Z then
    match role with
    | DecorationRole => Icon attribute
    | _ => format_output OutNone
    end
  else if (column =? column_index NAME)%Z then
    if is_display then format_output (OutStr (name attribute))
    else format_output OutNone
  else if (column =? column_index DISTRIBUTION)%Z then
    if is_display
       && (isinstance attribute DiscreteVariable
           || isinstance attribute ContinuousVariable)
    then Scene attribute
    else format_output OutNone
  else if (column =? column_index CENTER)%Z then
    if is_display then
      entry (_center m) row
            (fun output =>
               if isinstance attribute DiscreteVariable && negb (isnan output)
               then str_val_output attribute output
               else format_output (OutFloat output))
    else format_output OutNone
  else if (column =? column_index DISPERSION)%Z then
    if is_display then
      entry (_dispersion m) row (fun output => format_output (OutFloat output))
    else format_output OutNone
  else if (column =? column_index MIN)%Z then
    if is_display then
      if isinstance attribute DiscreteVariable then
        if ordered attribute then entry (_min m) row (str_val_output attribute)
        else format_output OutNone
      else entry (_min m) row (fun output => format_output (OutFloat output))
    else format_output OutNone
  else if (column =? column_index MAX)%Z then
    if is_display then
      if isinstance attribute DiscreteVariable then
        if ordered attribute then entry (_max m) row (str_val_output attribute)
        else format_output OutNone
      else entry (_max m) row (fun output => format_output (OutFloat output))
    else format_output OutNone
  else if (column =? column_index MISSING)%Z then
    if is_display then
      entry (_missing m) row
            (fun missing =>
               match missing_text missing (n_instances m) with
               | inl s => format_output (OutStr s)
               | inr e => Error e
               end)
    else format_output OutNone
  else format_output OutNone.

(** [data] from the variable of the row on: the background by the part of
    the domain, the alignment by the column, then the cell itself. *)
Definition render (m : Model) (attribute : Var) (row : nat) (column : Z)
           (role : ItemDataRole) : CellValue :=
  match role with
  | BackgroundRole =>
      match table m with
      | None => Error AttributeError
      | Some t =>
          if contains (attributes (domain t)) attribute
          then Color (COLOR_FOR_ROLE ATTRIBUTE)
          else if contains (metas (domain t)) attribute
          then Color (COLOR_FOR_ROLE META)
          else if contains (class_vars (domain t)) attribute
          then Color (COLOR_FOR_ROLE CLASS_VAR)
          else cell_output m attribute row column role
      end
  | TextAlignmentRole =>
      if (column =? column_index NAME)%Z then Align AlignLeft_AlignVCenter
      else Align AlignRight_AlignVCenter
  | _ => cell_output m attribute row column role
  end.

(** [FeatureStatisticsTableModel.data], whole. *)
Definition data_value (m : Model) (index : QModelIndex) (role : ItemDataRole)
  : CellValue :=
  match data m index role with
  | ReturnsNone => NoValue
  | EmptyQVariant => Invalid
  | Raises e => Error (Python e)
  | CellOf attribute row column role => render m attribute row column role
  end.
End Cells.

(** [FeatureStatisticsTableView]: the aspect ratio of a histogram and the
    bounds of its height. *)
Definition HISTOGRAM_ASPECT_RATIO : Q * Q := ((7 # 1)%Q, (3 # 1)%Q).
Definition MINIMUM_HISTOGRAM_HEIGHT : Q := (50 # 1)%Q.
Definition MAXIMUM_HISTOGRAM_HEIGHT : Q := (80 # 1)%Q.

(** Python's [max(a, b)] and [min(a, b)]: the first argument, unless the
    second is strictly beyond it. *)
Definition py_max (a b : Q) : Q := if Qltb a b then b else a.
Definition py_min (a b : Q) : Q := if Qltb b a then b else a.

Section View.
(** The rounding of doubles: [fl x] stands for the double that the exact
    result [x] of a division or a product is rounded to.  Nothing of it is
    fixed here. *)
Variable fl : Q -> Q.

(** [FeatureStatisticsTableView.bind_histogram_aspect_ratio]: the height
    handed to [setDefaultSectionSize] of the vertical header, [None] when
    the slot returns for another column.  [new_size] is an int that a
    double holds exactly; the quotient and the product are doubles, each
    rounded; what the host's setter makes of a float is not part of the
    model. *)
Definition bind_histogram_aspect_ratio (logical_index : Z) (new_size : Z)
  : option Q :=
  if negb (logical_index =? column_index DISTRIBUTION)%Z then None
  else
    let '(ratio_width, ratio_height) := HISTOGRAM_ASPECT_RATIO in
    let unit_width := fl (Qdiv (inject_Z new_size) ratio_width) in
    let new_height := fl (Qmult unit_width ratio_height) in
    let effective_height := py_max new_height MINIMUM_HISTOGRAM_HEIGHT in
    let effective_height := py_min effective_height MAXIMUM_HISTOGRAM_HEIGHT in
    Some effective_height.
End View.

(** [type(v) is var_type] *)
Definition type_is (v : Var) (t : VarType) : bool :=
  match var_type v, t with
  | DiscreteVariable, DiscreteVariable => true
  | ContinuousVariable, ContinuousVariable => true
  | TimeVariable, TimeVariable => true
  | StringVariable, StringVariable => true
  | _, _ => false
  end.

(** [var_type in self.model.HIDDEN_VAR_TYPES] *)
Definition is_hidden_type (t : VarType) : bool :=
  match t with
  | StringVariable | TimeVariable => true
  | DiscreteVariable | ContinuousVariable => false
  end.

(** ['%d' % n] for a count. *)
Definition decimal (n : nat) : string := int_text (Z.of_nat n).

(** [sep.join(l)] *)
Fixpoint join (sep : string) (l : list string) : string :=
  match l with
  | [] => ""
  | [s] => s
  | s :: l' => (s ++ sep ++ join sep l')%string
  end.

(** The list [agg] that the loop of [_format_variables_string] builds: for
    each of the four types that occurs, its description and its count. *)
Definition agg_of (variables : list Var) : list (string * nat) :=
  flat_map
    (fun entry : string * VarType =>
       let '(var_type_name, var_type) := entry in
       let var_type_list := filter (fun v => type_is v var_type) variables in
       match var_type_list with
       | [] => []
       | _ :: _ =>
           let shown := is_hidden_type var_type in
           [((decimal (length var_type_list) ++ " " ++ var_type_name
              ++ (if shown then " (not shown)" else ""))%string,
             length var_type_list)]
       end)
    [("categorical", DiscreteVariable); ("numeric", ContinuousVariable);
     ("time", TimeVariable); ("string", StringVariable)].

Section Info.
(** [Orange.canvas.report.plural], which is not part of the sources. *)
Variable plural : string -> nat -> string.

(** [OWFeatureStatistics._format_variables_string] *)
Definition _format_variables_string (variables : list Var) : string :=
  let agg := agg_of variables in
  match agg with
  | [] => "No variables"
  | _ :: _ =>
      let attrs := map fst agg in
      let counts := map snd agg in
      let var_string :=
        if 1 <? length attrs
        then (join ", " (removelast attrs) ++ " and " ++ last attrs "")%string
        else hd "" attrs in
      plural (var_string ++ " variable{s}")%string (list_sum counts)
  end.
End Info.

(* ================================================================== *)
(** ** The statistics column by column *)
(* ================================================================== *)

(** The value of one variable under a reducer that works column by column:
    the default when there is no reducer for its type. *)
Definition numeric_entry (g : option (list float64 -> result float64))
           (default : float64) (col : list Cell) : result float64 :=
  match g with
  | None => Ok default
  | Some g => c <- floats col ;; g c
  end.

(** One entry of a statistics vector, read off the variable and its
    column: the reducer is chosen by the type of the variable. *)
Definition entry_of (gd gc gt : option (list float64 -> result float64))
           (gs : option (list Cell -> float64)) (default : float64)
           (v : Var) (col : list Cell) : result float64 :=
  match var_type v with
  | DiscreteVariable => numeric_entry gd default col
  | ContinuousVariable => numeric_entry gc default col
  | TimeVariable => numeric_entry gt default col
  | StringVariable =>
      match gs with
      | Some g => Ok (g col)
      | None => Ok default
      end
  end.

(** A reducer on matrices and the function it applies to every column. *)
Definition columnwise (r : option Reducer)
           (g : option (list float64 -> result float64)) : Prop :=
  match r, g with
  | Some r, Some g => forall x, r x = mapM g x
  | None, None => True
  | _, _ => False
  end.

Definition columnwise_cells
           (r : option (list (list Cell) -> result (list float64)))
           (g : option (list Cell -> float64)) : Prop :=
  match r, g with
  | Some r, Some g => forall x, r x = Ok (map g x)
  | None, None => True
  | _, _ => False
  end.

(** The variables of a part of the domain that are shown, each with its
    column. *)
Definition visible (vars : list Var) (x : Matrix) : list (Var * list Cell) :=
  filter (fun vc => negb (is_hidden (fst vc))) (combine vars (columns x)).

(** The canonical variable ordering, each variable with its column:
    attributes, class variables, metas, without the hidden types. *)
Definition canonical (t : Table) : list (Var * list Cell) :=
  visible (attributes (domain t)) (X t)
  ++ visible (class_vars (domain t)) (Y t)
  ++ visible (metas (domain t)) (M t).

(** The shape of a table: one column per variable, every column with one
    cell per instance, the three matrices with the same number of rows. *)
Definition part_shape (rows : nat) (vars : list Var) (x : Matrix) : bool :=
  (n_rows x =? rows) && (length (columns x) =? length vars)
  && forallb (fun col => length col =? rows) (columns x).

Definition table_shape (t : Table) : bool :=
  part_shape (n_instances_of t) (attributes (domain t)) (X t)
  && part_shape (n_instances_of t) (class_vars (domain t)) (Y t)
  && part_shape (n_instances_of t) (metas (domain t)) (M t).

Definition is_ok {A : Type} (r : result A) : bool :=
  match r with Ok _ => true | Raise _ => false end.

(** A column the statistics can be computed of: its cells are numbers and,
    for a discrete variable, the numbers are category codes. *)
Definition column_ok (vc : Var * list Cell) : bool :=
  match floats (snd vc) with
  | Ok c => if isinstance (fst vc) DiscreteVariable then is_ok (bincount c) else true
  | Raise _ => false
  end.

Definition floats_of (col : list Cell) : list float64 :=
  match floats col with Ok c => c | Raise _ => [] end.

Definition value_of (r : result float64) : float64 :=
  match r with Ok v => v | Raise _ => NaN end.

(** [settled vars R default done res]: in the array [res] of one group the
    positions of the variables in [done] hold their entry of [R], the other
    positions still hold the default. *)
Definition settled (vars : list Var) (R : list float64) (default : float64)
           (done : Var -> bool) (res : list float64) : Prop :=
  length res = length vars
  /\ forall j, j < length vars ->
               nth j res NaN
               = if done (nth j vars no_var) then nth j R NaN else default.

(** The four tests of [_attr_indices]. *)
Definition is_disc (attr : Var) : bool := isinstance attr DiscreteVariable.
Definition is_cont (attr : Var) : bool :=
  isinstance attr ContinuousVariable && negb (isinstance attr TimeVariable).
Definition is_time (attr : Var) : bool := isinstance attr TimeVariable.
Definition is_string (attr : Var) : bool := isinstance attr StringVariable.

(** The three groups that [set_data] builds from a table. *)
Definition groups_of (t : Table) : list Group :=
  [__filter_attributes (attributes (domain t)) (X t);
   __filter_attributes (class_vars (domain t)) (Y t);
   __filter_attributes (metas (domain t)) (M t)].

(** The variables of a group, each with its column. *)
Definition group_columns (g : Group) : list (Var * list Cell) :=
  combine (fst g) (columns (snd g)).

(* ================================================================== *)
(** ** Vocabulary of the statements *)
(* ================================================================== *)

(** The sort key of a row is NaN; a string never is. *)
Definition key_isnan (data : ndarray) (i : nat) : bool :=
  match data with
  | FloatArray a => isnan (key_at a i)
  | StrArray _ => false
  end.

(** A sequence of [sort] calls, first call first. *)
Definition sort_all (m : Model) (calls : list (Columns * SortOrder)) : Model :=
  fold_left (fun m c => sort m (fst c) (snd c)) calls m.

(** Source row to display row and back. *)
Definition round_trip (m : Model) (r : nat) : result nat :=
  d <- mapFromSourceRows m r ;; mapToSourceRows m d.

(** What every [sort] call keeps: the raw columns and the row count stay,
    and the display order is either the source order or a permutation of
    the row numbers kept with its [argsort]. *)
Definition sorted_like (m0 m : Model) : Prop :=
  (forall c, sortColumnData m c = sortColumnData m0 c)
  /\ n_attributes m = n_attributes m0
  /\ ((sortInd m = None /\ sortIndInv m = None)
      \/ exists ind, sortInd m = Some ind
                     /\ sortIndInv m = Some (argsort_rows ind)
                     /\ Permutation ind (seq 0 (n_attributes m0))).

(** The five statistics of a shown variable, read off its column. *)
Section ColumnStatistics.
Context `{SciPy}.

Definition center_of (v : Var) (c : list float64) : float64 :=
  if isinstance v DiscreteVariable then ss_mode c else nanmean c.

Definition dispersion_of (v : Var) (c : list float64) : float64 :=
  if isinstance v DiscreteVariable then value_of (categorical_entropy_col c)
  else coefficient_of_variation c.

Definition min_of (v : Var) (c : list float64) : float64 := nanmin c.
Definition max_of (v : Var) (c : list float64) : float64 := nanmax c.
Definition missing_of (v : Var) (c : list float64) : float64 := countnans c.

(** A statistics vector as the list of the entries of the shown variables. *)
Definition vector_of (stat : Var -> list float64 -> float64) (t : Table)
  : list float64 :=
  map (fun vc => stat (fst vc) (floats_of (snd vc))) (canonical t).
End ColumnStatistics.

(* ================================================================== *)
(** ** Data of the test file *)
(* ================================================================== *)

Definition continuous_var (n : string) : Var :=
  {| name := n; var_type := ContinuousVariable; values := []; ordered := false |}.

Definition discrete_var (n : string) (vals : list string) (ord : bool) : Var :=
  {| name := n; var_type := DiscreteVariable; values := vals; ordered := ord |}.

Definition time_var (n : string) : Var :=
  {| name := n; var_type := TimeVariable; values := []; ordered := false |}.

Definition string_var (n : string) : Var :=
  {| name := n; var_type := StringVariable; values := []; ordered := false |}.

Definition num (z : Z) : Cell := Num (Fin (inject_Z z)).
Definition nan : Cell := Num NaN.

Definition continuous_full : Var * list Cell :=
  (continuous_var "continuous_full", [num 0; num 1; num 2; num 3; num 4]).
Definition continuous_missing : Var * list Cell :=
  (continuous_var "continuous_missing", [num 0; num 1; num 2; nan; num 4]).
Definition continuous_all_missing : Var * list Cell :=
  (continuous_var "continuous_all_missing", [nan; nan; nan; nan; nan]).
Definition continuous_same : Var * list Cell :=
  (continuous_var "continuous_same", [num 3; num 3; num 3; num 3; num 3]).

Definition rgb_full : Var * list Cell :=
  (discrete_var "rgb_full" ["r"; "g"; "b"] false,
   [num 0; num 1; num 1; num 1; num 2]).
Definition rgb_missing : Var * list Cell :=
  (discrete_var "rgb_missing" ["r"; "g"; "b"] false,
   [num 0; num 1; num 1; nan; num 2]).
Definition rgb_all_missing : Var * list Cell :=
  (discrete_var "rgb_all_missing" ["r"; "g"; "b"] false,
   [nan; nan; nan; nan; nan]).
Definition ints_full : Var * list Cell :=
  (discrete_var "ints_full" ["2"; "3"; "4"] true,
   [num 0; num 1; num 1; num 1; num 2]).
Definition ints_missing : Var * list Cell :=
  (discrete_var "ints_missing" ["2"; "3"; "4"] true,
   [num 0; num 1; num 1; nan; num 2]).
Definition time_full : Var * list Cell :=
  (time_var "time_full", [num 0; num 1; num 2; num 3; num 4]).
Definition string_missing : Var * list Cell :=
  (string_var "string_missing", [Str "a"; Str "b"; Str "c"; Str ""; Str "e"]).

(** [make_table] of the test file, for [rows] instances. *)
Definition make_table (rows : nat) (attributes target metas : list (Var * list Cell))
  : Table :=
  {| domain := {| attributes := map fst attributes;
                  class_vars := map fst target;
                  metas := map fst metas |};
     X := {| n_rows := rows; columns := map snd attributes |};
     Y := {| n_rows := rows; columns := map snd target |};
     M := {| n_rows := rows; columns := map snd metas |};
     table_name := "untitled" |}.

(** A stand-in for SciPy to run the definitions with: the mode by counting
    (the smallest of the most frequent values, zero when every entry is
    NaN) and the first-order logarithm [q - 1]. *)
Definition count_of (col : list float64) (x : float64) : nat :=
  length (filter (feqb x) col).

Definition counting_mode (col : list float64) : float64 :=
  fst (fold_left
         (fun best x =>
            let c := count_of col x in
            if (snd best <? c) || ((snd best =? c) && (0 <? c) && fltb x (fst best))
            then (x, c) else best)
         col (fzero, 0)).

#[local] Instance example_scipy : SciPy :=
  {| ss_mode := counting_mode; ln := fun q => Qminus q (1 # 1) |}.

Definition model_of (t : Table) : Model :=
  match model_set_data initial_model (Some t) with
  | Ok m => m
  | Raise _ => initial_model
  end.

(** The table of the output tests, with two more attributes. *)
Definition example_table : Table :=
  make_table 5
    [continuous_full; continuous_missing; continuous_all_missing; continuous_same]
    [rgb_full; rgb_missing] [ints_full; ints_missing].

Definition example_model : Model := model_of example_table.

(** A check of [before] by computation: behind the first [a] there is a [b]. *)
Fixpoint beforeb (l : list nat) (a b : nat) : bool :=
  match l with
  | [] => false
  | x :: l' => if x =? a then existsb (Nat.eqb b) l' else beforeb l' a b
  end.

(** A table whose first attribute is a time variable, which the model
    hides, followed by a numeric attribute. *)
Definition hidden_first_table : Table :=
  make_table 5 [time_full; continuous_full] [] [].

(** A second table, over another domain. *)
Definition other_table : Table := make_table 5 [rgb_full; rgb_missing] [] [].

(** The run of [test_restores_previous_selection]: data, a selection of two
    rows, other data, the first data again. *)
Definition first_data_selected : result Widget :=
  w <- set_data initial_widget (Some example_table) ;; on_select w [0; 2].

Definition second_data_sent : result Widget :=
  w <- first_data_selected ;; set_data w (Some other_table).

Definition first_data_again : result Widget :=
  w <- second_data_sent ;; set_data w (Some example_table).

(** The widget a run ends in. *)
Definition state_of (r : result Widget) : Widget :=
  match r with
  | Ok w => w
  | Raise _ => initial_widget
  end.

(** A table with one numeric attribute and no instance. *)
Definition no_rows_table : Table :=
  make_table 0 [(continuous_var "continuous_full", [])] [] [].

(** A table whose only attribute is a categorical column without values. *)
Definition all_missing_categorical_table : Table :=
  make_table 5 [rgb_all_missing] [] [].

(** A table whose only attribute is the constant column of the tests. *)
Definition constant_table : Table := make_table 5 [continuous_same] [] [].

(** The missing sentinel of the numeric and categorical columns. *)
Definition cell_is_nan (c : Cell) : bool :=
  match c with
  | Num NaN => true
  | _ => false
  end.

(** Two numeric attributes whose names differ in the case of a letter. *)
Definition mixed_case_table : Table :=
  make_table 5
    [(continuous_var "Age", [num 0; num 1; num 2; num 3; num 4]);
     (continuous_var "age", [num 4; num 3; num 2; num 1; num 0])] [] [].

(** A stand-in for Orange and the locale to run the cells with: the
    category of a code and '?' for NaN; two decimals, cut off, without
    grouping. *)
Definition example_str_val (v : Var) (x : float64) : result string :=
  match x with
  | NaN => Ok "?"
  | Fin q =>
      match nth_error (values v)
                      (Z.to_nat (Z.quot (Qnum q) (Z.pos (Qden q)))) with
      | Some s => Ok s
      | None => Raise IndexError
      end
  | PInf | NInf => Raise ValueError
  end.

Definition example_locale_format (q : Q) : string :=
  let cents := Z.quot (Qnum q * 100) (Z.pos (Qden q)) in
  let whole := Z.abs cents in
  ((if (cents <? 0)%Z then "-" else "")
   ++ int_text (whole / 100) ++ "."
   ++ int_text ((whole mod 100) / 10) ++ int_text (whole mod 10))%string.

#[local] Instance example_rendering : Rendering :=
  {| str_val := example_str_val; locale_format := example_locale_format |}.

(** The index of a cell. *)
Definition cell (r : nat) (c : Columns) : QModelIndex :=
  {| row := Z.of_nat r; column := column_index c |}.



(* ================================================================== *)
(** * Properties *)
(* ================================================================== *)

Example argsort_example :
  np_argsort (FloatArray [Fin (3#1); NaN; Fin (1#1); Fin (3#1); NaN; Fin (2#1)])
  = [2; 5; 0; 3; 1; 4].
Proof. reflexivity. Qed.

Example argsortData_desc_example :
  _argsortData (FloatArray [Fin (3#1); NaN; Fin (1#1); Fin (3#1); NaN; Fin (2#1)])
               DescendingOrder
  = [3; 0; 5; 2; 4; 1].
Proof. reflexivity. Qed.

(* ------------------------------------------------------------------ *)
(** ** The stable sort of indices *)
(* ------------------------------------------------------------------ *)

Section ArgsortFacts.
Variable lt : nat -> nat -> bool.

Lemma insert_perm i l : Permutation (insert lt i l) (i :: l).
Proof.
  induction l as [|j l IH]; simpl.
  - apply Permutation_refl.
  - destruct (lt j i).
    + eapply perm_trans; [apply perm_skip, IH | apply perm_swap].
    + apply Permutation_refl.
Qed.

Lemma sort_perm l : Permutation (fold_right (insert lt) [] l) l.
Proof.
  induction l as [|a l IH]; simpl.
  - apply perm_nil.
  - eapply perm_trans; [apply insert_perm | apply perm_skip, IH].
Qed.

Lemma stable_argsort_perm n : Permutation (stable_argsort lt n) (seq 0 n).
Proof. apply sort_perm. Qed.

Lemma stable_argsort_length n : length (stable_argsort lt n) = n.
Proof.
  rewrite (Permutation_length (stable_argsort_perm n)). apply length_seq.
Qed.

Lemma before_cons l a b c : before l a b -> before (c :: l) a b.
Proof.
  intros (l1 & l2 & l3 & ->). exists (c :: l1), l2, l3. reflexivity.
Qed.

Lemma before_head l a b : In b l -> before (a :: l) a b.
Proof.
  intros H. apply in_split in H as (l2 & l3 & ->).
  exists [], l2, l3. reflexivity.
Qed.

Lemma before_inv c l a b :
  before (c :: l) a b -> (a = c /\ In b l) \/ before l a b.
Proof.
  intros (l1 & l2 & l3 & E). destruct l1 as [|x l1]; simpl in E.
  - injection E as -> ->. left. split; [reflexivity|].
    apply in_or_app. right. left. reflexivity.
  - injection E as -> ->. right. exists l1, l2, l3. reflexivity.
Qed.

(** Insertion keeps the order of the entries that were there. *)
Lemma before_insert_old i l a b :
  before l a b -> before (insert lt i l) a b.
Proof.
  induction l as [|j l IH]; intros H.
  - destruct H as (l1 & l2 & l3 & E). destruct l1; discriminate.
  - simpl. destruct (lt j i).
    + apply before_inv in H as [[-> Hb] | H].
      * apply before_head.
        apply (Permutation_in _ (Permutation_sym (insert_perm i l))).
        right. exact Hb.
      * apply before_cons, IH, H.
    + apply before_cons, H.
Qed.

(** The inserted index lands in front of every entry that is not
    strictly smaller. *)
Lemma before_insert_new i l b :
  In b l -> lt b i = false -> before (insert lt i l) i b.
Proof.
  induction l as [|j l IH]; intros Hin Hlt; [destruct Hin|].
  simpl. destruct (lt j i) eqn:E.
  - destruct Hin as [-> | Hin]; [congruence|].
    apply before_cons, IH; assumption.
  - apply before_head. exact Hin.
Qed.

(** Stability: two entries of the input of which the later one is not
    strictly smaller keep their order. *)
Lemma sort_stable l a b :
  before l a b -> lt b a = false ->
  before (fold_right (insert lt) [] l) a b.
Proof.
  induction l as [|c l IH]; intros H Hlt.
  - destruct H as (l1 & l2 & l3 & E). destruct l1; discriminate.
  - simpl. apply before_inv in H as [[-> Hb] | H].
    + apply before_insert_new; [|exact Hlt].
      apply (Permutation_in _ (Permutation_sym (sort_perm l))). exact Hb.
    + apply before_insert_old, IH; assumption.
Qed.

Lemma before_seq s n i j : s <= i -> i < j -> j < s + n -> before (seq s n) i j.
Proof.
  revert s. induction n as [|n IH]; intros s Hi Hij Hj; [lia|].
  simpl. destruct (Nat.eq_dec s i) as [-> | Hne].
  - apply before_head. apply in_seq. lia.
  - apply before_cons, IH; lia.
Qed.

Lemma stable_argsort_stable n i j :
  i < j -> j < n -> lt j i = false -> before (stable_argsort lt n) i j.
Proof.
  intros Hij Hj Hlt. apply sort_stable; [|exact Hlt].
  apply before_seq; lia.
Qed.
End ArgsortFacts.

(* ------------------------------------------------------------------ *)
(** ** Entries that sort last *)
(* ------------------------------------------------------------------ *)

Section LateLast.
Variable lt : nat -> nat -> bool.
Variable late : nat -> bool.
Hypothesis lt_early_late :
  forall a b, late a = false -> late b = true -> lt a b = true.
Hypothesis lt_late : forall a b, late a = true -> lt a b = false.

Lemma late_tail_insert i l :
  late_tail late l = true -> late_tail late (insert lt i l) = true.
Proof.
  induction l as [|j l IH]; intros H.
  - simpl. destruct (late i); reflexivity.
  - simpl. destruct (lt j i) eqn:E.
    + assert (Hj : late j = false).
      { destruct (late j) eqn:Lj; [|reflexivity].
        rewrite (lt_late j i Lj) in E. discriminate. }
      simpl in *. rewrite Hj in *. apply IH, H.
    + simpl in *. destruct (late i) eqn:Li; [|exact H].
      assert (Hj : late j = true).
      { destruct (late j) eqn:Lj; [reflexivity|].
        rewrite (lt_early_late j i Lj Li) in E. discriminate. }
      rewrite Hj in *. simpl. exact H.
Qed.

Lemma late_tail_sort l : late_tail late (fold_right (insert lt) [] l) = true.
Proof.
  induction l as [|a l IH]; simpl; [reflexivity|].
  apply late_tail_insert, IH.
Qed.
End LateLast.

Section LateTail.
Variable late : nat -> bool.
Let early (i : nat) : bool := negb (late i).

Lemma filter_all (f : nat -> bool) l : forallb f l = true -> filter f l = l.
Proof.
  induction l as [|a l IH]; simpl; [reflexivity|].
  intros H. apply andb_true_iff in H as [Ha Hl]. rewrite Ha, IH; auto.
Qed.

Lemma filter_none (f : nat -> bool) l :
  forallb f l = true -> filter (fun i => negb (f i)) l = [].
Proof.
  induction l as [|a l IH]; simpl; [reflexivity|].
  intros H. apply andb_true_iff in H as [Ha Hl]. rewrite Ha. simpl. auto.
Qed.

Lemma late_tail_split l :
  late_tail late l = true -> l = filter early l ++ filter late l.
Proof.
  unfold early. induction l as [|a l IH]; simpl; [reflexivity|].
  destruct (late a) eqn:La; simpl; intros H.
  - rewrite (filter_none late l H), (filter_all late l H). reflexivity.
  - f_equal. apply IH, H.
Qed.

Lemma late_tail_app l1 l2 :
  forallb early l1 = true -> forallb late l2 = true ->
  late_tail late (l1 ++ l2) = true.
Proof.
  unfold early. induction l1 as [|a l1 IH]; simpl; intros H1 H2.
  - destruct l2 as [|b l2]; simpl in *; [reflexivity|].
    apply andb_true_iff in H2 as [Hb H2]. rewrite Hb. exact H2.
  - apply andb_true_iff in H1 as [Ha H1].
    apply negb_true_iff in Ha. rewrite Ha. auto.
Qed.

Lemma forallb_nth (f : nat -> bool) l q d :
  forallb f l = true -> q < length l -> f (nth q l d) = true.
Proof.
  intros H Hq. rewrite forallb_forall in H. apply H, nth_In, Hq.
Qed.

(** Read by positions: behind a late entry there are only late entries. *)
Lemma late_tail_nth l p q d :
  late_tail late l = true -> p < q -> q < length l ->
  late (nth p l d) = true -> late (nth q l d) = true.
Proof.
  revert p q. induction l as [|a l IH]; intros p q H Hpq Hq Hp.
  - simpl in Hq. lia.
  - destruct q as [|q]; [lia|]. simpl in Hq. simpl.
    destruct p as [|p]; simpl in *.
    + rewrite Hp in H. apply forallb_nth; [exact H | lia].
    + destruct (late a).
      * apply forallb_nth; [exact H | lia].
      * apply (IH p q); [exact H | lia | lia | exact Hp].
Qed.

Lemma forallb_filter_id (f : nat -> bool) l : forallb f (filter f l) = true.
Proof.
  apply forallb_forall. intros x Hx. apply filter_In in Hx. tauto.
Qed.

Lemma np_roll_eq (a : list nat) (shift : Z) :
  np_roll a shift
  = skipn (Z.to_nat ((- shift) mod Z.of_nat (length a))) a
    ++ firstn (Z.to_nat ((- shift) mod Z.of_nat (length a))) a.
Proof.
  destruct a as [|x a]; [|reflexivity].
  simpl. rewrite skipn_nil, firstn_nil. reflexivity.
Qed.

(** Reversing and rolling by the number of late entries reverses the two
    blocks in place: the late block stays at the tail. *)
Lemma roll_rev_late l :
  late_tail late l = true ->
  np_roll (rev l) (- Z.of_nat (length (filter late l)))
  = rev (filter early l) ++ rev (filter late l).
Proof.
  intros H. pose proof (late_tail_split l H) as E.
  set (lE := filter early l) in *. set (lL := filter late l) in *.
  assert (Hrev : rev l = rev lL ++ rev lE) by (rewrite E at 1; apply rev_app_distr).
  assert (Hlen : length (rev l) = length lE + length lL).
  { rewrite length_rev, E at 1. apply length_app. }
  rewrite np_roll_eq, Z.opp_involutive.
  destruct lE as [|e lE'] eqn:EE.
  - simpl in Hlen. rewrite Hlen.
    destruct lL as [|y lL'] eqn:EL.
    + simpl in Hrev. rewrite Hrev. reflexivity.
    + rewrite Z.mod_same by (simpl; lia).
      change (Z.to_nat 0) with 0. rewrite skipn_O, firstn_O, app_nil_r, Hrev.
      simpl. apply app_nil_r.
  - rewrite Z.mod_small by (rewrite Hlen; simpl; lia).
    rewrite Nat2Z.id, Hrev.
    rewrite <- (length_rev lL).
    rewrite skipn_app, firstn_app, Nat.sub_diag, skipn_all, firstn_all.
    simpl. rewrite app_nil_r. reflexivity.
Qed.
End LateTail.

(* ------------------------------------------------------------------ *)
(** ** [_argsortData] on float64 keys *)
(* ------------------------------------------------------------------ *)

Lemma Permutation_filter (f : nat -> bool) l l' :
  Permutation l l' -> Permutation (filter f l) (filter f l').
Proof.
  induction 1 as [|x l l' _ IH|x y l|l l' l'' _ IH1 _ IH2]; simpl.
  - apply perm_nil.
  - destruct (f x); [apply perm_skip|]; exact IH.
  - destruct (f x), (f y); try apply Permutation_refl. apply perm_swap.
  - eapply perm_trans; eassumption.
Qed.

Lemma filter_seq_nth (f : float64 -> bool) (a : list float64) :
  length (filter (fun i => f (nth i a NaN)) (seq 0 (length a)))
  = length (filter f a).
Proof.
  induction a as [|x a IH] using rev_ind; [reflexivity|].
  rewrite length_app, Nat.add_1_r, seq_S, !filter_app, !length_app. simpl.
  rewrite nth_middle. f_equal.
  - rewrite <- IH. f_equal. apply filter_ext_in.
    intros i Hi. apply in_seq in Hi. rewrite app_nth1 by lia. reflexivity.
  - destruct (f x); reflexivity.
Qed.

Lemma np_lt_not_nan_nan x y : isnan x = false -> isnan y = true -> np_lt x y = true.
Proof.
  intros Hx Hy. unfold np_lt. rewrite Hx, Hy. apply orb_true_r.
Qed.

Lemma np_lt_nan x y : isnan x = true -> np_lt x y = false.
Proof.
  intros Hx. destruct x; try discriminate. unfold np_lt. simpl.
  apply andb_false_r.
Qed.

Lemma np_argsort_perm data : Permutation (np_argsort data) (seq 0 (size data)).
Proof. apply stable_argsort_perm. Qed.

Lemma np_argsort_late_tail a :
  late_tail (fun i => isnan (key_at a i)) (np_argsort (FloatArray a)) = true.
Proof.
  apply late_tail_sort; intros x y; unfold key_at; simpl.
  - apply np_lt_not_nan_nan.
  - apply np_lt_nan.
Qed.

Lemma np_argsort_isnan_sum a :
  length (filter (fun i => isnan (key_at a i)) (np_argsort (FloatArray a)))
  = isnan_sum (FloatArray a).
Proof.
  rewrite (Permutation_length
             (Permutation_filter _ _ _ (np_argsort_perm (FloatArray a)))).
  apply (filter_seq_nth isnan).
Qed.

(** A descending sort of floats is the ascending one with each of its two
    blocks reversed: the block without NaN first, the NaN block behind it. *)
Lemma argsortData_desc_float a :
  _argsortData (FloatArray a) DescendingOrder
  = rev (filter (fun i => negb (isnan (key_at a i))) (np_argsort (FloatArray a)))
    ++ rev (filter (fun i => isnan (key_at a i)) (np_argsort (FloatArray a))).
Proof.
  unfold _argsortData. cbn [is_number_dtype].
  rewrite <- np_argsort_isnan_sum.
  apply roll_rev_late, np_argsort_late_tail.
Qed.

Lemma forallb_rev (f : nat -> bool) l : forallb f l = true -> forallb f (rev l) = true.
Proof.
  rewrite !forallb_forall. intros H x Hx. apply H, in_rev, Hx.
Qed.

Lemma argsortData_late_tail a order :
  late_tail (fun i => isnan (key_at a i)) (_argsortData (FloatArray a) order) = true.
Proof.
  destruct order.
  - apply np_argsort_late_tail.
  - rewrite argsortData_desc_float. apply late_tail_app.
    + apply forallb_rev, (forallb_filter_id (fun i => negb (isnan (key_at a i)))).
    + apply forallb_rev, (forallb_filter_id (fun i => isnan (key_at a i))).
Qed.

Lemma np_roll_perm (a : list nat) shift : Permutation (np_roll a shift) a.
Proof.
  rewrite np_roll_eq.
  eapply perm_trans; [apply Permutation_app_comm|].
  rewrite firstn_skipn. apply Permutation_refl.
Qed.

(** The sort permutation is a permutation of the row numbers. *)
Lemma argsortData_perm data order :
  Permutation (_argsortData data order) (seq 0 (size data)).
Proof.
  unfold _argsortData. destruct order.
  - apply np_argsort_perm.
  - destruct (is_number_dtype data).
    + eapply perm_trans; [apply np_roll_perm|].
      eapply perm_trans; [apply Permutation_sym, Permutation_rev|].
      apply np_argsort_perm.
    + eapply perm_trans; [apply Permutation_sym, Permutation_rev|].
      apply np_argsort_perm.
Qed.

Lemma argsortData_length data order : length (_argsortData data order) = size data.
Proof.
  rewrite (Permutation_length (argsortData_perm data order)). apply length_seq.
Qed.

(* ------------------------------------------------------------------ *)
(** ** NaN rows, ties and the two row mappings *)
(* ------------------------------------------------------------------ *)

Lemma key_isnan_late_tail data order :
  late_tail (key_isnan data) (_argsortData data order) = true.
Proof.
  destruct data as [a|a].
  - apply argsortData_late_tail.
  - simpl. generalize (_argsortData (StrArray a) order).
    induction l as [|x l IH]; simpl; auto.
Qed.

(** C1. For every column, so for each of the five statistic columns, and
    for both directions: in the order that [_argsortData] returns, a row
    whose sort key is NaN stands behind every row whose sort key is not. *)
Theorem nan_rows_sort_last (m : Model) (c : Columns) (order : SortOrder)
        (p q : nat) :
  p < size (sortColumnData m c) ->
  q < size (sortColumnData m c) ->
  key_isnan (sortColumnData m c)
            (nth p (_argsortData (sortColumnData m c) order) 0) = true ->
  key_isnan (sortColumnData m c)
            (nth q (_argsortData (sortColumnData m c) order) 0) = false ->
  q < p.
Proof.
  intros Hp Hq Np Nq.
  destruct (Nat.lt_trichotomy q p) as [H | [H | H]]; [exact H | | ].
  - subst q. rewrite Np in Nq. discriminate.
  - exfalso.
    pose proof (late_tail_nth (key_isnan (sortColumnData m c))
                  (_argsortData (sortColumnData m c) order) p q 0
                  (key_isnan_late_tail _ _) H) as L.
    rewrite argsortData_length in L. rewrite (L Hq Np) in Nq. discriminate.
Qed.

Lemma before_rev l a b : before l a b -> before (rev l) b a.
Proof.
  intros (l1 & l2 & l3 & ->). exists (rev l3), (rev l2), (rev l1).
  rewrite rev_app_distr. simpl. rewrite rev_app_distr. simpl.
  rewrite <- !app_assoc. reflexivity.
Qed.

Lemma before_filter (f : nat -> bool) l a b :
  before l a b -> f a = true -> f b = true -> before (filter f l) a b.
Proof.
  intros (l1 & l2 & l3 & ->) Ha Hb.
  exists (filter f l1), (filter f l2), (filter f l3).
  rewrite filter_app. simpl. rewrite Ha, filter_app. simpl. rewrite Hb.
  reflexivity.
Qed.

Lemma before_app_l l l' a b : before l a b -> before (l ++ l') a b.
Proof.
  intros (l1 & l2 & l3 & ->). exists l1, l2, (l3 ++ l').
  rewrite <- !app_assoc. simpl. rewrite <- app_assoc. reflexivity.
Qed.

Lemma before_app_r l l' a b : before l' a b -> before (l ++ l') a b.
Proof.
  intros (l1 & l2 & l3 & ->). exists (l ++ l1), l2, l3.
  rewrite <- app_assoc. reflexivity.
Qed.

Lemma np_argsort_stable data i j :
  i < j -> j < size data -> key_lt data j i = false ->
  before (np_argsort data) i j.
Proof. apply stable_argsort_stable. Qed.

Lemma tie_float_isnan a i j :
  tie (FloatArray a) i j = true -> isnan (key_at a i) = isnan (key_at a j).
Proof.
  unfold tie, key_at. simpl. intros T.
  apply andb_true_iff in T as [T1 T2].
  apply negb_true_iff in T1, T2.
  destruct (isnan (nth i a NaN)) eqn:Ni, (isnan (nth j a NaN)) eqn:Nj;
    try reflexivity.
  - rewrite (np_lt_not_nan_nan _ _ Nj Ni) in T2. discriminate.
  - rewrite (np_lt_not_nan_nan _ _ Ni Nj) in T1. discriminate.
Qed.

(** C2, as the code has it.  For every column: two rows that tie on the sort
    key keep their source order in an ascending sort and come out in the
    opposite order in a descending sort. *)
Theorem ties_keep_order_ascending_reverse_descending
        (m : Model) (c : Columns) (i j : nat) :
  i < j -> j < size (sortColumnData m c) ->
  tie (sortColumnData m c) i j = true ->
  before (_argsortData (sortColumnData m c) AscendingOrder) i j
  /\ before (_argsortData (sortColumnData m c) DescendingOrder) j i.
Proof.
  generalize (sortColumnData m c). intros data.
  intros Hij Hj T.
  assert (Hlt : key_lt data j i = false).
  { unfold tie in T. apply andb_true_iff in T as [_ T].
    apply negb_true_iff in T. exact T. }
  pose proof (np_argsort_stable data i j Hij Hj Hlt) as B.
  split; [exact B|].
  destruct data as [a|a].
  - rewrite argsortData_desc_float.
    pose proof (tie_float_isnan a i j T) as E.
    destruct (isnan (key_at a i)) eqn:Ni.
    + apply before_app_r, before_rev.
      apply (before_filter (fun i => isnan (key_at a i))); auto.
    + apply before_app_l, before_rev.
      apply (before_filter (fun i => negb (isnan (key_at a i)))); auto.
      * rewrite Ni. reflexivity.
      * rewrite <- E. reflexivity.
  - simpl. apply before_rev, B.
Qed.

(* ------------------------------------------------------------------ *)
(** ** The inverse permutation *)
(* ------------------------------------------------------------------ *)

Lemma sorted_perm_eq (l1 l2 : list nat) :
  StronglySorted le l1 -> StronglySorted le l2 -> Permutation l1 l2 -> l1 = l2.
Proof.
  revert l2. induction l1 as [|a l1 IH]; intros l2 S1 S2 P.
  - apply Permutation_nil in P. subst. reflexivity.
  - destruct l2 as [|b l2].
    + apply Permutation_sym, Permutation_nil in P. discriminate.
    + inversion S1 as [|? ? S1' F1]; subst.
      inversion S2 as [|? ? S2' F2]; subst.
      assert (a = b).
      { assert (Ha : In a (b :: l2))
          by (apply (Permutation_in _ P); left; reflexivity).
        assert (Hb : In b (a :: l1))
          by (apply (Permutation_in _ (Permutation_sym P)); left; reflexivity).
        rewrite Forall_forall in F1, F2.
        destruct Ha as [Ha | Ha]; [congruence|].
        destruct Hb as [Hb | Hb]; [congruence|].
        specialize (F1 _ Hb). specialize (F2 _ Ha). lia. }
      subst b. f_equal. apply IH; auto.
      eapply Permutation_cons_inv, P.
Qed.

Lemma seq_sorted s n : StronglySorted le (seq s n).
Proof.
  revert s. induction n as [|n IH]; intros s; simpl; constructor.
  - apply IH.
  - apply Forall_forall. intros x Hx. apply in_seq in Hx. lia.
Qed.

Section SortedByKey.
Variable key : nat -> nat.
Let lt (i j : nat) : bool := key i <? key j.

Lemma insert_sorted i l :
  StronglySorted le (map key l) ->
  StronglySorted le (map key (insert lt i l)).
Proof.
  induction l as [|j l IH]; intros S; simpl.
  - constructor; constructor.
  - inversion S as [|? ? S' F]; subst. unfold lt at 1.
    destruct (key j <? key i) eqn:E.
    + apply Nat.ltb_lt in E. simpl. constructor; [apply IH, S'|].
      apply Forall_forall. intros x Hx. apply in_map_iff in Hx as (y & <- & Hy).
      apply (Permutation_in _ (insert_perm lt i l)) in Hy.
      destruct Hy as [-> | Hy]; [lia|].
      rewrite Forall_forall in F. apply F, in_map, Hy.
    + apply Nat.ltb_ge in E. simpl. constructor; [exact S|].
      constructor; [exact E|].
      eapply Forall_impl; [|exact F]. simpl. intros; lia.
Qed.

Lemma sort_sorted l : StronglySorted le (map key (fold_right (insert lt) [] l)).
Proof.
  induction l as [|a l IH]; simpl; [constructor|].
  apply insert_sorted, IH.
Qed.
End SortedByKey.

Lemma map_nth_seq (ind : list nat) :
  map (fun i => nth i ind 0) (seq 0 (length ind)) = ind.
Proof.
  induction ind as [|x ind IH] using rev_ind; [reflexivity|].
  rewrite length_app, Nat.add_1_r, seq_S, map_app. simpl.
  rewrite nth_middle. f_equal.
  rewrite <- IH at 2. apply map_ext_in.
  intros i Hi. apply in_seq in Hi. rewrite app_nth1 by lia. reflexivity.
Qed.

(** Reading a permutation of the row numbers through its [argsort] gives
    the row numbers in order: [argsort] is the inverse permutation. *)
Lemma argsort_rows_inverse (ind : list nat) :
  Permutation ind (seq 0 (length ind)) ->
  map (fun i => nth i ind 0) (argsort_rows ind) = seq 0 (length ind).
Proof.
  intros P. apply sorted_perm_eq.
  - apply (sort_sorted (fun i => nth i ind 0)).
  - apply seq_sorted.
  - eapply perm_trans; [|exact P].
    eapply perm_trans;
      [apply Permutation_map, stable_argsort_perm|].
    rewrite map_nth_seq. apply Permutation_refl.
Qed.

Lemma argsort_rows_length ind : length (argsort_rows ind) = length ind.
Proof. apply stable_argsort_length. Qed.

Lemma round_trip_sorted (m : Model) (ind : list nat) (r : nat) :
  sortInd m = Some ind -> sortIndInv m = Some (argsort_rows ind) ->
  Permutation ind (seq 0 (length ind)) -> r < length ind ->
  round_trip m r = Ok r.
Proof.
  intros Hi Hv P Hr. unfold round_trip, mapFromSourceRows, mapToSourceRows.
  rewrite Hv, Hi.
  pose proof (argsort_rows_inverse ind P) as E.
  assert (Hd : r < length (argsort_rows ind))
    by (rewrite argsort_rows_length; exact Hr).
  rewrite (nth_error_nth' _ 0 Hd). simpl.
  assert (Hin : nth r (argsort_rows ind) 0 < length ind).
  { assert (In (nth r (argsort_rows ind) 0) (seq 0 (length ind))).
    { unfold argsort_rows in *.
      eapply Permutation_in; [apply stable_argsort_perm|].
      apply nth_In, Hd. }
    apply in_seq in H. lia. }
  rewrite (nth_error_nth' _ 0 Hin). f_equal.
  assert (N : nth r (map (fun i => nth i ind 0) (argsort_rows ind)) 0
              = nth r (seq 0 (length ind)) 0) by (rewrite E; reflexivity).
  rewrite seq_nth in N by exact Hr. simpl in N.
  transitivity (nth r (map (fun i => nth i ind 0) (argsort_rows ind)) 0);
    [|exact N].
  rewrite (nth_indep (map (fun i => nth i ind 0) (argsort_rows ind))
                     0 (nth 0 ind 0)) by (rewrite length_map; exact Hd).
  symmetry. apply (map_nth (fun i => nth i ind 0)).
Qed.

Lemma sorted_like_reset m : sorted_like m (resetSorting m).
Proof.
  split; [|split].
  - intros c. destruct c; reflexivity.
  - reflexivity.
  - left. split; reflexivity.
Qed.

Lemma sorted_like_sort m0 m c order :
  (forall c, size (sortColumnData m0 c) = n_attributes m0) ->
  sorted_like m0 m -> sorted_like m0 (sort m c order).
Proof.
  intros A (Hc & Hn & _). split; [|split].
  - intros c'. rewrite <- Hc. destruct c'; reflexivity.
  - exact Hn.
  - right. eexists. split; [reflexivity|]. split; [reflexivity|].
    rewrite Hc, <- (A c). apply argsortData_perm.
Qed.

Lemma sorted_like_sort_all m0 calls :
  (forall c, size (sortColumnData m0 c) = n_attributes m0) ->
  forall m, sorted_like m0 m -> sorted_like m0 (sort_all m calls).
Proof.
  intros A. induction calls as [|[c o] calls IH]; intros m S; simpl.
  - exact S.
  - apply IH, sorted_like_sort; assumption.
Qed.

(** The round trip where it holds.  In a model whose sort columns hold one
    entry per row, before any sort and after any sequence of [sort] calls: a
    source row below [n_attributes] mapped to its display row and back is
    the same row, and the display order is a permutation of the row numbers
    [0 .. n_attributes - 1]. *)
Theorem source_display_round_trip
        (m : Model) (calls : list (Columns * SortOrder)) (r : nat) :
  (forall c, size (sortColumnData m c) = n_attributes m) ->
  r < n_attributes m ->
  round_trip (sort_all (resetSorting m) calls) r = Ok r
  /\ match sortInd (sort_all (resetSorting m) calls) with
     | Some ind => Permutation ind (seq 0 (n_attributes m))
     | None => True
     end.
Proof.
  intros A Hr.
  destruct (sorted_like_sort_all m calls A _ (sorted_like_reset m))
    as (_ & _ & [[Hi Hv] | (ind & Hi & Hv & P)]).
  - split; [|rewrite Hi; exact I].
    unfold round_trip, mapFromSourceRows, mapToSourceRows.
    rewrite Hv, Hi. reflexivity.
  - split; [|rewrite Hi; exact P].
    assert (L : length ind = n_attributes m).
    { rewrite (Permutation_length P). apply length_seq. }
    apply (round_trip_sorted _ ind); auto; rewrite L; assumption.
Qed.

(* ------------------------------------------------------------------ *)
(** ** The sorting claims on concrete data *)
(* ------------------------------------------------------------------ *)

Lemma before_beforeb l a b : before l a b -> beforeb l a b = true.
Proof.
  intros (l1 & l2 & l3 & ->).
  assert (Hb : forall l0, existsb (Nat.eqb b) (l0 ++ b :: l3) = true).
  { intros l0. apply existsb_exists. exists b. split.
    - apply in_or_app. right. left. reflexivity.
    - apply Nat.eqb_refl. }
  induction l1 as [|x l1 IH]; simpl.
  - rewrite Nat.eqb_refl. apply Hb.
  - destruct (x =? a); [|exact IH].
    change (l1 ++ a :: l2 ++ b :: l3) with (l1 ++ (a :: l2) ++ b :: l3).
    rewrite app_assoc. apply Hb.
Qed.

Lemma nan_rows_sort_last_witness : 0 < 7.
Proof.
  apply (nan_rows_sort_last example_model CENTER DescendingOrder 7 0).
  - vm_compute. lia.
  - vm_compute. lia.
  - vm_compute. reflexivity.
  - vm_compute. reflexivity.
Defined.

(** Counterexample to C2 as stated: in a descending sort of [[1.0, 1.0]]
    row 1 is displayed in front of row 0 although the two rows tie. *)
Lemma descending_sort_reverses_ties :
  ~ (forall (data : ndarray) (order : SortOrder) (i j : nat),
        i < j -> j < size data -> tie data i j = true ->
        before (_argsortData data order) i j).
Proof.
  intros C.
  specialize (C (FloatArray [Fin (1 # 1); Fin (1 # 1)]) DescendingOrder 0 1).
  apply before_beforeb in C; [discriminate | lia | simpl; lia | reflexivity].
Qed.

Lemma ties_keep_order_witness :
  before (_argsortData (sortColumnData example_model CENTER) AscendingOrder) 4 5
  /\ before (_argsortData (sortColumnData example_model CENTER) DescendingOrder) 5 4.
Proof.
  apply (ties_keep_order_ascending_reverse_descending example_model CENTER 4 5).
  - lia.
  - vm_compute. lia.
  - vm_compute. reflexivity.
Defined.

Lemma source_display_round_trip_witness :
  round_trip (sort_all (resetSorting example_model)
                       [(CENTER, DescendingOrder); (NAME, AscendingOrder)]) 2
  = Ok 2
  /\ match sortInd (sort_all (resetSorting example_model)
                             [(CENTER, DescendingOrder); (NAME, AscendingOrder)])
     with
     | Some ind => Permutation ind (seq 0 (n_attributes example_model))
     | None => True
     end.
Proof.
  apply (source_display_round_trip example_model).
  - intros c. destruct c; vm_compute; reflexivity.
  - vm_compute. lia.
Defined.

(* ------------------------------------------------------------------ *)
(** ** [get_statistics_matrix] without data *)
(* ------------------------------------------------------------------ *)

(** C10. With no table in the model, [get_statistics_matrix] returns the
    matrix of shape (1, 0), one row without entries, whatever the list of
    variables and whether or not labels are asked for; nothing is raised. *)
Theorem statistics_matrix_without_table
        (m : Model) (vars : option (list Var)) (return_labels : bool) :
  table m = None ->
  get_statistics_matrix m vars return_labels = Ok (JustMatrix [[]]).
Proof.
  intros T. unfold get_statistics_matrix.
  destruct (table m) as [t|]; [discriminate T|].
  reflexivity.
Qed.

Lemma statistics_matrix_without_table_witness :
  get_statistics_matrix initial_model (Some [fst continuous_full]) true
  = Ok (JustMatrix [[]]).
Proof.
  apply (statistics_matrix_without_table initial_model).
  reflexivity.
Defined.

(* ------------------------------------------------------------------ *)
(** ** The bounds check of [data] *)
(* ------------------------------------------------------------------ *)

(** Rows beyond [n_attributes] are refused with an empty [QVariant]. *)
Lemma data_beyond_n_attributes (m : Model) (index : QModelIndex)
      (role : ItemDataRole) :
  sortInd m = None -> isValid index = true ->
  (Z.of_nat (n_attributes m) < row index)%Z ->
  data m index role = EmptyQVariant.
Proof.
  intros S V R. unfold data, mapToSourceRows. rewrite V, S. simpl.
  replace (Z.to_nat (row index) <=? n_attributes m) with false; [reflexivity|].
  symmetry. apply Nat.leb_gt. lia.
Qed.

(** The row [n_attributes] itself passes the check [0 <= row <= n_attributes]
    and the lookup of its variable raises. *)
Lemma data_at_n_attributes (m : Model) (col : Z) (role : ItemDataRole) :
  sortInd m = None -> n_attributes m = length (variables m) -> (0 <= col)%Z ->
  data m {| row := Z.of_nat (n_attributes m); column := col |} role
  = Raises IndexError.
Proof.
  intros S N C. unfold data, mapToSourceRows, isValid. simpl.
  replace (0 <=? Z.of_nat (n_attributes m))%Z with true
    by (symmetry; apply Z.leb_le; lia).
  replace (0 <=? col)%Z with true by (symmetry; apply Z.leb_le; lia).
  rewrite S, Nat2Z.id, Nat.leb_refl. simpl.
  replace (nth_error (variables m) (n_attributes m)) with (@None Var);
    [reflexivity|].
  symmetry. apply nth_error_None. lia.
Qed.

(** C8, at the failing input.  The model of the eight variables of
    [example_table], in source order: a valid index for row 8, which is
    [n_attributes], is not refused; the query runs into the lookup of the
    variable and leaves [data] with an [IndexError].  Row 9 is refused. *)
Theorem data_row_n_attributes_not_refused :
  n_attributes example_model = 8
  /\ data example_model {| row := 8; column := 3 |} DisplayRole = Raises IndexError
  /\ data example_model {| row := 9; column := 3 |} DisplayRole = EmptyQVariant.
Proof.
  split; [|split]; vm_compute; reflexivity.
Qed.

(* ------------------------------------------------------------------ *)
(** ** [commit] *)
(* ------------------------------------------------------------------ *)

(** With nothing selected both outputs receive [None]. *)
Lemma commit_empty_selection (w : Widget) :
  selected_rows w = [] ->
  exists w', commit w = Ok w' /\ reduced_data w' = None /\ statistics w' = None.
Proof.
  intros E. unfold commit. rewrite E.
  eexists. split; [reflexivity|]. split; reflexivity.
Qed.

(** On the table of the output tests a selection ends in two tables. *)
Example commit_example_selection :
  match first_data_selected with
  | Ok w => match reduced_data w, statistics w with
            | Some _, Some s => length (statistics_rows s) = 2
            | _, _ => False
            end
  | Raise _ => False
  end.
Proof. vm_compute. reflexivity. Qed.

(** C7, at the failing input.  The table has a time attribute, which the
    model hides, in front of a numeric one, so the model has one row and
    vectors with one entry; the only row of the view is selected.
    [get_statistics_matrix] reads the five vectors at the index of the
    variable in the domain, which is 1: [commit] ends in an [IndexError]
    and the statistics table is not sent. *)
Theorem commit_raises_behind_hidden_variable :
  match set_data initial_widget (Some hidden_first_table) with
  | Ok w =>
      n_attributes (model w) = 1
      /\ length (_center (model w)) = 1
      /\ domain_index (domain hidden_first_table) (fst continuous_full) = Ok 1%Z
      /\ on_select w [0] = Raise IndexError
  | Raise _ => False
  end.
Proof. vm_compute. repeat split; reflexivity. Qed.

(* ------------------------------------------------------------------ *)
(** ** [set_data] and the selection *)
(* ------------------------------------------------------------------ *)

Lemma lookup_store_same d s l : lookup_context d (store_context d s l) = Some s.
Proof.
  induction l as [|[d' s'] l IH]; simpl.
  - destruct (Domain_eq_dec d d); [reflexivity | contradiction].
  - destruct (Domain_eq_dec d d') as [E|N]; simpl.
    + destruct (Domain_eq_dec d d); [reflexivity | contradiction].
    + destruct (Domain_eq_dec d d'); [contradiction | exact IH].
Qed.

Lemma lookup_store_other d d' s l :
  d <> d' -> lookup_context d (store_context d' s l) = lookup_context d l.
Proof.
  intros N. induction l as [|[d1 s1] l IH]; simpl.
  - destruct (Domain_eq_dec d d'); [contradiction | reflexivity].
  - destruct (Domain_eq_dec d' d1) as [E|N1]; simpl.
    + subst d1. destruct (Domain_eq_dec d d'); [contradiction | reflexivity].
    + destruct (Domain_eq_dec d d1); [reflexivity | exact IH].
Qed.

Lemma restore_sorting_keeps w :
  selected_rows (__restore_sorting w) = selected_rows w
  /\ contexts (__restore_sorting w) = contexts w
  /\ current_context (__restore_sorting w) = current_context w.
Proof.
  unfold __restore_sorting. destruct (sorting w) as [c o].
  destruct (c <? columnCount); [|repeat split].
  destruct (column_of_nat c); repeat split.
Qed.

Section SetData.
Context `{SciPy}.

(** What [set_data] leaves in [selected_rows], in the contexts and as the
    open context: the selection filed for the domain of the new data, or
    none. *)
Lemma set_data_selection (w w' : Widget) (B : Table) :
  set_data w (Some B) = Ok w' ->
  selected_rows w'
  = match lookup_context (domain B) (contexts (closeContext w)) with
    | Some s => saved_selected_rows s
    | None => []
    end
  /\ contexts w' = contexts (closeContext w)
  /\ current_context w' = Some (domain B).
Proof.
  unfold set_data, bind. cbv zeta. intros E.
  destruct (model_set_data _ _) as [m|e]; [|discriminate E].
  destruct (__restore_selection _) as [rows|e]; [|discriminate E].
  injection E as <-.
  destruct (lookup_context (domain B) (contexts (closeContext w))) as [s|];
    match goal with
    | |- context [__restore_sorting ?x] =>
        destruct (restore_sorting_keeps x) as (R1 & R2 & R3);
        rewrite R1, R2, R3
    end; repeat split.
Qed.

(** With the handler that files the settings per domain.  The widget shows
    data [A]; data [B] over another domain, for which no context is filed,
    replaces it: the selection is empty.  When [A] comes back the selection
    it had is back. *)
Theorem selection_cleared_then_restored (w wB wA : Widget) (A B : Table) :
  current_context w = Some (domain A) ->
  domain B <> domain A ->
  lookup_context (domain B) (contexts w) = None ->
  set_data w (Some B) = Ok wB ->
  set_data wB (Some A) = Ok wA ->
  selected_rows wB = [] /\ selected_rows wA = selected_rows w.
Proof.
  intros CA NB LB EB EA.
  apply set_data_selection in EB as (SB & CB & OB).
  apply set_data_selection in EA as (SA & _ & _).
  assert (CW : contexts (closeContext w)
               = store_context (domain A)
                   {| saved_selected_rows := selected_rows w;
                      saved_sorting := sorting w |} (contexts w)).
  { unfold closeContext. rewrite CA. reflexivity. }
  split.
  - rewrite SB, CW, lookup_store_other by exact NB. rewrite LB. reflexivity.
  - rewrite SA. unfold closeContext. rewrite OB. simpl.
    rewrite lookup_store_other by (intros E; apply NB; symmetry; exact E).
    rewrite CB, CW, lookup_store_same. reflexivity.
Qed.
End SetData.

Lemma second_data_shown :
  widget_data (state_of second_data_sent) = Some other_table.
Proof. vm_compute. reflexivity. Qed.

Lemma first_data_set_again :
  set_data (state_of second_data_sent) (Some example_table)
  = Ok (state_of first_data_again).
Proof. vm_compute. reflexivity. Qed.

Lemma first_data_selection_back :
  selected_rows (state_of first_data_selected) = [7; 5]
  /\ selected_rows (state_of second_data_sent) = []
  /\ selected_rows (state_of first_data_again) = [7; 5].
Proof. vm_compute. repeat split; reflexivity. Qed.

Lemma tables_differ : other_table <> example_table.
Proof.
  intros N.
  apply (f_equal (fun t => length (attributes (domain t)))) in N.
  vm_compute in N. discriminate N.
Qed.


Lemma set_data_with_domain_handler `{SciPy} (w : Widget) (d : option Table) :
  set_data_with domain_handler w d = set_data w d.
Proof. reflexivity. Qed.

Section SelectionAndContext.
Context `{SciPy}.

End SelectionAndContext.

Lemma second_data_sent_with_domain_handler :
  set_data_with domain_handler (state_of first_data_selected) (Some other_table)
  = Ok (state_of second_data_sent).
Proof. vm_compute. reflexivity. Qed.






(* ------------------------------------------------------------------ *)
(** ** The batched computation, column by column *)
(* ------------------------------------------------------------------ *)

Lemma mapM_ok {A B : Type} (f : A -> result B) (h : A -> B) (l : list A) :
  (forall a, In a l -> f a = Ok (h a)) -> mapM f l = Ok (map h l).
Proof.
  induction l as [|a l IH]; intros Hf; simpl; [reflexivity|].
  rewrite (Hf a (or_introl eq_refl)). simpl.
  rewrite IH by (intros b Hb; apply Hf; right; exact Hb). reflexivity.
Qed.

Lemma mapM_inv {A B : Type} (f : A -> result B) (l : list A) (r : list B) :
  mapM f l = Ok r -> Forall2 (fun a b => f a = Ok b) l r.
Proof.
  revert r. induction l as [|a l IH]; intros r E; simpl in E.
  - injection E as <-. constructor.
  - destruct (f a) as [b|e] eqn:Fa; [|discriminate E]. simpl in E.
    destruct (mapM f l) as [bs|e]; [|discriminate E]. simpl in E.
    injection E as <-. constructor; [exact Fa | apply IH; reflexivity].
Qed.

Lemma mapM_map {A B C : Type} (f : B -> result C) (g : A -> B) (l : list A) :
  mapM f (map g l) = mapM (fun a => f (g a)) l.
Proof.
  induction l as [|a l IH]; simpl; [reflexivity|]. rewrite IH. reflexivity.
Qed.

(** Conversion followed by a reducer that works by columns, when every
    listed column has a value. *)
Lemma mapM_two_stage {A : Type} (F : A -> result (list float64))
      (g : list float64 -> result float64) (h : A -> float64) (idx : list A) :
  (forall i, In i idx -> (c <- F i ;; g c) = Ok (h i)) ->
  (data <- mapM F idx ;; mapM g data) = Ok (map h idx).
Proof.
  induction idx as [|i idx IH]; intros Hv; simpl; [reflexivity|].
  pose proof (Hv i (or_introl eq_refl)) as Hi.
  destruct (F i) as [c|e]; [|discriminate Hi]. simpl in *.
  assert (IH' := IH (fun j Hj => Hv j (or_intror Hj))).
  destruct (mapM F idx) as [data|e]; [|discriminate IH']. simpl in *.
  rewrite Hi. simpl. rewrite IH'. reflexivity.
Qed.

Lemma length_set_nth i v l : length (set_nth i v l) = length l.
Proof.
  revert i. induction l as [|x l IH]; intros [|i]; simpl; auto.
Qed.

Lemma nth_set_nth i v l j d :
  nth j (set_nth i v l) d
  = if (j =? i) && (i <? length l) then v else nth j l d.
Proof.
  revert i j. induction l as [|x l IH]; intros i j.
  - simpl. rewrite andb_false_r. destruct i; reflexivity.
  - destruct i as [|i], j as [|j]; simpl; try reflexivity.
    rewrite IH. reflexivity.
Qed.

Lemma length_assign idx vals res : length (assign idx vals res) = length res.
Proof.
  revert vals res. induction idx as [|i idx IH]; intros [|v vals] res; simpl;
    try reflexivity.
  rewrite IH. apply length_set_nth.
Qed.

(** What [result[idx] = vals] leaves at a position, when the values are
    given position by position. *)
Lemma nth_assign_map (h : nat -> float64) idx res j d :
  (forall i, In i idx -> i < length res) ->
  nth j (assign idx (map h idx) res) d
  = if existsb (Nat.eqb j) idx then h j else nth j res d.
Proof.
  revert res. induction idx as [|i idx IH]; intros res Hin; simpl.
  - reflexivity.
  - rewrite IH.
    + rewrite nth_set_nth.
      destruct (existsb (Nat.eqb j) idx); [rewrite orb_true_r; reflexivity|].
      rewrite orb_false_r.
      destruct (j =? i) eqn:E; simpl; [|reflexivity].
      apply Nat.eqb_eq in E. subst j.
      replace (i <? length res) with true; [reflexivity|].
      symmetry. apply Nat.ltb_lt, Hin. left. reflexivity.
    + intros k Hk. rewrite length_set_nth. apply Hin. right. exact Hk.
Qed.

Lemma in_enumerate (vars : list Var) s i v :
  In (i, v) (combine (seq s (length vars)) vars)
  <-> s <= i /\ nth_error vars (i - s) = Some v.
Proof.
  revert s. induction vars as [|x vars IH]; intros s; simpl.
  - split; [tauto|]. intros [_ E]. destruct (i - s); discriminate E.
  - rewrite IH. split.
    + intros [E | [L E]].
      * injection E as -> ->. split; [lia|]. rewrite Nat.sub_diag. reflexivity.
      * split; [lia|]. replace (i - s) with (S (i - S s)) by lia. exact E.
    + intros [L E]. destruct (Nat.eq_dec i s) as [-> | N].
      * rewrite Nat.sub_diag in E. injection E as ->. left. reflexivity.
      * right. split; [lia|].
        replace (i - s) with (S (i - S s)) in E by lia. exact E.
Qed.

Lemma in_indices_where (p : Var -> bool) (vars : list Var) i :
  In i (indices_where p vars)
  <-> i < length vars /\ p (nth i vars no_var) = true.
Proof.
  unfold indices_where. rewrite in_map_iff. split.
  - intros ([i' v] & E & Hin). simpl in E. subst i'.
    apply filter_In in Hin as [Hin Hp]. simpl in Hp.
    apply in_enumerate in Hin as [_ Hn]. rewrite Nat.sub_0_r in Hn.
    split; [apply nth_error_Some; congruence|].
    rewrite (nth_error_nth _ _ _ Hn). exact Hp.
  - intros [Hi Hp]. exists (i, nth i vars no_var). split; [reflexivity|].
    apply filter_In. split; [|exact Hp].
    apply in_enumerate. split; [lia|]. rewrite Nat.sub_0_r.
    apply nth_error_nth'. exact Hi.
Qed.

Lemma existsb_indices_where (p : Var -> bool) (vars : list Var) j :
  j < length vars ->
  existsb (Nat.eqb j) (indices_where p vars) = p (nth j vars no_var).
Proof.
  intros Hj. destruct (p (nth j vars no_var)) eqn:P.
  - apply existsb_exists. exists j. split; [|apply Nat.eqb_refl].
    apply in_indices_where. split; assumption.
  - destruct (existsb (Nat.eqb j) (indices_where p vars)) eqn:E; [|reflexivity].
    apply existsb_exists in E as (i & Hi & Ei). apply Nat.eqb_eq in Ei. subst i.
    apply in_indices_where in Hi as [_ Hp]. congruence.
Qed.

Section GroupStatistics.
Variables (vars : list Var) (x : Matrix) (default : float64) (R : list float64).
Variable gs : option (list Cell -> float64).
Hypothesis rows : 1 <= n_rows x.
Hypothesis shape : length (columns x) = length vars.
Hypothesis lenR : length R = length vars.

Lemma no_index_no_variable (p : Var -> bool) j :
  msize (take_columns x (indices_where p vars)) = 0 ->
  j < length vars -> p (nth j vars no_var) = false.
Proof.
  intros Z Hj. unfold msize, take_columns in Z. simpl in Z.
  rewrite length_map in Z.
  destruct (p (nth j vars no_var)) eqn:P; [|reflexivity].
  assert (Hin : In j (indices_where p vars))
    by (apply in_indices_where; split; assumption).
  destruct (indices_where p vars); [destruct Hin|]. simpl in Z. lia.
Qed.

Lemma settled_assign (p done : Var -> bool) res :
  settled vars R default done res ->
  (forall v, p v = true -> done v = false) ->
  settled vars R default (fun v => done v || p v)
          (assign (indices_where p vars)
                  (map (fun i => nth i R NaN) (indices_where p vars)) res).
Proof.
  intros [L S] D. split; [rewrite length_assign; exact L|].
  intros j Hj. rewrite nth_assign_map.
  - rewrite existsb_indices_where by exact Hj. rewrite (S j Hj).
    destruct (p (nth j vars no_var)) eqn:P.
    + rewrite orb_true_r. reflexivity.
    + rewrite orb_false_r. reflexivity.
  - intros i Hi. apply in_indices_where in Hi as [Hi _]. rewrite L. exact Hi.
Qed.

Lemma settled_untouched (p done : Var -> bool) res :
  settled vars R default done res ->
  (forall j, j < length vars -> p (nth j vars no_var) = true ->
             done (nth j vars no_var) = false /\ nth j R NaN = default) ->
  settled vars R default (fun v => done v || p v) res.
Proof.
  intros [L S] U. split; [exact L|].
  intros j Hj. rewrite (S j Hj).
  destruct (p (nth j vars no_var)) eqn:P.
  - destruct (U j Hj P) as [D E]. rewrite D, E. reflexivity.
  - rewrite orb_false_r. reflexivity.
Qed.

(** One numeric step of [__compute_stat] settles the variables of its type. *)
Lemma apply_numeric_settles ro go (p done : Var -> bool) res :
  columnwise ro go ->
  settled vars R default done res ->
  (forall v, p v = true -> done v = false) ->
  (forall j, j < length vars -> p (nth j vars no_var) = true ->
             numeric_entry go default (nth j (columns x) []) = Ok (nth j R NaN)) ->
  exists res',
    apply_numeric ro x (indices_where p vars) res = Ok res'
    /\ settled vars R default (fun v => done v || p v) res'.
Proof.
  intros C S D E. destruct ro as [r|], go as [g|]; simpl in C; try contradiction.
  - unfold apply_numeric.
    destruct (msize (take_columns x (indices_where p vars)) =? 0) eqn:Z.
    + apply Nat.eqb_eq in Z. exists res. split; [reflexivity|].
      apply settled_untouched; [exact S|].
      intros j Hj P. rewrite (no_index_no_variable p j Z Hj) in P. discriminate P.
    + exists (assign (indices_where p vars)
                     (map (fun i => nth i R NaN) (indices_where p vars)) res).
      split; [|apply settled_assign; assumption].
      unfold _to_float, take_columns. simpl. rewrite mapM_map.
      assert (T : (data <- mapM (fun i => floats (nth i (columns x) []))
                                (indices_where p vars) ;; mapM g data)
                  = Ok (map (fun i => nth i R NaN) (indices_where p vars))).
      { apply mapM_two_stage.
        intros i Hi. apply in_indices_where in Hi as [Hi P].
        apply (E i Hi P). }
      destruct (mapM (fun a => floats (nth a (columns x) []))
                     (indices_where p vars)) as [data|e];
        [|discriminate T].
      simpl in *. rewrite C, T. reflexivity.
  - exists res. split; [reflexivity|].
    apply settled_untouched; [exact S|].
    intros j Hj P. split; [apply D, P|].
    specialize (E j Hj P). simpl in E. injection E as <-. reflexivity.
Qed.

(** The step for the string variables. *)
Lemma apply_string_settles ro (p done : Var -> bool) res :
  columnwise_cells ro gs ->
  settled vars R default done res ->
  (forall v, p v = true -> done v = false) ->
  (forall j, j < length vars -> p (nth j vars no_var) = true ->
             match gs with
             | Some g => Ok (g (nth j (columns x) []))
             | None => Ok default
             end = Ok (nth j R NaN)) ->
  exists res',
    apply_string ro x (indices_where p vars) res = Ok res'
    /\ settled vars R default (fun v => done v || p v) res'.
Proof.
  intros C S D E. destruct ro as [r|], gs as [g|]; simpl in C; try contradiction.
  - unfold apply_string.
    destruct (msize (take_columns x (indices_where p vars)) =? 0) eqn:Z.
    + apply Nat.eqb_eq in Z. exists res. split; [reflexivity|].
      apply settled_untouched; [exact S|].
      intros j Hj P. rewrite (no_index_no_variable p j Z Hj) in P. discriminate P.
    + exists (assign (indices_where p vars)
                     (map (fun i => nth i R NaN) (indices_where p vars)) res).
      split; [|apply settled_assign; assumption].
      unfold take_columns. simpl. rewrite C. simpl. rewrite map_map.
      do 2 f_equal. apply map_ext_in.
      intros i Hi. apply in_indices_where in Hi as [Hi P].
      specialize (E i Hi P). injection E as ->. reflexivity.
  - exists res. split; [reflexivity|].
    apply settled_untouched; [exact S|].
    intros j Hj P. split; [apply D, P|].
    specialize (E j Hj P). injection E as <-. reflexivity.
Qed.
End GroupStatistics.

Lemma Forall2_nth_ok {A : Type} (f : A -> result float64) (l : list A)
      (R : list float64) (d : A) :
  Forall2 (fun a r => f a = Ok r) l R ->
  length R = length l
  /\ forall j, j < length l -> f (nth j l d) = Ok (nth j R NaN).
Proof.
  induction 1 as [|a r l R Ha _ [IL IH]]; simpl.
  - split; [reflexivity|]. intros j Hj. lia.
  - split; [rewrite IL; reflexivity|].
    intros [|j] Hj; [exact Ha|]. apply IH. lia.
Qed.

Lemma nth_repeat_lt (d : float64) n j : j < n -> nth j (repeat d n) NaN = d.
Proof.
  revert j. induction n as [|n IH]; intros j Hj; [lia|].
  destruct j as [|j]; simpl; [reflexivity|]. apply IH. lia.
Qed.

Lemma one_test_per_type (v : Var) :
  (((false || is_disc v) || is_cont v) || is_time v) || is_string v = true.
Proof.
  unfold is_disc, is_cont, is_time, is_string, isinstance.
  destruct (var_type v); reflexivity.
Qed.

(** Refinement.  For a group with at least one instance and one column per
    variable: when every variable has an entry under the column-wise
    reducers, the body of [__compute_stat], which selects the columns of
    one type at a time and assigns the results through the index lists,
    returns exactly the list of those entries, in the order of the
    variables. *)
Lemma compute_stat_group_refines rd rc rt rs gd gc gt gs default vars x R :
  columnwise rd gd -> columnwise rc gc -> columnwise rt gt ->
  columnwise_cells rs gs ->
  1 <= n_rows x -> length (columns x) = length vars ->
  mapM (fun vc => entry_of gd gc gt gs default (fst vc) (snd vc))
       (combine vars (columns x)) = Ok R ->
  compute_stat_group rd rc rt rs default (vars, x) = Ok R.
Proof.
  intros Cd Cc Ct Cs rows shape E.
  apply mapM_inv in E.
  apply (Forall2_nth_ok _ _ _ (no_var, [])) in E as [lenR entries].
  rewrite length_combine, shape, Nat.min_id in lenR, entries.
  assert (En : forall j, j < length vars ->
                 entry_of gd gc gt gs default (nth j vars no_var)
                          (nth j (columns x) []) = Ok (nth j R NaN)).
  { intros j Hj. specialize (entries j Hj).
    rewrite combine_nth in entries by (symmetry; exact shape). exact entries. }
  clear entries.
  assert (S0 : settled vars R default (fun _ => false)
                       (repeat default (length vars))).
  { split; [apply repeat_length|]. intros j Hj. apply nth_repeat_lt, Hj. }
  destruct (apply_numeric_settles vars x default R rows shape lenR
                                  rd gd is_disc _ _ Cd S0)
    as (res1 & E1 & S1).
  { reflexivity. }
  { intros j Hj P. rewrite <- (En j Hj). unfold entry_of.
    unfold is_disc, isinstance in P.
    destruct (var_type (nth j vars no_var)); try discriminate P; reflexivity. }
  destruct (apply_numeric_settles vars x default R rows shape lenR
                                  rc gc is_cont _ _ Cc S1)
    as (res2 & E2 & S2).
  { intros v P. unfold is_cont, is_disc, isinstance in *.
    destruct (var_type v); try discriminate P; reflexivity. }
  { intros j Hj P. rewrite <- (En j Hj). unfold entry_of.
    unfold is_cont, isinstance in P.
    destruct (var_type (nth j vars no_var)); try discriminate P; reflexivity. }
  destruct (apply_numeric_settles vars x default R rows shape lenR
                                  rt gt is_time _ _ Ct S2)
    as (res3 & E3 & S3).
  { intros v P. unfold is_time, is_cont, is_disc, isinstance in *.
    destruct (var_type v); try discriminate P; reflexivity. }
  { intros j Hj P. rewrite <- (En j Hj). unfold entry_of.
    unfold is_time, isinstance in P.
    destruct (var_type (nth j vars no_var)); try discriminate P; reflexivity. }
  destruct (apply_string_settles vars x default R gs rows shape lenR
                                 rs is_string _ _ Cs S3)
    as (res4 & E4 & S4).
  { intros v P. unfold is_string, is_time, is_cont, is_disc, isinstance in *.
    destruct (var_type v); try discriminate P; reflexivity. }
  { intros j Hj P. rewrite <- (En j Hj). unfold entry_of.
    unfold is_string, isinstance in P.
    destruct (var_type (nth j vars no_var)); try discriminate P; reflexivity. }
  unfold compute_stat_group, _attr_indices. cbv zeta.
  unfold is_disc in E1. unfold is_cont in E2. unfold is_time in E3.
  unfold is_string in E4.
  rewrite E1. simpl. rewrite E2. simpl. rewrite E3. simpl. rewrite E4. simpl.
  f_equal. destruct S4 as [L4 N4].
  apply (nth_ext _ _ NaN NaN); [congruence|].
  intros j Hj. rewrite L4 in Hj. rewrite (N4 j Hj), one_test_per_type.
  reflexivity.
Qed.

(* ------------------------------------------------------------------ *)
(** ** The shown variables and the groups of the model *)
(* ------------------------------------------------------------------ *)

Lemma enumerate_select_from {B : Type} (p : Var -> bool) (d : B)
      (vars : list Var) (ys : list B) (s : nat) :
  length ys = length vars ->
  map (fun i => (nth (i - s) vars no_var, nth (i - s) ys d))
      (map fst (filter (fun iv => p (snd iv))
                       (combine (seq s (length vars)) vars)))
  = filter (fun vy => p (fst vy)) (combine vars ys).
Proof.
  revert ys s. induction vars as [|v vars IH]; intros ys s L.
  - reflexivity.
  - destruct ys as [|y ys]; [discriminate L|]. simpl in L. injection L as L.
    simpl.
    assert (T : map (fun i => (nth (i - s) (v :: vars) no_var,
                               nth (i - s) (y :: ys) d))
                    (map fst (filter (fun iv => p (snd iv))
                                     (combine (seq (S s) (length vars)) vars)))
                = filter (fun vy => p (fst vy)) (combine vars ys)).
    { rewrite <- (IH ys (S s) L). apply map_ext_in.
      intros i Hi. apply in_map_iff in Hi as ([i' v'] & E & Hi). simpl in E.
      subst i'. apply filter_In in Hi as [Hi _].
      apply in_combine_l, in_seq in Hi.
      replace (i - s) with (S (i - S s)) by lia. reflexivity. }
    destruct (p v); simpl; [rewrite Nat.sub_diag; simpl; f_equal|]; exact T.
Qed.

Lemma enumerate_select {B : Type} (p : Var -> bool) (d : B)
      (vars : list Var) (ys : list B) :
  length ys = length vars ->
  map (fun i => (nth i vars no_var, nth i ys d)) (indices_where p vars)
  = filter (fun vy => p (fst vy)) (combine vars ys).
Proof.
  intros L. rewrite <- (enumerate_select_from p d vars ys 0 L).
  apply map_ext. intros i. rewrite Nat.sub_0_r. reflexivity.
Qed.

(** [__filter_attributes] keeps the shown variables, each with its column. *)
Lemma filter_attributes_visible (vars : list Var) (x : Matrix) :
  length (columns x) = length vars ->
  __filter_attributes vars x
  = (map fst (visible vars x),
     {| n_rows := n_rows x; columns := map snd (visible vars x) |}).
Proof.
  intros L. unfold __filter_attributes, take_columns, visible.
  rewrite <- (enumerate_select (fun a => negb (is_hidden a)) [] vars
                               (columns x) L).
  rewrite !map_map. reflexivity.
Qed.

Lemma combine_fst_snd {A B : Type} (l : list (A * B)) :
  combine (map fst l) (map snd l) = l.
Proof.
  induction l as [|[a b] l IH]; simpl; [reflexivity|]. rewrite IH. reflexivity.
Qed.

Lemma visible_not_hidden vars x vc :
  In vc (visible vars x) -> is_hidden (fst vc) = false.
Proof.
  unfold visible. intros Hin. apply filter_In in Hin as [_ Hp].
  apply negb_true_iff in Hp. exact Hp.
Qed.

(** A group without variables contributes nothing. *)
Lemma compute_stat_group_empty rd rc rt rs default (x : Matrix) :
  compute_stat_group rd rc rt rs default ([], x) = Ok [].
Proof.
  unfold compute_stat_group, _attr_indices, indices_where. simpl.
  assert (Z : (msize (take_columns x []) =? 0) = true).
  { unfold msize, take_columns. simpl. rewrite Nat.mul_0_r. reflexivity. }
  unfold apply_numeric, apply_string.
  destruct rd, rc, rt, rs; rewrite ?Z; reflexivity.
Qed.

Lemma mapM_filter_concat {A : Type} (f : A -> result (list float64))
      (keep : A -> bool) (gs : list A) (Rs : list (list float64)) :
  mapM f gs = Ok Rs ->
  (forall g, In g gs -> keep g = false -> f g = Ok []) ->
  exists Rs', mapM f (filter keep gs) = Ok Rs' /\ concat Rs' = concat Rs.
Proof.
  revert Rs. induction gs as [|g gs IH]; intros Rs E D; simpl in *.
  - injection E as <-. exists []. split; reflexivity.
  - destruct (f g) as [r|e] eqn:Fg; [|discriminate E]. simpl in E.
    destruct (mapM f gs) as [rs|e]; [|discriminate E]. simpl in E.
    injection E as <-.
    destruct (IH rs eq_refl (fun g' Hg => D g' (or_intror Hg)))
      as (Rs' & E' & C').
    destruct (keep g) eqn:K; simpl.
    + rewrite Fg. simpl. rewrite E'. simpl. exists (r :: Rs').
      split; [reflexivity|]. simpl. rewrite C'. reflexivity.
    + rewrite (D g (or_introl eq_refl) K) in Fg. injection Fg as <-.
      exists Rs'. split; [exact E'|]. exact C'.
Qed.

(** [__compute_stat] over the groups that are kept, for data with at least
    one instance: dropping a group whose matrix has size zero drops a group
    without variables. *)
Lemma compute_stat_kept rd rc rt rs default (gs : list Group)
      (Rs : list (list float64)) :
  (forall g, In g gs ->
             1 <= n_rows (snd g) /\ length (columns (snd g)) = length (fst g)) ->
  mapM (compute_stat_group rd rc rt rs default) gs = Ok Rs ->
  __compute_stat (filter (fun tup => negb (msize (snd tup) =? 0)) gs)
                 rd rc rt rs default
  = Ok (concat Rs).
Proof.
  intros W E.
  destruct (mapM_filter_concat _ (fun tup => negb (msize (snd tup) =? 0))
                               gs Rs E) as (Rs' & E' & C').
  - intros [vars x] Hg K. apply negb_false_iff, Nat.eqb_eq in K.
    destruct (W _ Hg) as [rows shape]. simpl in *.
    unfold msize in K.
    assert (length vars = 0) by (rewrite <- shape; nia).
    destruct vars; [|discriminate]. apply compute_stat_group_empty.
  - unfold __compute_stat.
    remember (filter (fun tup => negb (msize (snd tup) =? 0)) gs) as kept.
    destruct kept as [|g gs'].
    + simpl in E'. injection E' as <-. rewrite <- C'. reflexivity.
    + unfold Group in *. rewrite E'. simpl. rewrite C'. reflexivity.
Qed.

Lemma part_shape_facts rows vars x :
  part_shape rows vars x = true ->
  n_rows x = rows /\ length (columns x) = length vars
  /\ forall col, In col (columns x) -> length col = rows.
Proof.
  unfold part_shape. intros S.
  apply andb_true_iff in S as [S S3]. apply andb_true_iff in S as [S1 S2].
  apply Nat.eqb_eq in S1, S2. split; [exact S1|]. split; [exact S2|].
  intros col Hc. rewrite forallb_forall in S3. apply Nat.eqb_eq, S3, Hc.
Qed.

Lemma table_shape_facts t :
  table_shape t = true ->
  (n_rows (X t) = n_instances_of t
   /\ length (columns (X t)) = length (attributes (domain t)))
  /\ (n_rows (Y t) = n_instances_of t
      /\ length (columns (Y t)) = length (class_vars (domain t)))
  /\ (n_rows (M t) = n_instances_of t
      /\ length (columns (M t)) = length (metas (domain t))).
Proof.
  unfold table_shape. intros S.
  apply andb_true_iff in S as [S S3]. apply andb_true_iff in S as [S1 S2].
  apply part_shape_facts in S1 as (? & ? & _).
  apply part_shape_facts in S2 as (? & ? & _).
  apply part_shape_facts in S3 as (? & ? & _). tauto.
Qed.

(** One group of a table with at least one instance. *)
Lemma compute_stat_part rd rc rt rs gd gc gt gs
      (stat : Var * list Cell -> float64) (vars : list Var) (x : Matrix) :
  columnwise rd gd -> columnwise rc gc -> columnwise rt gt ->
  columnwise_cells rs gs ->
  1 <= n_rows x -> length (columns x) = length vars ->
  (forall vc, In vc (visible vars x) ->
              entry_of gd gc gt gs NaN (fst vc) (snd vc) = Ok (stat vc)) ->
  compute_stat_group rd rc rt rs NaN (__filter_attributes vars x)
  = Ok (map stat (visible vars x)).
Proof.
  intros Cd Cc Ct Cs rows shape En.
  rewrite (filter_attributes_visible vars x shape).
  apply (compute_stat_group_refines rd rc rt rs gd gc gt gs); auto.
  - simpl. rewrite !length_map. reflexivity.
  - simpl. rewrite combine_fst_snd. apply mapM_ok. exact En.
Qed.

(** One statistics vector of a table with at least one instance: the
    entries of the shown variables in canonical order. *)
Lemma compute_stat_table rd rc rt rs gd gc gt gs
      (stat : Var * list Cell -> float64) (t : Table) :
  columnwise rd gd -> columnwise rc gc -> columnwise rt gt ->
  columnwise_cells rs gs ->
  table_shape t = true -> 1 <= n_instances_of t ->
  (forall vc, In vc (canonical t) ->
              entry_of gd gc gt gs NaN (fst vc) (snd vc) = Ok (stat vc)) ->
  __compute_stat (filter (fun tup => negb (msize (snd tup) =? 0)) (groups_of t))
                 rd rc rt rs NaN
  = Ok (map stat (canonical t)).
Proof.
  intros Cd Cc Ct Cs S N En.
  destruct (table_shape_facts t S) as ((RX & LX) & (RY & LY) & (RM & LM)).
  unfold canonical in *.
  rewrite (compute_stat_kept rd rc rt rs NaN (groups_of t)
             [map stat (visible (attributes (domain t)) (X t));
              map stat (visible (class_vars (domain t)) (Y t));
              map stat (visible (metas (domain t)) (M t))]).
  - simpl. rewrite app_nil_r, !map_app. reflexivity.
  - intros g [<- | [<- | [<- | []]]];
      rewrite filter_attributes_visible by assumption; simpl;
      rewrite !length_map; split; try reflexivity; lia.
  - unfold groups_of. cbn [mapM].
    assert (Side : forall vc part,
               In vc part ->
               (forall w, In w part ->
                          In w (visible (attributes (domain t)) (X t)
                                ++ visible (class_vars (domain t)) (Y t)
                                ++ visible (metas (domain t)) (M t))) ->
               entry_of gd gc gt gs NaN (fst vc) (snd vc) = Ok (stat vc)).
    { intros vc part H Sub. apply En, Sub, H. }
    rewrite (compute_stat_part rd rc rt rs gd gc gt gs stat
               (attributes (domain t)) (X t) Cd Cc Ct Cs);
      [ | lia | exact LX
        | intros vc H; apply (Side vc _ H); intros w Hw;
          rewrite !in_app_iff; tauto ].
    rewrite (compute_stat_part rd rc rt rs gd gc gt gs stat
               (class_vars (domain t)) (Y t) Cd Cc Ct Cs);
      [ | lia | exact LY
        | intros vc H; apply (Side vc _ H); intros w Hw;
          rewrite !in_app_iff; tauto ].
    rewrite (compute_stat_part rd rc rt rs gd gc gt gs stat
               (metas (domain t)) (M t) Cd Cc Ct Cs);
      [ | lia | exact LM
        | intros vc H; apply (Side vc _ H); intros w Hw;
          rewrite !in_app_iff; tauto ].
    reflexivity.
Qed.

(* ------------------------------------------------------------------ *)
(** ** The five vectors of a table with instances *)
(* ------------------------------------------------------------------ *)

Lemma columnwise_per_column (f : list float64 -> float64) :
  columnwise (Some (per_column f)) (Some (fun c => Ok (f c))).
Proof.
  intros x. unfold per_column. symmetry. apply mapM_ok. reflexivity.
Qed.

Lemma floats_of_ok col c : floats col = Ok c -> floats_of col = c.
Proof. unfold floats_of. intros ->. reflexivity. Qed.

(** The entry of a shown variable whose column can be computed. *)
Lemma entry_of_shown (gd : list float64 -> result float64)
      (fd fc : list float64 -> float64) gt gs (v : Var) (col : list Cell) :
  is_hidden v = false -> column_ok (v, col) = true ->
  (forall c, is_ok (bincount c) = true -> gd c = Ok (fd c)) ->
  entry_of (Some gd) (Some (fun c => Ok (fc c))) gt gs NaN v col
  = Ok (if isinstance v DiscreteVariable
        then fd (floats_of col) else fc (floats_of col)).
Proof.
  intros Hh Hc Hd. unfold column_ok in Hc. simpl in Hc.
  destruct (floats col) as [c|e] eqn:F; [|discriminate Hc].
  rewrite (floats_of_ok col c F).
  unfold entry_of, is_hidden, isinstance in *.
  destruct (var_type v); simpl in *; try discriminate Hh; rewrite F; simpl.
  - apply Hd, Hc.
  - reflexivity.
Qed.

Section Aligned.
Context `{SciPy}.

Lemma entropy_value c :
  is_ok (bincount c) = true ->
  categorical_entropy_col c = Ok (value_of (categorical_entropy_col c)).
Proof.
  unfold categorical_entropy_col. destruct (bincount c); [reflexivity|].
  discriminate.
Qed.

(** The statistics of a table with at least one instance, of the right
    shape and with columns that can be computed: [set_data] returns, the
    model has one row per shown variable, and the five vectors hold, entry
    by entry in canonical order, the statistics of the shown variables. *)
Lemma statistics_aligned (m : Model) (t : Table) :
  table_shape t = true -> 1 <= n_instances_of t ->
  forallb column_ok (canonical t) = true ->
  exists m',
    model_set_data m (Some t) = Ok m'
    /\ table m' = Some t
    /\ n_attributes m' = length (canonical t)
    /\ n_instances m' = n_instances_of t
    /\ variables m' = map fst (canonical t)
    /\ _center m' = vector_of center_of t
    /\ _dispersion m' = vector_of dispersion_of t
    /\ _min m' = vector_of min_of t
    /\ _max m' = vector_of max_of t
    /\ _missing m' = vector_of missing_of t.
Proof.
  intros S N Hok.
  destruct (table_shape_facts t S) as ((RX & LX) & (RY & LY) & (RM & LM)).
  assert (Shown : forall vc, In vc (canonical t) ->
                    is_hidden (fst vc) = false /\ column_ok vc = true).
  { intros vc Hin. split.
    - unfold canonical in Hin. rewrite !in_app_iff in Hin.
      destruct Hin as [Hin | [Hin | Hin]];
        apply (visible_not_hidden _ _ _ Hin).
    - rewrite forallb_forall in Hok. apply Hok, Hin. }
  assert (Vars : fst (__filter_attributes (attributes (domain t)) (X t))
                 ++ fst (__filter_attributes (class_vars (domain t)) (Y t))
                 ++ fst (__filter_attributes (metas (domain t)) (M t))
                 = map fst (canonical t)).
  { rewrite !filter_attributes_visible by assumption. simpl.
    unfold canonical. rewrite !map_app. reflexivity. }
  unfold model_set_data, __compute_statistics, kept_matrices, variables.
  cbn [__attributes __class_vars __metas table n_attributes n_instances
       sortInd sortIndInv].
  fold (groups_of t).
  rewrite (compute_stat_table _ _ None None
             (Some (fun c => Ok (ss_mode c))) (Some (fun c => Ok (nanmean c)))
             None None
             (fun vc => center_of (fst vc) (floats_of (snd vc))) t
             (columnwise_per_column _) (columnwise_per_column _) I I S N).
  2: { intros [v col] Hin. destruct (Shown _ Hin) as [Hh Hc].
       apply (entry_of_shown _ ss_mode nanmean); auto. }
  cbn [bind].
  rewrite (compute_stat_table (Some _categorical_entropy) _ None None
             (Some categorical_entropy_col)
             (Some (fun c => Ok (coefficient_of_variation c)))
             None None
             (fun vc => dispersion_of (fst vc) (floats_of (snd vc))) t
             (fun x => eq_refl) (columnwise_per_column _) I I S N).
  2: { intros [v col] Hin. destruct (Shown _ Hin) as [Hh Hc].
       apply (entry_of_shown _ (fun c => value_of (categorical_entropy_col c))
                             coefficient_of_variation); auto.
       apply entropy_value. }
  cbn [bind].
  rewrite (compute_stat_table _ _ None None
             (Some (fun c => Ok (nanmin c))) (Some (fun c => Ok (nanmin c)))
             None None
             (fun vc => min_of (fst vc) (floats_of (snd vc))) t
             (columnwise_per_column _) (columnwise_per_column _) I I S N).
  2: { intros [v col] Hin. destruct (Shown _ Hin) as [Hh Hc].
       rewrite (entry_of_shown _ nanmin nanmin); auto.
       destruct (isinstance _ _); reflexivity. }
  cbn [bind].
  rewrite (compute_stat_table _ _ None None
             (Some (fun c => Ok (nanmax c))) (Some (fun c => Ok (nanmax c)))
             None None
             (fun vc => max_of (fst vc) (floats_of (snd vc))) t
             (columnwise_per_column _) (columnwise_per_column _) I I S N).
  2: { intros [v col] Hin. destruct (Shown _ Hin) as [Hh Hc].
       rewrite (entry_of_shown _ nanmax nanmax); auto.
       destruct (isinstance _ _); reflexivity. }
  cbn [bind].
  rewrite (compute_stat_table _ _ _ (Some count_unknown)
             (Some (fun c => Ok (countnans c)))
             (Some (fun c => Ok (countnans c)))
             (Some (fun c => Ok (countnans c)))
             (Some (fun col => of_nat (length (filter cell_is_unknown col))))
             (fun vc => missing_of (fst vc) (floats_of (snd vc))) t
             (columnwise_per_column _) (columnwise_per_column _)
             (columnwise_per_column _) (fun x => eq_refl) S N).
  2: { intros [v col] Hin. destruct (Shown _ Hin) as [Hh Hc].
       rewrite (entry_of_shown _ countnans countnans); auto.
       destruct (isinstance _ _); reflexivity. }
  cbn [bind].
  eexists. split; [reflexivity|].
  cbn [table n_attributes n_instances __attributes __class_vars __metas
       _center _dispersion _min _max _missing].
  rewrite Vars, length_map. repeat split; reflexivity.
Qed.
End Aligned.

(* ------------------------------------------------------------------ *)
(** ** Data without instances *)
(* ------------------------------------------------------------------ *)

(** C9, at the failing input.  For a table with one numeric attribute and
    no instance, whatever SciPy does: [set_data] returns, the model has one
    row and one variable, and each of the five vectors is empty, because
    [__compute_statistics] drops every group whose matrix has size zero. *)
Theorem vectors_empty_without_instances :
  forall S : SciPy,
    match @model_set_data S initial_model (Some no_rows_table) with
    | Ok m =>
        n_attributes m = 1
        /\ length (variables m) = 1
        /\ _center m = [] /\ _dispersion m = [] /\ _min m = []
        /\ _max m = [] /\ _missing m = []
    | Raise _ => False
    end.
Proof. intros S. vm_compute. repeat split; reflexivity. Qed.

(** C3, at the failing input.  For the table with one numeric attribute
    and no instance, whatever SciPy does: [set_data] returns and the model
    has one row, yet the order that [_argsortData] returns for any of the
    five statistic columns is empty, so it is no permutation of the row
    numbers; after a sort by such a column, in either direction, mapping
    source row 0 to its display row and back raises IndexError. *)
Theorem round_trip_raises_without_instances :
  forall S : SciPy,
    match @model_set_data S initial_model (Some no_rows_table) with
    | Ok m =>
        n_attributes m = 1
        /\ forall c o,
             is_statistic c = true ->
             _argsortData (sortColumnData m c) o = []
             /\ sortInd (sort m c o) = Some []
             /\ mapFromSourceRows (sort m c o) 0 = Raise IndexError
             /\ round_trip (sort m c o) 0 = Raise IndexError
    | Raise _ => False
    end.
Proof.
  intros S.
  set (r := @model_set_data S initial_model (Some no_rows_table)).
  vm_compute in r. subst r. cbv beta iota. split; [reflexivity|].
  intros c o St. destruct c; try discriminate St; destruct o;
    vm_compute; repeat split; reflexivity.
Qed.

(* ------------------------------------------------------------------ *)
(** ** Columns without values *)
(* ------------------------------------------------------------------ *)

Lemma all_nan_floats (col : list Cell) :
  forallb cell_is_nan col = true ->
  floats col = Ok (repeat NaN (length col)).
Proof.
  unfold floats. induction col as [|c col IH]; simpl; [reflexivity|].
  intros A. apply andb_true_iff in A as [Hc A].
  destruct c as [[| | |]|]; try discriminate Hc. simpl.
  rewrite (IH A). reflexivity.
Qed.

Lemma filter_notnan_all_nan n : filter notnan (repeat NaN n) = [].
Proof. induction n as [|n IH]; simpl; auto. Qed.

Lemma filter_isnan_all_nan n : filter isnan (repeat NaN n) = repeat NaN n.
Proof. induction n as [|n IH]; simpl; [reflexivity|]. rewrite IH. reflexivity. Qed.

Lemma nanmean_all_nan n : nanmean (repeat NaN n) = NaN.
Proof. unfold nanmean. rewrite filter_notnan_all_nan. reflexivity. Qed.

Lemma nanvar_all_nan n : nanvar (repeat NaN n) = NaN.
Proof. unfold nanvar. rewrite filter_notnan_all_nan. reflexivity. Qed.

Lemma coefficient_of_variation_all_nan n :
  coefficient_of_variation (repeat NaN n) = NaN.
Proof.
  unfold coefficient_of_variation. rewrite nanvar_all_nan, nanmean_all_nan.
  reflexivity.
Qed.

Lemma nanmin_all_nan n : nanmin (repeat NaN n) = NaN.
Proof. unfold nanmin. rewrite filter_notnan_all_nan. reflexivity. Qed.

Lemma nanmax_all_nan n : nanmax (repeat NaN n) = NaN.
Proof. unfold nanmax. rewrite filter_notnan_all_nan. reflexivity. Qed.

Lemma countnans_all_nan n : countnans (repeat NaN n) = of_nat n.
Proof.
  unfold countnans. rewrite filter_isnan_all_nan, repeat_length. reflexivity.
Qed.

Lemma bincount_all_nan n : bincount (repeat NaN n) = Ok [].
Proof. unfold bincount. rewrite filter_notnan_all_nan. reflexivity. Qed.

(** The entropy of a categorical column without values: no category is
    counted, and the sum over no category is zero. *)
Lemma entropy_all_nan `{SciPy} n :
  categorical_entropy_col (repeat NaN n) = Ok fzero.
Proof.
  unfold categorical_entropy_col. rewrite bincount_all_nan. reflexivity.
Qed.

Lemma canonical_column_length t vc :
  table_shape t = true -> In vc (canonical t) ->
  length (snd vc) = n_instances_of t.
Proof.
  unfold table_shape. intros S Hin.
  apply andb_true_iff in S as [S S3]. apply andb_true_iff in S as [S1 S2].
  apply part_shape_facts in S1 as (_ & _ & C1).
  apply part_shape_facts in S2 as (_ & _ & C2).
  apply part_shape_facts in S3 as (_ & _ & C3).
  unfold canonical, visible in Hin. rewrite !in_app_iff in Hin.
  destruct vc as [v col]. simpl.
  destruct Hin as [Hin | [Hin | Hin]];
    apply filter_In in Hin as [Hin _]; apply in_combine_r in Hin; auto.
Qed.

Section AllMissing.
Context `{SciPy}.

(** C4, as the code has it.  In a table with at least one instance whose
    columns can be computed, for a shown variable whose column holds NaN in
    every row: [set_data] returns; Min and Max are NaN and Missing is the
    number of instances; for a numeric variable Center and Dispersion are
    NaN; for a categorical variable Dispersion is zero. *)
Theorem all_missing_column (m : Model) (t : Table) (i : nat)
        (v : Var) (col : list Cell) :
  table_shape t = true -> 1 <= n_instances_of t ->
  forallb column_ok (canonical t) = true ->
  nth_error (canonical t) i = Some (v, col) ->
  forallb cell_is_nan col = true ->
  exists m',
    model_set_data m (Some t) = Ok m'
    /\ nth_error (_min m') i = Some NaN
    /\ nth_error (_max m') i = Some NaN
    /\ nth_error (_missing m') i = Some (of_nat (n_instances m'))
    /\ if isinstance v DiscreteVariable
       then nth_error (_dispersion m') i = Some fzero
       else nth_error (_center m') i = Some NaN
            /\ nth_error (_dispersion m') i = Some NaN.
Proof.
  intros S N Hok Hi A.
  destruct (statistics_aligned m t S N Hok)
    as (m' & E & _ & _ & NI & _ & Ec & Ed & Emin & Emax & Emis).
  exists m'. split; [exact E|].
  assert (L : length col = n_instances_of t).
  { apply (canonical_column_length t (v, col) S).
    eapply nth_error_In, Hi. }
  assert (F : floats_of col = repeat NaN (n_instances_of t)).
  { rewrite <- L. apply floats_of_ok, all_nan_floats, A. }
  rewrite Ec, Ed, Emin, Emax, Emis, NI. unfold vector_of.
  rewrite !nth_error_map, Hi. simpl. rewrite F.
  unfold min_of, max_of, missing_of, center_of, dispersion_of.
  rewrite nanmin_all_nan, nanmax_all_nan, countnans_all_nan.
  repeat (split; [reflexivity|]).
  destruct (isinstance v DiscreteVariable).
  - rewrite entropy_all_nan. reflexivity.
  - rewrite nanmean_all_nan, coefficient_of_variation_all_nan.
    split; reflexivity.
Qed.
End AllMissing.

(** Counterexample to C4 as stated: the categorical column [rgb_all_missing]
    of the tests, five rows of NaN, has Dispersion zero, which is not NaN. *)
Lemma all_missing_categorical_dispersion :
  match model_set_data initial_model (Some all_missing_categorical_table) with
  | Ok m => _dispersion m = [fzero] /\ map isnan (_dispersion m) = [false]
  | Raise _ => False
  end.
Proof. vm_compute. split; reflexivity. Qed.

(* ------------------------------------------------------------------ *)
(** ** Constant columns *)
(* ------------------------------------------------------------------ *)

Lemma fold_fadd_const (q : Q) (k : nat) (a : Q) :
  exists s, fold_left fadd (repeat (Fin q) k) (Fin a) = Fin s
            /\ (s == a + inject_Z (Z.of_nat k) * q)%Q.
Proof.
  revert a. induction k as [|k IH]; intros a.
  - exists a. split; [reflexivity|]. simpl. ring.
  - destruct (IH (a + q)%Q) as (s & E & Hs). exists s. split; [exact E|].
    rewrite Hs, Nat2Z.inj_succ. unfold Z.succ. rewrite inject_Z_plus. ring.
Qed.

Lemma inject_nat_nonzero k : 1 <= k -> ~ (inject_Z (Z.of_nat k) == 0)%Q.
Proof.
  intros Hk E. unfold Qeq in E. simpl in E. lia.
Qed.

(** The mean of [k] copies of [q] over [k]. *)
Lemma mean_of_copies (q : Q) (k : nat) :
  1 <= k ->
  exists mq, fdiv (fsum (repeat (Fin q) k)) (of_nat k) = Fin mq /\ (mq == q)%Q.
Proof.
  intros Hk. unfold fsum, fzero, of_nat.
  destruct (fold_fadd_const q k (0 # 1)) as (s & E & Hs). rewrite E. simpl.
  pose proof (inject_nat_nonzero k Hk) as NZ.
  destruct (Qeq_bool (inject_Z (Z.of_nat k)) (0 # 1)) eqn:B.
  - apply Qeq_bool_eq in B. contradiction.
  - eexists. split; [reflexivity|]. rewrite Hs. field. exact NZ.
Qed.

Lemma constant_mean c q k :
  filter notnan c = repeat (Fin q) k -> 1 <= k ->
  exists mq, nanmean c = Fin mq /\ (mq == q)%Q.
Proof.
  intros F Hk. unfold nanmean. rewrite F, repeat_length.
  apply mean_of_copies, Hk.
Qed.

Lemma constant_var c q k :
  filter notnan c = repeat (Fin q) k -> 1 <= k ->
  exists vq, nanvar c = Fin vq /\ (vq == 0)%Q.
Proof.
  intros F Hk. destruct (constant_mean c q k F Hk) as (mq & Em & Hm).
  unfold nanvar. rewrite Em, F, map_repeat, repeat_length. simpl.
  destruct (mean_of_copies ((q + - mq) * (q + - mq))%Q k Hk)
    as (vq & Ev & Hv).
  exists vq. split; [exact Ev|]. rewrite Hv, Hm. ring.
Qed.

Lemma Qsqrt_zero v : (v == 0)%Q -> (Qsqrt v == 0)%Q.
Proof.
  intros E. unfold Qeq in E. simpl in E. rewrite Z.mul_1_r in E.
  unfold Qsqrt. rewrite E. unfold Qeq. simpl. reflexivity.
Qed.

Lemma Qeq_bool_compat p q : (p == q)%Q -> Qeq_bool p (0 # 1) = Qeq_bool q (0 # 1).
Proof.
  intros E. destruct (Qeq_bool q (0 # 1)) eqn:B.
  - apply Qeq_bool_iff. apply Qeq_bool_iff in B. rewrite E. exact B.
  - destruct (Qeq_bool p (0 # 1)) eqn:B'; [|reflexivity].
    apply Qeq_bool_iff in B'. rewrite E in B'.
    apply Qeq_bool_iff in B'. congruence.
Qed.

(** The coefficient of variation of a constant column: the deviation is
    zero, so the quotient is zero over the constant. *)
Lemma constant_dispersion c q k :
  filter notnan c = repeat (Fin q) k -> 1 <= k ->
  exists d, coefficient_of_variation c = d
            /\ if Qeq_bool q (0 # 1) then isnan d = true
               else feqb d fzero = true.
Proof.
  intros F Hk.
  destruct (constant_mean c q k F Hk) as (mq & Em & Hm).
  destruct (constant_var c q k F Hk) as (vq & Ev & Hv).
  eexists. split; [reflexivity|].
  unfold coefficient_of_variation. rewrite Em, Ev. unfold fsqrt.
  assert (L : Qltb vq (0 # 1) = false).
  { unfold Qltb. apply negb_false_iff, Qle_bool_iff. rewrite Hv. lra. }
  rewrite L. pose proof (Qsqrt_zero vq Hv) as Hr.
  unfold fdiv. rewrite (Qeq_bool_compat mq q Hm).
  destruct (Qeq_bool q (0 # 1)) eqn:B.
  - apply Qeq_alt in Hr. rewrite Hr. reflexivity.
  - unfold feqb, fzero. apply Qeq_bool_iff. rewrite Hr.
    unfold Qdiv. ring.
Qed.

Lemma fold_fmin_const q k : fold_left fmin (repeat (Fin q) k) (Fin q) = Fin q.
Proof.
  induction k as [|k IH]; simpl; [reflexivity|].
  replace (fmin (Fin q) (Fin q)) with (Fin q); [exact IH|].
  unfold fmin. destruct (fltb (Fin q) (Fin q)); reflexivity.
Qed.

Lemma fold_fmax_const q k : fold_left fmax (repeat (Fin q) k) (Fin q) = Fin q.
Proof.
  induction k as [|k IH]; simpl; [reflexivity|].
  replace (fmax (Fin q) (Fin q)) with (Fin q); [exact IH|].
  unfold fmax. destruct (fltb (Fin q) (Fin q)); reflexivity.
Qed.

Lemma constant_min_max c q k :
  filter notnan c = repeat (Fin q) k -> 1 <= k ->
  nanmin c = Fin q /\ nanmax c = Fin q.
Proof.
  intros F Hk. unfold nanmin, nanmax. rewrite F.
  destruct k as [|k]; [lia|]. simpl.
  split; [apply fold_fmin_const | apply fold_fmax_const].
Qed.

Lemma constant_floats (col : list Cell) (q : Q) :
  Forall (fun c => c = Num NaN \/ c = Num (Fin q)) col ->
  exists c k, floats col = Ok c
              /\ filter notnan c = repeat (Fin q) k
              /\ (In (Num (Fin q)) col -> 1 <= k).
Proof.
  unfold floats. induction 1 as [|x col Hx _ (c & k & E & F & K)].
  - exists [], 0. split; [reflexivity|]. split; [reflexivity|].
    intros [].
  - destruct Hx as [-> | ->]; simpl; rewrite E; simpl.
    + exists (NaN :: c), k. split; [reflexivity|]. split; [exact F|].
      intros [D | I]; [discriminate D | exact (K I)].
    + exists (Fin q :: c), (S k). split; [reflexivity|].
      split; [simpl; rewrite F; reflexivity|]. intros _. lia.
Qed.

Section Constant.
Context `{SciPy}.

(** The entries of a constant column in the arithmetic of the model, which
    does not round: Min and Max are [q] and Dispersion is zero over [q]. *)
Lemma constant_column_entries (m : Model) (t : Table) (i : nat)
        (v : Var) (col : list Cell) (q : Q) :
  table_shape t = true -> 1 <= n_instances_of t ->
  forallb column_ok (canonical t) = true ->
  nth_error (canonical t) i = Some (v, col) ->
  var_type v = ContinuousVariable ->
  Forall (fun c => c = Num NaN \/ c = Num (Fin q)) col ->
  In (Num (Fin q)) col ->
  exists m' d,
    model_set_data m (Some t) = Ok m'
    /\ nth_error (_min m') i = Some (Fin q)
    /\ nth_error (_max m') i = Some (Fin q)
    /\ nth_error (_dispersion m') i = Some d
    /\ if Qeq_bool q (0 # 1) then isnan d = true else feqb d fzero = true.
Proof.
  intros S N Hok Hi T A I.
  destruct (statistics_aligned m t S N Hok)
    as (m' & E & _ & _ & _ & _ & _ & Ed & Emin & Emax & _).
  destruct (constant_floats col q A) as (c & k & F & Fk & K).
  specialize (K I).
  destruct (constant_min_max c q k Fk K) as [Hmin Hmax].
  destruct (constant_dispersion c q k Fk K) as (d & Hd & Hq).
  exists m', d. split; [exact E|].
  rewrite Ed, Emin, Emax. unfold vector_of.
  rewrite !nth_error_map, Hi. simpl. rewrite (floats_of_ok col c F).
  unfold min_of, max_of, dispersion_of, isinstance. rewrite T, Hmin, Hmax, Hd.
  repeat (split; [reflexivity|]). exact Hq.
Qed.

(** C5, as the code has it.  In a table with at least one instance whose
    columns can be computed, for a numeric variable whose values, where not
    missing, all equal [q]: [set_data] returns and Min and Max are [q].
    Dispersion is not NaN in general.  Where [q] is a whole number [z] with
    [|z|] times the number of instances below [2^53], the sum of the
    column, its mean and its variance are whole numbers that doubles hold
    exactly, so nothing is rounded, and Dispersion is zero over [z]: NaN
    when [z] is zero and zero otherwise. *)
Theorem constant_column (m : Model) (t : Table) (i : nat)
        (v : Var) (col : list Cell) (q : Q) :
  table_shape t = true -> 1 <= n_instances_of t ->
  forallb column_ok (canonical t) = true ->
  nth_error (canonical t) i = Some (v, col) ->
  var_type v = ContinuousVariable ->
  Forall (fun c => c = Num NaN \/ c = Num (Fin q)) col ->
  In (Num (Fin q)) col ->
  exists m' d,
    model_set_data m (Some t) = Ok m'
    /\ nth_error (_min m') i = Some (Fin q)
    /\ nth_error (_max m') i = Some (Fin q)
    /\ nth_error (_dispersion m') i = Some d
    /\ forall z : Z,
         q = inject_Z z ->
         (Z.abs z * Z.of_nat (n_instances_of t) < 2 ^ 53)%Z ->
         if (z =? 0)%Z then isnan d = true else feqb d fzero = true.
Proof.
  intros S N Hok Hi T A I.
  destruct (constant_column_entries m t i v col q S N Hok Hi T A I)
    as (m' & d & E & Mi & Ma & Di & Hq).
  exists m', d. repeat (split; [assumption|]).
  intros z -> _.
  assert (Z0 : Qeq_bool (inject_Z z) (0 # 1) = (z =? 0)%Z).
  { unfold Qeq_bool, inject_Z. simpl. rewrite Z.mul_1_r.
    destruct z; reflexivity. }
  rewrite Z0 in Hq. exact Hq.
Qed.
End Constant.

(** Counterexample to C5 as stated: the column [continuous_same] of the
    tests, five times 3.0, has Min and Max 3 and Dispersion zero, which is
    not NaN. *)
Lemma constant_column_dispersion_not_nan :
  match model_set_data initial_model (Some constant_table) with
  | Ok m => map isnan (_dispersion m) = [false]
            /\ map (feqb fzero) (_dispersion m) = [true]
  | Raise _ => False
  end.
Proof. vm_compute. split; reflexivity. Qed.

(* ------------------------------------------------------------------ *)
(** ** The statistics and the selection on the data of the tests *)
(* ------------------------------------------------------------------ *)

Lemma all_missing_column_witness :
  exists m',
    model_set_data initial_model (Some example_table) = Ok m'
    /\ nth_error (_min m') 2 = Some NaN
    /\ nth_error (_max m') 2 = Some NaN
    /\ nth_error (_missing m') 2 = Some (of_nat (n_instances m'))
    /\ if isinstance (fst continuous_all_missing) DiscreteVariable
       then nth_error (_dispersion m') 2 = Some fzero
       else nth_error (_center m') 2 = Some NaN
            /\ nth_error (_dispersion m') 2 = Some NaN.
Proof.
  apply (all_missing_column initial_model example_table 2
           (fst continuous_all_missing) (snd continuous_all_missing)).
  - vm_compute. reflexivity.
  - vm_compute. lia.
  - vm_compute. reflexivity.
  - vm_compute. reflexivity.
  - vm_compute. reflexivity.
Defined.

Lemma constant_column_witness :
  exists m' d,
    model_set_data initial_model (Some example_table) = Ok m'
    /\ nth_error (_min m') 3 = Some (Fin (inject_Z 3))
    /\ nth_error (_max m') 3 = Some (Fin (inject_Z 3))
    /\ nth_error (_dispersion m') 3 = Some d
    /\ forall z : Z,
         inject_Z 3 = inject_Z z ->
         (Z.abs z * Z.of_nat (n_instances_of example_table) < 2 ^ 53)%Z ->
         if (z =? 0)%Z then isnan d = true else feqb d fzero = true.
Proof.
  apply (constant_column initial_model example_table 3
           (fst continuous_same) (snd continuous_same) (inject_Z 3)).
  - vm_compute. reflexivity.
  - vm_compute. lia.
  - vm_compute. reflexivity.
  - vm_compute. reflexivity.
  - reflexivity.
  - repeat constructor; right; reflexivity.
  - left. reflexivity.
Defined.

Lemma selection_cleared_then_restored_witness :
  selected_rows (state_of second_data_sent) = []
  /\ selected_rows (state_of first_data_again)
     = selected_rows (state_of first_data_selected).
Proof.
  apply (selection_cleared_then_restored
           (state_of first_data_selected) (state_of second_data_sent)
           (state_of first_data_again) example_table other_table).
  - vm_compute. reflexivity.
  - intros E. apply (f_equal (fun d => length (attributes d))) in E.
    vm_compute in E. discriminate E.
  - vm_compute. reflexivity.
  - vm_compute. reflexivity.
  - vm_compute. reflexivity.
Defined.

(* ------------------------------------------------------------------ *)
(** ** One entry per row *)
(* ------------------------------------------------------------------ *)

Section Lengths.
Context `{SciPy}.

Lemma names_after_set_data (m m' : Model) (t : Table) :
  model_set_data m (Some t) = Ok m' ->
  _variable_types m' = map type_name (variables m')
  /\ _variable_names m' = map (fun var => lower (name var)) (variables m').
Proof.
  unfold model_set_data, __compute_statistics, bind. intros E.
  repeat match type of E with
         | match ?r with Ok _ => _ | Raise _ => _ end = _ =>
             destruct r; [|discriminate E]
         end.
  injection E as <-. split; reflexivity.
Qed.

(** For a table with at least one instance, of the right shape and with
    columns that can be computed, [set_data] leaves each of the five
    vectors, and each column that [sort] reads, with exactly [n_attributes]
    entries. *)
Lemma vectors_have_n_attributes_entries (m : Model) (t : Table) :
  table_shape t = true -> 1 <= n_instances_of t ->
  forallb column_ok (canonical t) = true ->
  exists m',
    model_set_data m (Some t) = Ok m'
    /\ length (_center m') = n_attributes m'
    /\ length (_dispersion m') = n_attributes m'
    /\ length (_min m') = n_attributes m'
    /\ length (_max m') = n_attributes m'
    /\ length (_missing m') = n_attributes m'
    /\ forall c, size (sortColumnData m' c) = n_attributes m'.
Proof.
  intros S N Hok.
  destruct (statistics_aligned m t S N Hok)
    as (m' & E & _ & NA & _ & V & Ec & Ed & Emin & Emax & Emis).
  destruct (names_after_set_data m m' t E) as [Ty Na].
  assert (Lc : length (_center m') = n_attributes m')
    by (rewrite Ec, NA; apply length_map).
  assert (Ld : length (_dispersion m') = n_attributes m')
    by (rewrite Ed, NA; apply length_map).
  assert (Lmin : length (_min m') = n_attributes m')
    by (rewrite Emin, NA; apply length_map).
  assert (Lmax : length (_max m') = n_attributes m')
    by (rewrite Emax, NA; apply length_map).
  assert (Lmis : length (_missing m') = n_attributes m')
    by (rewrite Emis, NA; apply length_map).
  exists m'. repeat (split; [assumption|]).
  intros c. destruct c; simpl; try assumption;
    rewrite ?Ty, ?Na, V, NA, !length_map; reflexivity.
Qed.
End Lengths.

(* ================================================================== *)
(** * Further properties of the code *)
(* ================================================================== *)

(* ------------------------------------------------------------------ *)
(** ** The order of the keys in the display order *)
(* ------------------------------------------------------------------ *)

Section OrderedInsertion.
Variable lt : nat -> nat -> bool.
Hypothesis lt_asym : forall a b, lt a b = true -> lt b a = false.
Hypothesis le_trans :
  forall a b c, lt b a = false -> lt c b = false -> lt c a = false.

Lemma insert_ordered i l :
  StronglySorted (fun a b => lt b a = false) l ->
  StronglySorted (fun a b => lt b a = false) (insert lt i l).
Proof.
  induction l as [|j l IH]; intros S; simpl.
  - constructor; constructor.
  - inversion S as [|? ? S' F]; subst.
    destruct (lt j i) eqn:E.
    + constructor; [apply IH, S'|].
      apply Forall_forall. intros x Hx.
      apply (Permutation_in _ (insert_perm lt i l)) in Hx.
      destruct Hx as [<- | Hx]; [apply lt_asym, E|].
      rewrite Forall_forall in F. apply F, Hx.
    + constructor; [exact S|]. constructor; [exact E|].
      eapply Forall_impl; [|exact F]. simpl.
      intros x Hx. apply (le_trans i j x); assumption.
Qed.

Lemma sort_ordered l :
  StronglySorted (fun a b => lt b a = false) (fold_right (insert lt) [] l).
Proof.
  induction l as [|a l IH]; simpl; [constructor|].
  apply insert_ordered, IH.
Qed.
End OrderedInsertion.

Lemma StronglySorted_nth (R : nat -> nat -> Prop) l p q d :
  StronglySorted R l -> p < q -> q < length l -> R (nth p l d) (nth q l d).
Proof.
  intros S. revert p q. induction S as [|a l S IH F]; intros p q Hpq Hq.
  - simpl in Hq. lia.
  - destruct q as [|q]; [lia|]. simpl in Hq. destruct p as [|p]; simpl.
    + rewrite Forall_forall in F. apply F, nth_In. lia.
    + apply IH; lia.
Qed.

Lemma StronglySorted_filter (R : nat -> nat -> Prop) (f : nat -> bool) l :
  StronglySorted R l -> StronglySorted R (filter f l).
Proof.
  induction 1 as [|a l S IH F]; simpl; [constructor|].
  destruct (f a); [|exact IH]. constructor; [exact IH|].
  apply Forall_forall. intros x Hx. apply filter_In in Hx as [Hx _].
  rewrite Forall_forall in F. apply F, Hx.
Qed.

Lemma StronglySorted_snoc (R : nat -> nat -> Prop) l a :
  StronglySorted R l -> Forall (fun x => R x a) l -> StronglySorted R (l ++ [a]).
Proof.
  induction 1 as [|b l S IH F]; intros Fa; simpl.
  - constructor; constructor.
  - inversion Fa as [|? ? Hb Fa']; subst. constructor; [apply IH, Fa'|].
    apply Forall_app. split; [exact F|]. constructor; [exact Hb|constructor].
Qed.

Lemma StronglySorted_rev (R : nat -> nat -> Prop) l :
  StronglySorted R l -> StronglySorted (fun a b => R b a) (rev l).
Proof.
  induction 1 as [|a l S IH F]; simpl; [constructor|].
  apply StronglySorted_snoc; [exact IH|].
  apply Forall_forall. intros x Hx. apply in_rev in Hx.
  rewrite Forall_forall in F. apply F, Hx.
Qed.

Lemma Qltb_asym p q : Qltb p q = true -> Qltb q p = false.
Proof.
  unfold Qltb. intros H. apply negb_true_iff in H. apply negb_false_iff.
  apply Qle_bool_iff.
  destruct (Qle_bool q p) eqn:E; [discriminate H|].
  destruct (Qlt_le_dec p q) as [L | L].
  - apply Qlt_le_weak, L.
  - apply Qle_bool_iff in L. congruence.
Qed.

Lemma Qltb_le_trans p q r :
  Qltb q p = false -> Qltb r q = false -> Qltb r p = false.
Proof.
  unfold Qltb. intros H1 H2.
  apply negb_false_iff, Qle_bool_iff in H1.
  apply negb_false_iff, Qle_bool_iff in H2.
  apply negb_false_iff, Qle_bool_iff. eapply Qle_trans; eassumption.
Qed.

Lemma np_lt_asym a b : np_lt a b = true -> np_lt b a = false.
Proof.
  unfold np_lt. destruct a, b; simpl; try reflexivity; try discriminate.
  rewrite !orb_false_r. apply Qltb_asym.
Qed.

Lemma np_le_trans a b c :
  np_lt b a = false -> np_lt c b = false -> np_lt c a = false.
Proof.
  unfold np_lt. destruct a, b, c; simpl; try reflexivity; try discriminate.
  rewrite !orb_false_r. apply Qltb_le_trans.
Qed.

(** The ascending order of a float array is ordered by the keys: no entry
    is followed by one that sorts strictly before it. *)
Lemma np_argsort_ordered (a : list float64) :
  StronglySorted
    (fun i j => np_lt (key_at a j) (key_at a i) = false)
    (np_argsort (FloatArray a)).
Proof.
  apply (sort_ordered (key_lt (FloatArray a))).
  - intros i j. apply np_lt_asym.
  - intros i j k. apply np_le_trans.
Qed.

(** X1. For every array of floats, so for each statistic column: in the
    ascending order no row is followed by a row that sorts strictly before
    it, and in the descending order a row displayed in front of a row with
    a key other than NaN never has the smaller key. *)
Theorem display_order_follows_keys (a : list float64) (p q : nat) :
  p < q -> q < length a ->
  np_lt (key_at a (nth q (_argsortData (FloatArray a) AscendingOrder) 0))
        (key_at a (nth p (_argsortData (FloatArray a) AscendingOrder) 0))
  = false
  /\ (isnan (key_at a (nth q (_argsortData (FloatArray a) DescendingOrder) 0))
      = false ->
      fltb (key_at a (nth p (_argsortData (FloatArray a) DescendingOrder) 0))
           (key_at a (nth q (_argsortData (FloatArray a) DescendingOrder) 0))
      = false).
Proof.
  intros Hpq Hq. split.
  - apply (StronglySorted_nth _ _ p q 0 (np_argsort_ordered a) Hpq).
    unfold np_argsort. rewrite stable_argsort_length. exact Hq.
  - rewrite argsortData_desc_float.
    set (s := np_argsort (FloatArray a)).
    set (E := filter (fun i => negb (isnan (key_at a i))) s).
    set (L := filter (fun i => isnan (key_at a i)) s).
    intros Nq.
    assert (HL : forall x, In x (rev L) -> isnan (key_at a x) = true).
    { intros x Hx. apply in_rev in Hx. apply filter_In in Hx. tauto. }
    assert (Len : length (rev E) + length (rev L) = length a).
    { rewrite <- length_app, <- rev_app_distr, length_rev.
      rewrite (Permutation_length (Permutation_app_comm L E)).
      unfold E, L.
      rewrite <- (late_tail_split (fun i => isnan (key_at a i)) s
                                  (np_argsort_late_tail a)).
      apply stable_argsort_length. }
    destruct (Nat.lt_ge_cases q (length (rev E))) as [In | Out].
    + rewrite !app_nth1 in * by lia.
      assert (S : StronglySorted
                    (fun i j => np_lt (key_at a i) (key_at a j) = false)
                    (rev E)).
      { apply (StronglySorted_rev
                 (fun i j => np_lt (key_at a j) (key_at a i) = false)).
        apply StronglySorted_filter, np_argsort_ordered. }
      pose proof (StronglySorted_nth _ _ p q 0 S Hpq In) as R.
      simpl in R. unfold np_lt in R. apply orb_false_iff in R. tauto.
    + rewrite (app_nth2 _ _ _ Out) in Nq.
      rewrite HL in Nq; [discriminate Nq|]. apply nth_In. lia.
Qed.

Lemma display_order_follows_keys_witness :
  np_lt (key_at [Fin (3 # 1); NaN; Fin (1 # 1); Fin (2 # 1)]
                (nth 1 (_argsortData
                          (FloatArray [Fin (3 # 1); NaN; Fin (1 # 1); Fin (2 # 1)])
                          AscendingOrder) 0))
        (key_at [Fin (3 # 1); NaN; Fin (1 # 1); Fin (2 # 1)]
                (nth 0 (_argsortData
                          (FloatArray [Fin (3 # 1); NaN; Fin (1 # 1); Fin (2 # 1)])
                          AscendingOrder) 0))
  = false
  /\ (isnan (key_at [Fin (3 # 1); NaN; Fin (1 # 1); Fin (2 # 1)]
                    (nth 1 (_argsortData
                              (FloatArray [Fin (3 # 1); NaN; Fin (1 # 1); Fin (2 # 1)])
                              DescendingOrder) 0))
      = false ->
      fltb (key_at [Fin (3 # 1); NaN; Fin (1 # 1); Fin (2 # 1)]
                   (nth 0 (_argsortData
                             (FloatArray [Fin (3 # 1); NaN; Fin (1 # 1); Fin (2 # 1)])
                             DescendingOrder) 0))
           (key_at [Fin (3 # 1); NaN; Fin (1 # 1); Fin (2 # 1)]
                   (nth 1 (_argsortData
                             (FloatArray [Fin (3 # 1); NaN; Fin (1 # 1); Fin (2 # 1)])
                             DescendingOrder) 0))
      = false).
Proof.
  apply (display_order_follows_keys
           [Fin (3 # 1); NaN; Fin (1 # 1); Fin (2 # 1)] 0 1).
  - lia.
  - simpl. lia.
Defined.

Lemma string_ltb_irrefl (s : string) : String.ltb s s = false.
Proof.
  unfold String.ltb.
  pose proof (String.compare_antisym s s) as A.
  destruct (String.compare s s); [reflexivity|discriminate A|reflexivity].
Qed.

Section NameOrder.
Context `{SciPy}.

(** X2. Sorting by name does not look at the case of the letters: after
    [set_data], two variables whose names agree once lowered tie on the
    Name column, so they keep their source order in an ascending sort and
    swap it in a descending sort. *)
Theorem name_sort_ignores_case (m m' : Model) (t : Table) (i j : nat) :
  model_set_data m (Some t) = Ok m' ->
  i < j -> j < length (variables m') ->
  lower (name (nth i (variables m') no_var))
  = lower (name (nth j (variables m') no_var)) ->
  before (_argsortData (sortColumnData m' NAME) AscendingOrder) i j
  /\ before (_argsortData (sortColumnData m' NAME) DescendingOrder) j i.
Proof.
  intros E Hij Hj Same.
  destruct (names_after_set_data m m' t E) as [_ Na].
  assert (K : key_lt (sortColumnData m' NAME) j i = false).
  { assert (Nth : forall k, nth k (_variable_names m') ""
                            = lower (name (nth k (variables m') no_var))).
    { intros k. rewrite Na.
      exact (map_nth (fun var => lower (name var)) (variables m') no_var k). }
    unfold key_lt, sortColumnData. rewrite !Nth, Same.
    apply string_ltb_irrefl. }
  assert (B : before (np_argsort (sortColumnData m' NAME)) i j).
  { apply np_argsort_stable; [exact Hij| |exact K].
    simpl. rewrite Na, length_map. exact Hj. }
  split; [exact B|]. simpl. apply before_rev, B.
Qed.
End NameOrder.

Lemma name_sort_ignores_case_witness :
  before (_argsortData (sortColumnData (model_of mixed_case_table) NAME)
                       AscendingOrder) 0 1
  /\ before (_argsortData (sortColumnData (model_of mixed_case_table) NAME)
                          DescendingOrder) 1 0.
Proof.
  apply (name_sort_ignores_case initial_model (model_of mixed_case_table)
                                mixed_case_table 0 1).
  - vm_compute. reflexivity.
  - lia.
  - vm_compute. lia.
  - vm_compute. reflexivity.
Defined.

(* ------------------------------------------------------------------ *)
(** ** The index lists of [_attr_indices] *)

Lemma isinstance_cases (attr : Var) :
  (is_disc attr = true /\ is_cont attr = false /\ is_time attr = false
   /\ is_string attr = false)
  \/ (is_disc attr = false /\ is_cont attr = true /\ is_time attr = false
      /\ is_string attr = false)
  \/ (is_disc attr = false /\ is_cont attr = false /\ is_time attr = true
      /\ is_string attr = false)
  \/ (is_disc attr = false /\ is_cont attr = false /\ is_time attr = false
      /\ is_string attr = true).
Proof.
  unfold is_disc, is_cont, is_time, is_string, isinstance.
  destruct (var_type attr); simpl; tauto.
Qed.

Lemma four_filters_perm {A : Type} (p1 p2 p3 p4 : A -> bool) (l : list A) :
  (forall x, In x l ->
     (p1 x = true /\ p2 x = false /\ p3 x = false /\ p4 x = false)
     \/ (p1 x = false /\ p2 x = true /\ p3 x = false /\ p4 x = false)
     \/ (p1 x = false /\ p2 x = false /\ p3 x = true /\ p4 x = false)
     \/ (p1 x = false /\ p2 x = false /\ p3 x = false /\ p4 x = true)) ->
  Permutation (filter p1 l ++ filter p2 l ++ filter p3 l ++ filter p4 l) l.
Proof.
  induction l as [|x l IH]; intros Hx; [constructor|].
  assert (IH' := IH (fun y Hy => Hx y (or_intror Hy))).
  simpl.
  destruct (Hx x (or_introl eq_refl))
    as [(-> & -> & -> & ->)|[(-> & -> & -> & ->)|[(-> & -> & -> & ->)
                                                  |(-> & -> & -> & ->)]]].
  - simpl. constructor. exact IH'.
  - symmetry. apply Permutation_cons_app. symmetry. exact IH'.
  - symmetry. rewrite app_assoc. apply Permutation_cons_app.
    rewrite <- app_assoc. symmetry. exact IH'.
  - symmetry. rewrite !app_assoc. apply Permutation_cons_app.
    rewrite <- !app_assoc. symmetry. exact IH'.
Qed.

(** X3. [_attr_indices] sorts the positions of a list of variables into four
    lists that together hold every position exactly once: a time variable is
    listed as time and not as continuous, and no variable is left out. *)
Theorem attr_indices_partition (attrs : list Var) :
  let '(disc_idx, cont_idx, time_idx, str_idx) := _attr_indices attrs in
  Permutation (disc_idx ++ cont_idx ++ time_idx ++ str_idx)
              (seq 0 (length attrs)).
Proof.
  unfold _attr_indices, indices_where.
  rewrite <- !map_app.
  set (l := combine (seq 0 (length attrs)) attrs).
  assert (F : map fst l = seq 0 (length attrs)).
  { unfold l. clear l. generalize 0.
    induction attrs as [|a attrs IH]; intros s; simpl; [reflexivity|].
    f_equal. apply IH. }
  rewrite <- F. apply Permutation_map.
  apply (four_filters_perm (fun iv => is_disc (snd iv))
                           (fun iv => is_cont (snd iv))
                           (fun iv => is_time (snd iv))
                           (fun iv => is_string (snd iv))).
  intros x _. apply isinstance_cases.
Qed.

(* ------------------------------------------------------------------ *)
(** ** The variables that are kept, and their columns *)

Lemma map_fst_filter_combine {A B : Type} (p : A -> bool)
      (l1 : list A) (l2 : list B) :
  length l2 = length l1 ->
  map fst (filter (fun ab => p (fst ab)) (combine l1 l2)) = filter p l1.
Proof.
  revert l2. induction l1 as [|a l1 IH]; intros [|b l2] L; simpl in *;
    try reflexivity; try discriminate L.
  injection L as L. destruct (p a); simpl; rewrite (IH l2 L); reflexivity.
Qed.

(** X4. [__filter_attributes], for a matrix with one column per variable,
    keeps the variables that are neither text nor time, in their order,
    keeps the rows, and leaves every kept variable paired with its own
    column. *)
Theorem filter_attributes_keeps_shown (attrs : list Var) (x : Matrix) :
  length (columns x) = length attrs ->
  fst (__filter_attributes attrs x)
  = filter (fun attr => negb (is_hidden attr)) attrs
  /\ n_rows (snd (__filter_attributes attrs x)) = n_rows x
  /\ combine (fst (__filter_attributes attrs x))
             (columns (snd (__filter_attributes attrs x)))
     = filter (fun vc => negb (is_hidden (fst vc))) (combine attrs (columns x)).
Proof.
  intros L. rewrite (filter_attributes_visible attrs x L). simpl.
  split; [|split].
  - unfold visible.
    apply (map_fst_filter_combine (fun attr => negb (is_hidden attr))). exact L.
  - reflexivity.
  - apply combine_fst_snd.
Qed.

Lemma filter_attributes_keeps_shown_witness :
  fst (__filter_attributes (attributes (domain hidden_first_table))
                           (X hidden_first_table))
  = filter (fun attr => negb (is_hidden attr))
           (attributes (domain hidden_first_table))
  /\ n_rows (snd (__filter_attributes (attributes (domain hidden_first_table))
                                      (X hidden_first_table)))
     = n_rows (X hidden_first_table)
  /\ combine (fst (__filter_attributes (attributes (domain hidden_first_table))
                                       (X hidden_first_table)))
             (columns (snd (__filter_attributes
                              (attributes (domain hidden_first_table))
                              (X hidden_first_table))))
     = filter (fun vc => negb (is_hidden (fst vc)))
              (combine (attributes (domain hidden_first_table))
                       (columns (X hidden_first_table))).
Proof.
  apply (filter_attributes_keeps_shown (attributes (domain hidden_first_table))
                                       (X hidden_first_table)).
  reflexivity.
Defined.

(* ------------------------------------------------------------------ *)
(** ** [__compute_stat], entry by entry *)

(** X5. [__compute_stat] works on whole matrices, one call of a reducer per
    type and group.  For groups with at least one row and one column per
    variable, and reducers that treat the columns one by one, the array it
    returns holds, group after group and variable after variable, the value
    of the reducer of the variable's type on the variable's own column, and
    the default where no reducer is given for the type. *)
Theorem compute_stat_entry_by_entry rd rc rt rs gd gc gt gs
        (default : float64) (matrices : list Group)
        (stat : Var * list Cell -> float64) :
  columnwise rd gd -> columnwise rc gc -> columnwise rt gt ->
  columnwise_cells rs gs ->
  (forall g, In g matrices ->
             1 <= n_rows (snd g) /\ length (columns (snd g)) = length (fst g)) ->
  (forall g vc, In g matrices -> In vc (group_columns g) ->
                entry_of gd gc gt gs default (fst vc) (snd vc) = Ok (stat vc)) ->
  __compute_stat matrices rd rc rt rs default
  = Ok (map stat (concat (map group_columns matrices))).
Proof.
  intros Cd Cc Ct Cs Shape En.
  assert (G : mapM (compute_stat_group rd rc rt rs default) matrices
              = Ok (map (fun g => map stat (group_columns g)) matrices)).
  { apply mapM_ok. intros [vars x] Hg.
    destruct (Shape _ Hg) as [rows cols]. simpl in rows, cols.
    apply (compute_stat_group_refines rd rc rt rs gd gc gt gs); auto.
    apply mapM_ok. intros vc Hvc. exact (En _ vc Hg Hvc). }
  unfold __compute_stat. destruct matrices as [|g gs']; [reflexivity|].
  rewrite G. unfold bind. f_equal.
  rewrite concat_map, map_map. reflexivity.
Qed.

Lemma compute_stat_entry_by_entry_witness :
  __compute_stat
    [([fst continuous_missing; fst rgb_missing],
      {| n_rows := 5;
         columns := [snd continuous_missing; snd rgb_missing] |})]
    (Some (per_column nanmin)) (Some (per_column nanmin)) None None NaN
  = Ok (map (fun vc => nanmin (floats_of (snd vc)))
            (concat (map group_columns
                         [([fst continuous_missing; fst rgb_missing],
                           {| n_rows := 5;
                              columns := [snd continuous_missing;
                                          snd rgb_missing] |})]))).
Proof.
  apply (compute_stat_entry_by_entry
           (Some (per_column nanmin)) (Some (per_column nanmin)) None None
           (Some (fun c => Ok (nanmin c))) (Some (fun c => Ok (nanmin c)))
           None None).
  - exact (columnwise_per_column nanmin).
  - exact (columnwise_per_column nanmin).
  - exact I.
  - exact I.
  - intros g [<-|[]]. simpl. lia.
  - intros g vc [<-|[]] [<-|[<-|[]]]; reflexivity.
Defined.

(* ------------------------------------------------------------------ *)
(** ** Min and Max bound the values that are present *)

Lemma fltb_irrefl a : fltb a a = false.
Proof.
  destruct a as [| |q|]; simpl; try reflexivity.
  unfold Qltb. apply negb_false_iff, Qle_bool_iff, Qle_refl.
Qed.

Lemma fltb_asym a b : fltb a b = true -> fltb b a = false.
Proof.
  destruct a as [| |p|], b as [| |q|]; simpl; intros E;
    try reflexivity; try discriminate E.
  apply Qltb_asym. exact E.
Qed.

Lemma fle_trans a b c :
  isnan b = false ->
  fltb b a = false -> fltb c b = false -> fltb c a = false.
Proof.
  destruct a as [| |p|], b as [| |q|], c as [| |r|]; simpl; intros Nb E1 E2;
    try reflexivity; try discriminate.
  apply (Qltb_le_trans p q r); assumption.
Qed.

Lemma fmin_cases a b : fmin a b = a \/ fmin a b = b.
Proof. unfold fmin. destruct (fltb b a); auto. Qed.

Lemma fmax_cases a b : fmax a b = a \/ fmax a b = b.
Proof. unfold fmax. destruct (fltb a b); auto. Qed.

Lemma fmin_le a b : fltb a (fmin a b) = false /\ fltb b (fmin a b) = false.
Proof.
  unfold fmin. destruct (fltb b a) eqn:E.
  - split; [apply fltb_asym; exact E | apply fltb_irrefl].
  - split; [apply fltb_irrefl | exact E].
Qed.

Lemma fmax_ge a b : fltb (fmax a b) a = false /\ fltb (fmax a b) b = false.
Proof.
  unfold fmax. destruct (fltb a b) eqn:E.
  - split; [apply fltb_asym; exact E | apply fltb_irrefl].
  - split; [apply fltb_irrefl | exact E].
Qed.

Lemma fold_fmin_least (xs : list float64) (x : float64) :
  Forall (fun y => isnan y = false) (x :: xs) ->
  In (fold_left fmin xs x) (x :: xs)
  /\ forall y, In y (x :: xs) -> fltb y (fold_left fmin xs x) = false.
Proof.
  revert x. induction xs as [|a xs IH]; intros x F.
  - simpl. split; [auto|]. intros y [<-|[]]. apply fltb_irrefl.
  - inversion F as [|? ? Nx F']. inversion F' as [|? ? Na F''].
    subst. simpl fold_left.
    assert (Nm : isnan (fmin x a) = false).
    { destruct (fmin_cases x a) as [->| ->]; assumption. }
    destruct (IH (fmin x a) (Forall_cons _ Nm F'')) as [I L].
    destruct (fmin_le x a) as [Lx La].
    split.
    + destruct I as [I|I].
      * rewrite <- I. destruct (fmin_cases x a) as [->| ->]; simpl; auto.
      * right. right. exact I.
    + intros y [<-|[<-|Hy]].
      * apply (fle_trans _ (fmin x a) _ Nm); [apply L; left; reflexivity|exact Lx].
      * apply (fle_trans _ (fmin x a) _ Nm); [apply L; left; reflexivity|exact La].
      * apply L. right. exact Hy.
Qed.

Lemma fold_fmax_greatest (xs : list float64) (x : float64) :
  Forall (fun y => isnan y = false) (x :: xs) ->
  In (fold_left fmax xs x) (x :: xs)
  /\ forall y, In y (x :: xs) -> fltb (fold_left fmax xs x) y = false.
Proof.
  revert x. induction xs as [|a xs IH]; intros x F.
  - simpl. split; [auto|]. intros y [<-|[]]. apply fltb_irrefl.
  - inversion F as [|? ? Nx F']. inversion F' as [|? ? Na F''].
    subst. simpl fold_left.
    assert (Nm : isnan (fmax x a) = false).
    { destruct (fmax_cases x a) as [->| ->]; assumption. }
    destruct (IH (fmax x a) (Forall_cons _ Nm F'')) as [I L].
    destruct (fmax_ge x a) as [Lx La].
    split.
    + destruct I as [I|I].
      * rewrite <- I. destruct (fmax_cases x a) as [->| ->]; simpl; auto.
      * right. right. exact I.
    + intros y [<-|[<-|Hy]].
      * apply (fle_trans _ (fmax x a) _ Nm); [exact Lx|apply L; left; reflexivity].
      * apply (fle_trans _ (fmax x a) _ Nm); [exact La|apply L; left; reflexivity].
      * apply L. right. exact Hy.
Qed.

Lemma filter_notnan_Forall (c : list float64) :
  Forall (fun y => isnan y = false) (filter notnan c).
Proof.
  apply Forall_forall. intros y Hy. apply filter_In in Hy as [_ Hy].
  unfold notnan in Hy. apply negb_true_iff. exact Hy.
Qed.

(** The least and the greatest of the values of a column that are not NaN. *)
Lemma nanmin_least (c : list float64) (x : float64) :
  In x c -> isnan x = false ->
  In (nanmin c) c /\ isnan (nanmin c) = false
  /\ forall y, In y c -> isnan y = false -> fltb y (nanmin c) = false.
Proof.
  intros Hx Nx. unfold nanmin.
  assert (Hf : In x (filter notnan c)).
  { apply filter_In. split; [exact Hx|]. unfold notnan. rewrite Nx. reflexivity. }
  pose proof (filter_notnan_Forall c) as F.
  destruct (filter notnan c) as [|a xs] eqn:E; [destruct Hf|].
  destruct (fold_fmin_least xs a F) as [I L].
  assert (Sub : forall y, In y (a :: xs) -> In y c /\ isnan y = false).
  { intros y Hy. rewrite <- E in Hy. apply filter_In in Hy as [Hy Ny].
    split; [exact Hy|]. unfold notnan in Ny. apply negb_true_iff. exact Ny. }
  split; [apply Sub, I|]. split; [apply Sub, I|].
  intros y Hy Ny. apply L. rewrite <- E. apply filter_In.
  split; [exact Hy|]. unfold notnan. rewrite Ny. reflexivity.
Qed.

Lemma nanmax_greatest (c : list float64) (x : float64) :
  In x c -> isnan x = false ->
  In (nanmax c) c /\ isnan (nanmax c) = false
  /\ forall y, In y c -> isnan y = false -> fltb (nanmax c) y = false.
Proof.
  intros Hx Nx. unfold nanmax.
  assert (Hf : In x (filter notnan c)).
  { apply filter_In. split; [exact Hx|]. unfold notnan. rewrite Nx. reflexivity. }
  pose proof (filter_notnan_Forall c) as F.
  destruct (filter notnan c) as [|a xs] eqn:E; [destruct Hf|].
  destruct (fold_fmax_greatest xs a F) as [I L].
  assert (Sub : forall y, In y (a :: xs) -> In y c /\ isnan y = false).
  { intros y Hy. rewrite <- E in Hy. apply filter_In in Hy as [Hy Ny].
    split; [exact Hy|]. unfold notnan in Ny. apply negb_true_iff. exact Ny. }
  split; [apply Sub, I|]. split; [apply Sub, I|].
  intros y Hy Ny. apply L. rewrite <- E. apply filter_In.
  split; [exact Hy|]. unfold notnan. rewrite Ny. reflexivity.
Qed.

(** The cells of a column of numbers and the floats read from it. *)
Lemma floats_cells (col : list Cell) (c : list float64) :
  floats col = Ok c -> col = map Num c.
Proof.
  unfold floats. intros E. apply mapM_inv in E.
  induction E as [|a b col c Hab _ IH]; [reflexivity|].
  simpl. rewrite <- IH. destruct a as [x|s]; simpl in Hab; [|discriminate Hab].
  injection Hab as <-. reflexivity.
Qed.

Lemma column_ok_cells (v : Var) (col : list Cell) :
  column_ok (v, col) = true -> col = map Num (floats_of col).
Proof.
  unfold column_ok, floats_of. simpl.
  destruct (floats col) as [c|e] eqn:E; [|discriminate].
  intros _. apply floats_cells. exact E.
Qed.

Lemma in_map_Num (x : float64) (c : list float64) :
  In (Num x) (map Num c) <-> In x c.
Proof.
  split.
  - intros I. apply in_map_iff in I as (y & E & I). injection E as <-. exact I.
  - apply in_map.
Qed.

Section RowStatistics.
Context `{SciPy}.

(** The model after [set_data], read at one row. *)
Lemma aligned_row (m : Model) (t : Table) (i : nat) (v : Var) (col : list Cell) :
  table_shape t = true -> 1 <= n_instances_of t ->
  forallb column_ok (canonical t) = true ->
  nth_error (canonical t) i = Some (v, col) ->
  exists m',
    model_set_data m (Some t) = Ok m'
    /\ table m' = Some t
    /\ n_attributes m' = length (canonical t)
    /\ n_instances m' = n_instances_of t
    /\ variables m' = map fst (canonical t)
    /\ nth_error (variables m') i = Some v
    /\ nth_error (_center m') i = Some (center_of v (floats_of col))
    /\ nth_error (_dispersion m') i = Some (dispersion_of v (floats_of col))
    /\ nth_error (_min m') i = Some (nanmin (floats_of col))
    /\ nth_error (_max m') i = Some (nanmax (floats_of col))
    /\ nth_error (_missing m') i = Some (countnans (floats_of col))
    /\ col = map Num (floats_of col)
    /\ length col = n_instances_of t.
Proof.
  intros S N Hok Hi.
  destruct (statistics_aligned m t S N Hok)
    as (m' & E & Ta & Na & Ni & Va & Ce & Di & Mi & Ma & Ms).
  exists m'. rewrite Ce, Di, Mi, Ma, Ms, Va. unfold vector_of.
  rewrite !nth_error_map, Hi. simpl.
  repeat (split; [first [assumption | reflexivity]|]).
  assert (I : In (v, col) (canonical t)) by (eapply nth_error_In; exact Hi).
  split.
  - apply (column_ok_cells v). rewrite forallb_forall in Hok. apply Hok, I.
  - apply (canonical_column_length t (v, col) S I).
Qed.

(** X6. After [set_data] on a table with at least one instance whose
    columns can be computed, the model has one row per shown variable, in
    the canonical order, and row [i] of each of the five vectors holds the
    statistic of the variable of row [i], computed from that variable's own
    column: mode or mean, entropy or coefficient of variation, least and
    greatest present value, number of missing values. *)
Theorem set_data_aligns_rows (m : Model) (t : Table) (i : nat)
        (v : Var) (col : list Cell) :
  table_shape t = true -> 1 <= n_instances_of t ->
  forallb column_ok (canonical t) = true ->
  nth_error (canonical t) i = Some (v, col) ->
  exists m',
    model_set_data m (Some t) = Ok m'
    /\ rowCount m' = length (canonical t)
    /\ nth_error (variables m') i = Some v
    /\ nth_error (_center m') i
       = Some (if isinstance v DiscreteVariable
               then ss_mode (floats_of col) else nanmean (floats_of col))
    /\ nth_error (_dispersion m') i
       = Some (if isinstance v DiscreteVariable
               then value_of (categorical_entropy_col (floats_of col))
               else coefficient_of_variation (floats_of col))
    /\ nth_error (_min m') i = Some (nanmin (floats_of col))
    /\ nth_error (_max m') i = Some (nanmax (floats_of col))
    /\ nth_error (_missing m') i = Some (countnans (floats_of col)).
Proof.
  intros S N Hok Hi.
  destruct (aligned_row m t i v col S N Hok Hi)
    as (m' & E & _ & Na & _ & _ & Vi & Ce & Di & Mi & Ma & Ms & _).
  exists m'. unfold rowCount. repeat (split; [assumption|]). exact Ms.
Qed.

(** X7. After [set_data], Min and Max of a shown column that holds a value
    other than NaN are themselves values of the column, are not NaN, and
    bound every value of the column that is not NaN. *)
Theorem min_max_bound_present_values (m : Model) (t : Table) (i : nat)
        (v : Var) (col : list Cell) (x : float64) :
  table_shape t = true -> 1 <= n_instances_of t ->
  forallb column_ok (canonical t) = true ->
  nth_error (canonical t) i = Some (v, col) ->
  In (Num x) col -> isnan x = false ->
  exists m' lo hi,
    model_set_data m (Some t) = Ok m'
    /\ nth_error (_min m') i = Some lo
    /\ nth_error (_max m') i = Some hi
    /\ In (Num lo) col /\ In (Num hi) col
    /\ isnan lo = false /\ isnan hi = false
    /\ forall y, In (Num y) col -> isnan y = false ->
                 fltb y lo = false /\ fltb hi y = false.
Proof.
  intros S N Hok Hi Hx Nx.
  destruct (aligned_row m t i v col S N Hok Hi)
    as (m' & E & _ & _ & _ & _ & _ & _ & _ & Mi & Ma & _ & Cells & _).
  assert (InC : forall y, In (Num y) col <-> In y (floats_of col)).
  { intros y. rewrite Cells at 1. apply in_map_Num. }
  apply InC in Hx.
  destruct (nanmin_least _ x Hx Nx) as (Il & Nl & Ll).
  destruct (nanmax_greatest _ x Hx Nx) as (Ih & Nh & Lh).
  exists m', (nanmin (floats_of col)), (nanmax (floats_of col)).
  repeat (split; [assumption|]).
  split; [apply InC; exact Il|]. split; [apply InC; exact Ih|].
  split; [exact Nl|]. split; [exact Nh|].
  intros y Hy Ny. apply InC in Hy.
  split; [apply Ll | apply Lh]; assumption.
Qed.

Lemma nan_notnan_length (c : list float64) :
  length (filter isnan c) + length (filter notnan c) = length c.
Proof.
  induction c as [|a c IH]; simpl; [reflexivity|].
  unfold notnan at 1. destruct (isnan a); simpl; lia.
Qed.

Lemma filter_cell_is_nan (c : list float64) :
  length (filter cell_is_nan (map Num c)) = length (filter isnan c).
Proof.
  induction c as [|a c IH]; simpl; [reflexivity|].
  destruct a; simpl; rewrite IH; reflexivity.
Qed.

Lemma nanmin_nan_iff (c : list float64) :
  nanmin c = NaN <-> filter notnan c = [].
Proof.
  split.
  - intros E. destruct (filter notnan c) as [|a xs] eqn:F; [reflexivity|].
    assert (Ia : In a (filter notnan c)) by (rewrite F; left; reflexivity).
    apply filter_In in Ia as [Ia Na]. unfold notnan in Na.
    apply negb_true_iff in Na.
    destruct (nanmin_least c a Ia Na) as (_ & Nn & _).
    rewrite E in Nn. discriminate Nn.
  - intros F. unfold nanmin. rewrite F. reflexivity.
Qed.

Lemma nanmax_nan_iff (c : list float64) :
  nanmax c = NaN <-> filter notnan c = [].
Proof.
  split.
  - intros E. destruct (filter notnan c) as [|a xs] eqn:F; [reflexivity|].
    assert (Ia : In a (filter notnan c)) by (rewrite F; left; reflexivity).
    apply filter_In in Ia as [Ia Na]. unfold notnan in Na.
    apply negb_true_iff in Na.
    destruct (nanmax_greatest c a Ia Na) as (_ & Nn & _).
    rewrite E in Nn. discriminate Nn.
  - intros F. unfold nanmax. rewrite F. reflexivity.
Qed.

(** X8. After [set_data], the Missing entry of a shown column is the number
    of its cells that are NaN, a whole number between zero and the number
    of instances; it equals the number of instances exactly when Min is
    NaN, and exactly when Max is NaN. *)
Theorem missing_counts_nan_cells (m : Model) (t : Table) (i : nat)
        (v : Var) (col : list Cell) :
  table_shape t = true -> 1 <= n_instances_of t ->
  forallb column_ok (canonical t) = true ->
  nth_error (canonical t) i = Some (v, col) ->
  exists m',
    model_set_data m (Some t) = Ok m'
    /\ nth_error (_missing m') i
       = Some (of_nat (length (filter cell_is_nan col)))
    /\ length (filter cell_is_nan col) <= n_instances m'
    /\ (length (filter cell_is_nan col) = n_instances m'
        <-> nth_error (_min m') i = Some NaN)
    /\ (length (filter cell_is_nan col) = n_instances m'
        <-> nth_error (_max m') i = Some NaN).
Proof.
  intros S N Hok Hi.
  destruct (aligned_row m t i v col S N Hok Hi)
    as (m' & E & _ & _ & Ni & _ & _ & _ & _ & Mi & Ma & Ms & Cells & Len).
  exists m'. rewrite Mi, Ma, Ms, Ni. clear Mi Ma Ms.
  set (c := floats_of col) in *.
  assert (K : length (filter cell_is_nan col) = length (filter isnan c)).
  { rewrite Cells. apply filter_cell_is_nan. }
  assert (L : length c = n_instances_of t).
  { rewrite <- Len, Cells, length_map. reflexivity. }
  pose proof (nan_notnan_length c) as P.
  rewrite K. split; [exact E|]. split; [reflexivity|]. split; [lia|].
  assert (Z : length (filter isnan c) = n_instances_of t
              <-> filter notnan c = []).
  { split.
    - intros A. apply length_zero_iff_nil. lia.
    - intros A. rewrite A in P. simpl in P. lia. }
  split.
  - rewrite Z, <- nanmin_nan_iff. split; [intros ->; reflexivity|].
    intros A. injection A as A. exact A.
  - rewrite Z, <- nanmax_nan_iff. split; [intros ->; reflexivity|].
    intros A. injection A as A. exact A.
Qed.

End RowStatistics.

Lemma set_data_aligns_rows_witness :
  exists m',
    model_set_data initial_model (Some example_table) = Ok m'
    /\ rowCount m' = length (canonical example_table)
    /\ nth_error (variables m') 5 = Some (fst rgb_missing)
    /\ nth_error (_center m') 5
       = Some (if isinstance (fst rgb_missing) DiscreteVariable
               then ss_mode (floats_of (snd rgb_missing))
               else nanmean (floats_of (snd rgb_missing)))
    /\ nth_error (_dispersion m') 5
       = Some (if isinstance (fst rgb_missing) DiscreteVariable
               then value_of (categorical_entropy_col
                                (floats_of (snd rgb_missing)))
               else coefficient_of_variation (floats_of (snd rgb_missing)))
    /\ nth_error (_min m') 5 = Some (nanmin (floats_of (snd rgb_missing)))
    /\ nth_error (_max m') 5 = Some (nanmax (floats_of (snd rgb_missing)))
    /\ nth_error (_missing m') 5
       = Some (countnans (floats_of (snd rgb_missing))).
Proof.
  apply (set_data_aligns_rows initial_model example_table 5
                              (fst rgb_missing) (snd rgb_missing)).
  - vm_compute. reflexivity.
  - vm_compute. lia.
  - vm_compute. reflexivity.
  - vm_compute. reflexivity.
Defined.

Lemma min_max_bound_present_values_witness :
  exists m' lo hi,
    model_set_data initial_model (Some example_table) = Ok m'
    /\ nth_error (_min m') 1 = Some lo
    /\ nth_error (_max m') 1 = Some hi
    /\ In (Num lo) (snd continuous_missing)
    /\ In (Num hi) (snd continuous_missing)
    /\ isnan lo = false /\ isnan hi = false
    /\ forall y, In (Num y) (snd continuous_missing) -> isnan y = false ->
                 fltb y lo = false /\ fltb hi y = false.
Proof.
  apply (min_max_bound_present_values initial_model example_table 1
           (fst continuous_missing) (snd continuous_missing)
           (Fin (inject_Z 2))).
  - vm_compute. reflexivity.
  - vm_compute. lia.
  - vm_compute. reflexivity.
  - vm_compute. reflexivity.
  - simpl. auto.
  - reflexivity.
Defined.

Lemma missing_counts_nan_cells_witness :
  exists m',
    model_set_data initial_model (Some example_table) = Ok m'
    /\ nth_error (_missing m') 1
       = Some (of_nat (length (filter cell_is_nan (snd continuous_missing))))
    /\ length (filter cell_is_nan (snd continuous_missing)) <= n_instances m'
    /\ (length (filter cell_is_nan (snd continuous_missing)) = n_instances m'
        <-> nth_error (_min m') 1 = Some NaN)
    /\ (length (filter cell_is_nan (snd continuous_missing)) = n_instances m'
        <-> nth_error (_max m') 1 = Some NaN).
Proof.
  apply (missing_counts_nan_cells initial_model example_table 1
           (fst continuous_missing) (snd continuous_missing)).
  - vm_compute. reflexivity.
  - vm_compute. lia.
  - vm_compute. reflexivity.
  - vm_compute. reflexivity.
Defined.

(* ------------------------------------------------------------------ *)
(** ** The statistics matrix *)

Lemma position_some (v : Var) (l : list Var) (j : nat) :
  position v l = Some j -> nth_error l j = Some v.
Proof.
  revert j. induction l as [|x l IH]; intros j E; simpl in E; [discriminate E|].
  destruct (Var_eq_dec v x) as [->|D].
  - injection E as <-. reflexivity.
  - destruct (position v l) as [i|]; [|discriminate E].
    injection E as <-. simpl. apply IH. reflexivity.
Qed.

Lemma position_in (v : Var) (l : list Var) :
  In v l -> exists j, position v l = Some j.
Proof.
  induction l as [|x l IH]; intros I; [destruct I|]. simpl.
  destruct (Var_eq_dec v x) as [->|D]; [exists 0; reflexivity|].
  destruct I as [->|I]; [contradiction D; reflexivity|].
  destruct (IH I) as [j ->]. exists (S j). reflexivity.
Qed.

Lemma position_none (v : Var) (l : list Var) :
  ~ In v l -> position v l = None.
Proof.
  intros N. destruct (position v l) as [j|] eqn:E; [|reflexivity].
  apply position_some, nth_error_In in E. contradiction.
Qed.

Lemma vstack_T_map {A : Type} (f1 f2 f3 f4 f5 : A -> float64) (l : list A) :
  vstack_T (map f1 l) (map f2 l) (map f3 l) (map f4 l) (map f5 l)
  = map (fun x => [f1 x; f2 x; f3 x; f4 x; f5 x]) l.
Proof. induction l as [|x l IH]; simpl; [reflexivity|]. rewrite IH. reflexivity. Qed.

Lemma filter_true {A : Type} (p : A -> bool) (l : list A) :
  forallb p l = true -> filter p l = l.
Proof.
  induction l as [|a l IH]; simpl; [reflexivity|].
  intros E. apply andb_true_iff in E as [-> E]. rewrite (IH E). reflexivity.
Qed.

Lemma item_of_nat (vec : list float64) (j : nat) :
  j < length vec -> item vec (Z.of_nat j) = Ok (nth j vec NaN).
Proof.
  intros L. unfold item.
  replace (Z.of_nat j <? 0)%Z with false by (symmetry; apply Z.ltb_ge; lia).
  replace (Z.of_nat j <? 0)%Z with false by (symmetry; apply Z.ltb_ge; lia).
  replace (Z.of_nat (length vec) <=? Z.of_nat j)%Z with false
    by (symmetry; apply Z.leb_gt; lia).
  simpl. rewrite Nat2Z.id. reflexivity.
Qed.

(** [domain.index] never raises anything but a ValueError. *)
Lemma mapM_domain_index_raise (d : Domain) (vars : list Var) (v : Var) :
  In v vars -> domain_index d v = Raise ValueError ->
  mapM (domain_index d) vars = Raise ValueError.
Proof.
  induction vars as [|x vars IH]; intros I E; [destruct I|]. simpl.
  destruct (domain_index d x) as [z|e] eqn:Ex.
  - destruct I as [->|I]; [rewrite E in Ex; discriminate Ex|].
    simpl. rewrite (IH I E). reflexivity.
  - unfold domain_index in Ex.
    destruct (position x (metas d)); [discriminate Ex|].
    destruct (position x (attributes d ++ class_vars d)); [discriminate Ex|].
    injection Ex as <-. reflexivity.
Qed.

(** X11. With a table set, asking [get_statistics_matrix] for a variable
    that is in no part of the domain raises ValueError, whatever the other
    variables of the request and with or without labels. *)
Theorem statistics_matrix_unknown_variable (m : Model) (t : Table)
        (vars : list Var) (v : Var) (return_labels : bool) :
  table m = Some t -> In v vars ->
  ~ In v (attributes (domain t) ++ class_vars (domain t) ++ metas (domain t)) ->
  get_statistics_matrix m (Some vars) return_labels = Raise ValueError.
Proof.
  intros T I N. unfold get_statistics_matrix. rewrite T.
  assert (E : domain_index (domain t) v = Raise ValueError).
  { unfold domain_index.
    rewrite (position_none v (metas (domain t))).
    - rewrite (position_none v (attributes (domain t) ++ class_vars (domain t)));
        [reflexivity|].
      intros H. apply N. rewrite app_assoc. apply in_or_app. left. exact H.
    - intros H. apply N. apply in_or_app. right. apply in_or_app. right. exact H. }
  destruct vars as [|x vs]; [destruct I|].
  rewrite (mapM_domain_index_raise _ _ v I E). reflexivity.
Qed.

Lemma statistics_matrix_unknown_variable_witness :
  get_statistics_matrix example_model
    (Some [fst continuous_full; continuous_var "elsewhere"]) true
  = Raise ValueError.
Proof.
  apply (statistics_matrix_unknown_variable example_model example_table
           [fst continuous_full; continuous_var "elsewhere"]
           (continuous_var "elsewhere") true).
  - vm_compute. reflexivity.
  - simpl. auto.
  - simpl. intuition discriminate.
Defined.

Lemma vstack_T_nth (a b c d e : list float64) (r : nat) :
  length b = length a -> length c = length a -> length d = length a ->
  length e = length a -> r < length a ->
  nth_error (vstack_T a b c d e) r
  = Some [nth r a NaN; nth r b NaN; nth r c NaN; nth r d NaN; nth r e NaN].
Proof.
  revert b c d e r.
  induction a as [|x a IH]; intros [|y b] [|z c] [|u d] [|w e] r Lb Lc Ld Le Lr;
    simpl in *; try lia.
  destruct r as [|r]; [reflexivity|]. simpl. apply IH; lia.
Qed.

Lemma vstack_T_length (a b c d e : list float64) :
  length b = length a -> length c = length a -> length d = length a ->
  length e = length a -> length (vstack_T a b c d e) = length a.
Proof.
  revert b c d e.
  induction a as [|x a IH]; intros [|y b] [|z c] [|u d] [|w e] Lb Lc Ld Le;
    simpl in *; try lia.
  f_equal. apply IH; lia.
Qed.

Section StatisticsMatrix.
Context `{SciPy}.

(** X9. After [set_data] on a table with at least one instance whose
    columns can be computed, [get_statistics_matrix] without variables, or
    with an empty list of them, returns one row per shown variable, in the
    canonical order, each row holding Center, Dispersion, Min, Max and
    Missing of that variable; with labels it returns the same matrix
    under the names of those five columns. *)
Theorem statistics_matrix_of_all_rows (m : Model) (t : Table)
        (vars : option (list Var)) :
  table_shape t = true -> 1 <= n_instances_of t ->
  forallb column_ok (canonical t) = true ->
  vars = None \/ vars = Some [] ->
  exists m',
    model_set_data m (Some t) = Ok m'
    /\ get_statistics_matrix m' vars false
       = Ok (JustMatrix
               (map (fun vc => [center_of (fst vc) (floats_of (snd vc));
                                dispersion_of (fst vc) (floats_of (snd vc));
                                nanmin (floats_of (snd vc));
                                nanmax (floats_of (snd vc));
                                countnans (floats_of (snd vc))])
                    (canonical t)))
    /\ get_statistics_matrix m' vars true
       = Ok (WithLabels
               ["Center"; "Dispersion"; "Min."; "Max."; "Missing"]
               (map (fun vc => [center_of (fst vc) (floats_of (snd vc));
                                dispersion_of (fst vc) (floats_of (snd vc));
                                nanmin (floats_of (snd vc));
                                nanmax (floats_of (snd vc));
                                countnans (floats_of (snd vc))])
                    (canonical t))).
Proof.
  intros S N Hok V.
  destruct (statistics_aligned m t S N Hok)
    as (m' & E & Ta & _ & _ & _ & Ce & Di & Mi & Ma & Ms).
  exists m'. split; [exact E|].
  unfold get_statistics_matrix. rewrite Ta, Ce, Di, Mi, Ma, Ms.
  unfold vector_of, min_of, max_of, missing_of.
  destruct V as [-> | ->]; simpl; rewrite vstack_T_map; split; reflexivity.
Qed.

End StatisticsMatrix.

Lemma statistics_matrix_of_all_rows_witness :
  exists m',
    model_set_data initial_model (Some constant_table) = Ok m'
    /\ get_statistics_matrix m' None false
       = Ok (JustMatrix
               (map (fun vc => [center_of (fst vc) (floats_of (snd vc));
                                dispersion_of (fst vc) (floats_of (snd vc));
                                nanmin (floats_of (snd vc));
                                nanmax (floats_of (snd vc));
                                countnans (floats_of (snd vc))])
                    (canonical constant_table)))
    /\ get_statistics_matrix m' None true
       = Ok (WithLabels
               ["Center"; "Dispersion"; "Min."; "Max."; "Missing"]
               (map (fun vc => [center_of (fst vc) (floats_of (snd vc));
                                dispersion_of (fst vc) (floats_of (snd vc));
                                nanmin (floats_of (snd vc));
                                nanmax (floats_of (snd vc));
                                countnans (floats_of (snd vc))])
                    (canonical constant_table))).
Proof.
  apply (statistics_matrix_of_all_rows initial_model constant_table None).
  - vm_compute. reflexivity.
  - vm_compute. lia.
  - vm_compute. reflexivity.
  - left. reflexivity.
Defined.

Section RequestedRows.
Context `{SciPy}.

(** The variables of the model when no attribute and no class variable is
    hidden: attributes and class variables come first, at their places in
    the domain. *)
Lemma variables_without_hidden (t : Table) :
  table_shape t = true ->
  forallb (fun attr => negb (is_hidden attr))
          (attributes (domain t) ++ class_vars (domain t)) = true ->
  exists rest,
    map fst (canonical t)
    = (attributes (domain t) ++ class_vars (domain t)) ++ rest.
Proof.
  intros S NoHid.
  destruct (table_shape_facts t S) as ((_ & LX) & (_ & LY) & _).
  rewrite forallb_app in NoHid. apply andb_true_iff in NoHid as [HA HC].
  exists (map fst (visible (metas (domain t)) (M t))).
  unfold canonical. rewrite !map_app, <- app_assoc. unfold visible.
  rewrite (map_fst_filter_combine (fun attr => negb (is_hidden attr))
                                  (attributes (domain t)) _ LX).
  rewrite (map_fst_filter_combine (fun attr => negb (is_hidden attr))
                                  (class_vars (domain t)) _ LY).
  rewrite (filter_true _ _ HA), (filter_true _ _ HC). reflexivity.
Qed.

(** X10. After [set_data] on a table with at least one instance in which
    no attribute and no class variable is hidden, [get_statistics_matrix]
    for a non-empty list of attributes and class variables (none of them
    also a meta) returns one row per requested variable, in the order of
    the request: row [k] holds the five statistics of the row of the model
    that shows the [k]-th requested variable. *)
Theorem statistics_matrix_of_requested_rows (m : Model) (t : Table)
        (vars : list Var) :
  table_shape t = true -> 1 <= n_instances_of t ->
  forallb column_ok (canonical t) = true ->
  forallb (fun attr => negb (is_hidden attr))
          (attributes (domain t) ++ class_vars (domain t)) = true ->
  vars <> [] ->
  (forall v, In v vars ->
             In v (attributes (domain t) ++ class_vars (domain t))
             /\ ~ In v (metas (domain t))) ->
  exists m' rows,
    model_set_data m (Some t) = Ok m'
    /\ get_statistics_matrix m' (Some vars) false = Ok (JustMatrix rows)
    /\ length rows = length vars
    /\ forall k v, nth_error vars k = Some v ->
         exists r,
           nth_error (variables m') r = Some v
           /\ nth_error rows k
              = Some [nth r (_center m') NaN; nth r (_dispersion m') NaN;
                      nth r (_min m') NaN; nth r (_max m') NaN;
                      nth r (_missing m') NaN].
Proof.
  intros S N Hok NoHid NE Req.
  destruct (statistics_aligned m t S N Hok)
    as (m' & E & Ta & Na & _ & Va & Ce & Di & Mi & Ma & Ms).
  destruct (variables_without_hidden t S NoHid) as (rest & Vs).
  set (AC := attributes (domain t) ++ class_vars (domain t)) in *.
  set (pos := fun v => match position v AC with Some j => j | None => 0 end).
  assert (P : forall v, In v vars ->
                domain_index (domain t) v = Ok (Z.of_nat (pos v))
                /\ nth_error AC (pos v) = Some v).
  { intros v Hv. destruct (Req v Hv) as [I NI].
    destruct (position_in v AC I) as [j Ej].
    unfold domain_index, pos. rewrite (position_none _ _ NI).
    fold AC. rewrite Ej. split; [reflexivity|]. apply position_some, Ej. }
  assert (Len : forall vec : list float64,
                length vec = length (canonical t) ->
                forall v, In v vars -> pos v < length vec).
  { intros vec L v Hv. destruct (P v Hv) as [_ Pv].
    assert (pos v < length AC) by (apply nth_error_Some; rewrite Pv; discriminate).
    rewrite L, <- (length_map fst), Vs, length_app. lia. }
  assert (It : forall vec : list float64,
                 length vec = length (canonical t) ->
                 mapM (item vec) (map (fun v => Z.of_nat (pos v)) vars)
                 = Ok (map (fun v => nth (pos v) vec NaN) vars)).
  { intros vec L. rewrite mapM_map. apply mapM_ok.
    intros v Hv. apply item_of_nat. apply (Len vec L v Hv). }
  assert (LCe : length (_center m') = length (canonical t))
    by (rewrite Ce; apply length_map).
  assert (LDi : length (_dispersion m') = length (canonical t))
    by (rewrite Di; apply length_map).
  assert (LMi : length (_min m') = length (canonical t))
    by (rewrite Mi; apply length_map).
  assert (LMa : length (_max m') = length (canonical t))
    by (rewrite Ma; apply length_map).
  assert (LMs : length (_missing m') = length (canonical t))
    by (rewrite Ms; apply length_map).
  exists m'.
  exists (map (fun v => [nth (pos v) (_center m') NaN;
                         nth (pos v) (_dispersion m') NaN;
                         nth (pos v) (_min m') NaN;
                         nth (pos v) (_max m') NaN;
                         nth (pos v) (_missing m') NaN]) vars).
  split; [exact E|]. split; [|split].
  - unfold get_statistics_matrix. rewrite Ta.
    assert (D : mapM (domain_index (domain t)) vars
                = Ok (map (fun v => Z.of_nat (pos v)) vars)).
    { apply mapM_ok. intros v Hv. apply (P v Hv). }
    destruct vars as [|v0 vs]; [contradiction NE; reflexivity|].
    rewrite D. unfold bind, items.
    rewrite (It _ LCe), (It _ LDi), (It _ LMi), (It _ LMa), (It _ LMs).
    rewrite vstack_T_map. reflexivity.
  - apply length_map.
  - intros k v Hk. exists (pos v).
    assert (Hv : In v vars) by (eapply nth_error_In; exact Hk).
    destruct (P v Hv) as [_ Pv]. split.
    + rewrite Va, Vs. rewrite nth_error_app1; [exact Pv|].
      apply nth_error_Some. rewrite Pv. discriminate.
    + rewrite nth_error_map, Hk. reflexivity.
Qed.

End RequestedRows.

Lemma statistics_matrix_of_requested_rows_witness :
  exists m' rows,
    model_set_data initial_model (Some example_table) = Ok m'
    /\ get_statistics_matrix m' (Some [fst rgb_full; fst continuous_same]) false
       = Ok (JustMatrix rows)
    /\ length rows = length [fst rgb_full; fst continuous_same]
    /\ forall k v, nth_error [fst rgb_full; fst continuous_same] k = Some v ->
         exists r,
           nth_error (variables m') r = Some v
           /\ nth_error rows k
              = Some [nth r (_center m') NaN; nth r (_dispersion m') NaN;
                      nth r (_min m') NaN; nth r (_max m') NaN;
                      nth r (_missing m') NaN].
Proof.
  apply (statistics_matrix_of_requested_rows initial_model example_table
           [fst rgb_full; fst continuous_same]).
  - vm_compute. reflexivity.
  - vm_compute. lia.
  - vm_compute. reflexivity.
  - vm_compute. reflexivity.
  - discriminate.
  - intros v [<-|[<-|[]]]; simpl; intuition discriminate.
Defined.

(* ------------------------------------------------------------------ *)
(** ** What [commit] sends *)

Lemma items_length (vec : list float64) (l : list Z) (r : list float64) :
  items vec (Some l) = Ok r -> length r = length l.
Proof.
  simpl. intros E. apply mapM_inv in E.
  symmetry. eapply Forall2_length. exact E.
Qed.

(** The labelled answer of [get_statistics_matrix] to a request. *)
Lemma statistics_matrix_labelled (m : Model) (vars : list Var)
      (answer : StatisticsMatrix) :
  vars <> [] ->
  get_statistics_matrix m (Some vars) true = Ok answer ->
  answer = JustMatrix [[]]
  \/ exists rows,
       answer = WithLabels ["Center"; "Dispersion"; "Min."; "Max."; "Missing"]
                           rows
       /\ length rows = length vars.
Proof.
  intros NE. unfold get_statistics_matrix.
  destruct (table m) as [t|]; [|intros E; injection E as <-; left; reflexivity].
  destruct vars as [|v vs]; [contradiction NE; reflexivity|].
  destruct (mapM (domain_index (domain t)) (v :: vs)) as [l|e] eqn:D;
    [|discriminate]. unfold bind.
  assert (Ll : length l = length (v :: vs)).
  { apply mapM_inv in D. symmetry. eapply Forall2_length. exact D. }
  destruct (items (_center m) (Some l)) as [a|e] eqn:A; [|discriminate].
  destruct (items (_dispersion m) (Some l)) as [b|e] eqn:B; [|discriminate].
  destruct (items (_min m) (Some l)) as [c|e] eqn:C; [|discriminate].
  destruct (items (_max m) (Some l)) as [d|e] eqn:Dd; [|discriminate].
  destruct (items (_missing m) (Some l)) as [f|e] eqn:F; [|discriminate].
  intros E. injection E as <-. right. eexists. split; [reflexivity|].
  apply items_length in A, B, C, Dd, F.
  rewrite vstack_T_length; congruence.
Qed.

Lemma variables_at_inv (m : Model) (rows : list nat) (vars : list Var) :
  variables_at m rows = Ok vars ->
  Forall2 (fun r v => nth_error (variables m) r = Some v) rows vars.
Proof.
  unfold variables_at. destruct (variables m) as [|x l]; [discriminate|].
  intros E. apply mapM_inv in E.
  induction E as [|r v rows vars Hrv _ IH]; constructor; [|exact IH].
  destruct (nth_error (x :: l) r); [|discriminate Hrv].
  injection Hrv as <-. reflexivity.
Qed.

(** X12. Whenever [commit] returns with rows selected, both outputs hold a
    table, and the statistics table is named after the data, has the five
    statistic columns as its attributes, one row per selected row, and as
    its Feature column the names of the variables at the selected source
    rows, in the order of the selection; the selection, the data and the
    model are what they were. *)
Theorem commit_sends_selected_rows (w w' : Widget) :
  selected_rows w <> [] ->
  commit w = Ok w' ->
  selected_rows w' = selected_rows w /\ widget_data w' = widget_data w
  /\ model w' = model w
  /\ exists data reduced stats,
       widget_data w = Some data
       /\ reduced_data w' = Some reduced
       /\ statistics w' = Some stats
       /\ statistics_name stats
          = (table_name data ++ " (Feature Statistics)")%string
       /\ statistics_attributes stats
          = ["Center"; "Dispersion"; "Min."; "Max."; "Missing"]
       /\ length (statistics_rows stats) = length (selected_rows w)
       /\ Forall2 (fun r feature =>
                     exists v, nth_error (variables (model w)) r = Some v
                               /\ feature = name v)
                  (selected_rows w) (statistics_features stats).
Proof.
  intros NE. unfold commit.
  destruct (selected_rows w) as [|r0 rows] eqn:Sel; [contradiction NE; reflexivity|].
  destruct (variables_at (model w) (r0 :: rows)) as [vars|e] eqn:V;
    [|discriminate]. unfold bind.
  destruct (widget_data w) as [data|] eqn:Dt; [|discriminate].
  destruct (table_columns data vars) as [reduced|e]; [|discriminate].
  simpl model.
  destruct (get_statistics_matrix (model w) (Some vars) true)
    as [answer|e] eqn:G; [|discriminate].
  apply variables_at_inv in V.
  assert (NV : vars <> []).
  { inversion V. discriminate. }
  assert (LV : length vars = length (r0 :: rows)).
  { symmetry. eapply Forall2_length. exact V. }
  destruct (statistics_matrix_labelled _ _ _ NV G) as [-> | (rs & -> & Lr)];
    [discriminate|].
  intros E. injection E as <-. simpl.
  repeat (split; [first [assumption | reflexivity]|]).
  exists data, reduced. eexists. simpl.
  repeat (split; [reflexivity|]).
  split; [simpl in LV |- *; rewrite Lr; exact LV|].
  simpl. clear - V. induction V as [|r v rs vs Hrv _ IH]; simpl; constructor.
  - exists v. split; [exact Hrv | reflexivity].
  - exact IH.
Qed.

Lemma commit_sends_selected_rows_witness :
  selected_rows (state_of first_data_selected)
  = selected_rows (with_outputs (state_of first_data_selected) None None)
  /\ widget_data (state_of first_data_selected)
     = widget_data (with_outputs (state_of first_data_selected) None None)
  /\ model (state_of first_data_selected)
     = model (with_outputs (state_of first_data_selected) None None)
  /\ exists data reduced stats,
       widget_data (with_outputs (state_of first_data_selected) None None)
       = Some data
       /\ reduced_data (state_of first_data_selected) = Some reduced
       /\ statistics (state_of first_data_selected) = Some stats
       /\ statistics_name stats
          = (table_name data ++ " (Feature Statistics)")%string
       /\ statistics_attributes stats
          = ["Center"; "Dispersion"; "Min."; "Max."; "Missing"]
       /\ length (statistics_rows stats)
          = length (selected_rows
                      (with_outputs (state_of first_data_selected) None None))
       /\ Forall2 (fun r feature =>
                     exists v,
                       nth_error
                         (variables
                            (model (with_outputs (state_of first_data_selected)
                                                 None None))) r = Some v
                       /\ feature = name v)
                  (selected_rows
                     (with_outputs (state_of first_data_selected) None None))
                  (statistics_features stats).
Proof.
  apply (commit_sends_selected_rows
           (with_outputs (state_of first_data_selected) None None)
           (state_of first_data_selected)).
  - vm_compute. discriminate.
  - vm_compute. reflexivity.
Defined.

Lemma mapM_raises_one {A B : Type} (f : A -> result B) (e : Exception)
      (l : list A) (a : A) :
  (forall x e', f x = Raise e' -> e' = e) ->
  In a l -> f a = Raise e -> mapM f l = Raise e.
Proof.
  intros Only. induction l as [|x l IH]; intros I E; [destruct I|]. simpl.
  destruct (f x) as [b|e'] eqn:Ex.
  - destruct I as [->|I]; [rewrite E in Ex; discriminate Ex|].
    simpl. rewrite (IH I E). reflexivity.
  - rewrite (Only x e' Ex). reflexivity.
Qed.

(** X13. [commit] reads the variables of the selected rows before it sends
    anything.  A selected row at or beyond the number of variables of the
    model makes it raise IndexError; when the model has no variable at all,
    any selection makes it raise TypeError, the variables then being a
    plain list. *)
Theorem commit_selection_out_of_range (w : Widget) (r : nat) :
  In r (selected_rows w) ->
  length (variables (model w)) <= r ->
  commit w = Raise (match variables (model w) with
                    | [] => TypeError
                    | _ :: _ => IndexError
                    end).
Proof.
  intros I L. unfold commit.
  destruct (selected_rows w) as [|r0 rows] eqn:Sel; [destruct I|].
  unfold variables_at.
  destruct (variables (model w)) as [|x vars] eqn:V; [reflexivity|].
  rewrite (mapM_raises_one _ IndexError (r0 :: rows) r); [reflexivity| |exact I|].
  - intros y e'. destruct (nth_error (x :: vars) y); [discriminate|].
    intros E. injection E as <-. reflexivity.
  - apply nth_error_None in L. rewrite L. reflexivity.
Qed.

Lemma commit_selection_out_of_range_witness :
  commit (with_selected_rows (state_of first_data_selected) [1; 8])
  = Raise (match variables
                   (model (with_selected_rows (state_of first_data_selected)
                                              [1; 8]))
           with
           | [] => TypeError
           | _ :: _ => IndexError
           end).
Proof.
  apply (commit_selection_out_of_range
           (with_selected_rows (state_of first_data_selected) [1; 8]) 8).
  - simpl. auto.
  - vm_compute. lia.
Defined.

(* ------------------------------------------------------------------ *)
(** ** Columns, header and rows of the view *)

Lemma from_index_inv (i : Z) (c : Columns) :
  from_index i = Some c -> column_index c = i.
Proof.
  intros E. unfold from_index in E.
  destruct i as [|p|p]; [injection E as <-; reflexivity| |discriminate E].
  do 4 (try match goal with
            | q : positive |- _ => destruct q; simpl in E; try discriminate E
            end);
    injection E as <-; reflexivity.
Qed.

Lemma from_index_range (i : Z) :
  (0 <= i < 8)%Z -> exists c, from_index i = Some c.
Proof.
  intros R.
  assert (C : (i = 0 \/ i = 1 \/ i = 2 \/ i = 3 \/ i = 4 \/ i = 5
               \/ i = 6 \/ i = 7)%Z) by lia.
  destruct C as [->|[->|[->|[->|[->|[->|[->| ->]]]]]]]; eexists; reflexivity.
Qed.

(** X14. [Columns.from_index] undoes [Columns.index], [index] undoes
    [from_index] wherever that answers, and [from_index] answers exactly
    for the numbers from zero up to, not including, [columnCount]. *)
Theorem columns_index_round_trip :
  (forall c, from_index (column_index c) = Some c)
  /\ (forall i c, from_index i = Some c -> column_index c = i)
  /\ (forall i, (exists c, from_index i = Some c)
                <-> (0 <= i < Z.of_nat columnCount)%Z).
Proof.
  split; [|split].
  - intros c. destruct c; reflexivity.
  - apply from_index_inv.
  - intros i. unfold columnCount. split.
    + intros [c E]. rewrite <- (from_index_inv i c E). destruct c; simpl; lia.
    + apply from_index_range.
Qed.

(** X15. In the display role the horizontal header has a name for each of
    the [columnCount] sections, different sections have different names,
    and a section outside that range raises ValueError; for the vertical
    header and for every other role [headerData] returns nothing. *)
Theorem header_names_columns (section : Z) :
  ((0 <= section < Z.of_nat columnCount)%Z ->
   exists c, from_index section = Some c
             /\ headerData section Horizontal DisplayRole
                = Ok (Some (column_name c))
             /\ forall section',
                  headerData section' Horizontal DisplayRole
                  = Ok (Some (column_name c)) -> section' = section)
  /\ (~ (0 <= section < Z.of_nat columnCount)%Z ->
      headerData section Horizontal DisplayRole = Raise ValueError)
  /\ (forall role, headerData section Vertical role = Ok None)
  /\ (forall role, role <> DisplayRole ->
                   headerData section Horizontal role = Ok None).
Proof.
  assert (Inj : forall c c', column_name c = column_name c' -> c = c').
  { intros c c'. destruct c, c'; simpl; intros E;
      first [reflexivity | discriminate E]. }
  pose proof from_index_inv as Back.
  split; [|split; [|split]].
  - intros R. unfold columnCount in R.
    destruct (from_index_range section R) as [c E]. exists c. split; [exact E|].
    unfold headerData. rewrite E. split; [reflexivity|].
    intros section'. destruct (from_index section') as [c'|] eqn:E';
      [|discriminate].
    intros N. injection N as N. apply Inj in N. subst c'.
    rewrite <- (Back _ _ E), <- (Back _ _ E'). reflexivity.
  - intros Out. unfold headerData.
    destruct (from_index section) as [c|] eqn:E; [|reflexivity].
    exfalso. apply Out. rewrite <- (Back _ _ E). unfold columnCount.
    destruct c; simpl; lia.
  - intros role. destruct role; reflexivity.
  - intros role NR. destruct role; try reflexivity. contradiction NR; reflexivity.
Qed.

Lemma Qltb_true (p q : Q) : Qltb p q = true <-> (p < q)%Q.
Proof.
  unfold Qltb. rewrite negb_true_iff. split.
  - intros E. apply Qnot_le_lt. intros L. apply Qle_bool_iff in L.
    rewrite L in E. discriminate E.
  - intros L. destruct (Qle_bool q p) eqn:E; [|reflexivity].
    apply Qle_bool_iff in E. exfalso. apply (Qlt_not_le _ _ L E).
Qed.

Lemma Qltb_false (p q : Q) : Qltb p q = false <-> (q <= p)%Q.
Proof.
  unfold Qltb. rewrite negb_false_iff. apply Qle_bool_iff.
Qed.

(** X16. [bind_histogram_aspect_ratio] acts on a resize of the
    Distribution column only.  However the doubles round, the height it
    hands to the vertical header is never below 50 and never above 80; and
    where the rounding keeps the order of the values it rounds, as
    rounding to the nearest double does, the height never shrinks when the
    width grows. *)
Theorem histogram_height_within_bounds (fl : Q -> Q)
        (logical_index new_size : Z) :
  match bind_histogram_aspect_ratio fl logical_index new_size with
  | None => logical_index <> column_index DISTRIBUTION
  | Some h =>
      logical_index = column_index DISTRIBUTION
      /\ (50 # 1 <= h)%Q /\ (h <= 80 # 1)%Q
      /\ ((forall x y : Q, (x <= y)%Q -> (fl x <= fl y)%Q) ->
          forall wider h',
            (new_size <= wider)%Z ->
            bind_histogram_aspect_ratio fl logical_index wider = Some h' ->
            (h <= h')%Q)
  end.
Proof.
  unfold bind_histogram_aspect_ratio.
  destruct (logical_index =? column_index DISTRIBUTION)%Z eqn:E; simpl negb;
    cbv iota.
  2:{ apply Z.eqb_neq. exact E. }
  apply Z.eqb_eq in E. split; [exact E|].
  unfold HISTOGRAM_ASPECT_RATIO, MINIMUM_HISTOGRAM_HEIGHT,
    MAXIMUM_HISTOGRAM_HEIGHT.
  assert (B : forall x : Q,
             (50 # 1 <= py_min (py_max x (50 # 1)) (80 # 1))%Q
             /\ (py_min (py_max x (50 # 1)) (80 # 1) <= 80 # 1)%Q).
  { intros x. unfold py_min, py_max.
    destruct (Qltb x (50 # 1)) eqn:A.
    - apply Qltb_true in A.
      destruct (Qltb (80 # 1) (50 # 1)) eqn:C;
        [apply Qltb_true in C; lra|].
      split; lra.
    - apply Qltb_false in A.
      destruct (Qltb (80 # 1) x) eqn:C.
      + apply Qltb_true in C. split; lra.
      + apply Qltb_false in C. split; lra. }
  assert (Mono : forall x y : Q,
             (x <= y)%Q ->
             (py_min (py_max x (50 # 1)) (80 # 1)
              <= py_min (py_max y (50 # 1)) (80 # 1))%Q).
  { intros x y L. unfold py_min, py_max.
    destruct (Qltb x (50 # 1)) eqn:A1; destruct (Qltb y (50 # 1)) eqn:A2;
      rewrite ?Qltb_true, ?Qltb_false in *;
      repeat match goal with
             | |- context [Qltb ?a ?b] =>
                 let C := fresh "C" in
                 destruct (Qltb a b) eqn:C;
                 rewrite ?Qltb_true, ?Qltb_false in C
             end; lra. }
  destruct (B (fl (fl (inject_Z new_size / (7 # 1)) * (3 # 1)))%Q) as (Lo & Hi).
  split; [exact Lo|]. split; [exact Hi|].
  intros Keeps wider h' W I. simpl negb in I. cbv iota in I.
  injection I as <-. apply Mono. apply Keeps.
  apply Qmult_le_compat_r; [|discriminate]. apply Keeps.
  apply Qmult_le_compat_r; [|discriminate].
  rewrite <- Zle_Qle. exact W.
Qed.

(* ------------------------------------------------------------------ *)
(** ** The summary of the variables *)

Lemma type_is_counts (vars : list Var) :
  length (filter (fun v => type_is v DiscreteVariable) vars)
  + length (filter (fun v => type_is v ContinuousVariable) vars)
  + length (filter (fun v => type_is v TimeVariable) vars)
  + length (filter (fun v => type_is v StringVariable) vars)
  = length vars.
Proof.
  induction vars as [|v vars IH]; [reflexivity|].
  destruct v as [n t vs o]. destruct t; simpl in *; lia.
Qed.

Lemma agg_of_counts (vars : list Var) :
  list_sum (map snd (agg_of vars)) = length vars.
Proof.
  rewrite <- (type_is_counts vars). unfold agg_of. simpl.
  rewrite !map_app, !list_sum_app.
  destruct (filter (fun v => type_is v DiscreteVariable) vars);
    destruct (filter (fun v => type_is v ContinuousVariable) vars);
    destruct (filter (fun v => type_is v TimeVariable) vars);
    destruct (filter (fun v => type_is v StringVariable) vars);
    simpl; lia.
Qed.

(** X17. [_format_variables_string] answers 'No variables' for an empty
    list and for no other; for a list with variables it hands [plural] a
    text that ends in ' variable{s}' together with the number of variables
    of the list, every variable counted once under its own type. *)
Theorem format_variables_counts_all (plural : string -> nat -> string)
        (vars : list Var) :
  match vars with
  | [] => _format_variables_string plural vars = "No variables"
  | _ :: _ =>
      agg_of vars <> []
      /\ exists var_string,
           _format_variables_string plural vars
           = plural (var_string ++ " variable{s}")%string (length vars)
  end.
Proof.
  destruct vars as [|v vars]; [reflexivity|].
  pose proof (agg_of_counts (v :: vars)) as C.
  unfold _format_variables_string.
  destruct (agg_of (v :: vars)) as [|a agg] eqn:A; [discriminate C|].
  split; [discriminate|]. rewrite C. eexists. reflexivity.
Qed.

(* ------------------------------------------------------------------ *)
(** ** The cells of the table *)

Section CellsOfRows.
Context `{SciPy} `{Rendering}.

Lemma set_data_keeps_sorting (m m' : Model) (t : Table) :
  model_set_data m (Some t) = Ok m' ->
  sortInd m' = sortInd m /\ sortIndInv m' = sortIndInv m.
Proof.
  unfold model_set_data, __compute_statistics, bind. intros E.
  repeat match type of E with
         | match ?r with Ok _ => _ | Raise _ => _ end = _ =>
             destruct r; [|discriminate E]
         end.
  injection E as <-. split; reflexivity.
Qed.

(** [data] on a model in source order, at a row that has a variable. *)
Lemma data_value_unsorted (m : Model) (i : nat) (c : Columns) (v : Var)
      (role : ItemDataRole) :
  sortInd m = None -> i <= n_attributes m ->
  nth_error (variables m) i = Some v ->
  data_value m (cell i c) role = render m v i (column_index c) role.
Proof.
  intros So Le Vi. unfold data_value, data, cell, isValid, mapToSourceRows.
  cbn [row column].
  replace (0 <=? Z.of_nat i)%Z with true by (symmetry; apply Z.leb_le; lia).
  replace (0 <=? column_index c)%Z with true
    by (symmetry; apply Z.leb_le; destruct c; simpl; lia).
  cbn [andb negb]. rewrite So, Nat2Z.id.
  replace (i <=? n_attributes m) with true by (symmetry; apply Nat.leb_le; lia).
  cbn [Nat.leb andb negb]. rewrite Vi. reflexivity.
Qed.

(** The cells of a row of the model that [set_data] builds from a table,
    when the model was in source order. *)
Lemma cells_of_row (m : Model) (t : Table) (i : nat) (v : Var)
      (col : list Cell) :
  table_shape t = true -> 1 <= n_instances_of t ->
  forallb column_ok (canonical t) = true ->
  nth_error (canonical t) i = Some (v, col) ->
  sortInd m = None ->
  exists m',
    model_set_data m (Some t) = Ok m'
    /\ table m' = Some t
    /\ n_instances m' = n_instances_of t
    /\ nth_error (_center m') i = Some (center_of v (floats_of col))
    /\ nth_error (_dispersion m') i = Some (dispersion_of v (floats_of col))
    /\ nth_error (_min m') i = Some (nanmin (floats_of col))
    /\ nth_error (_max m') i = Some (nanmax (floats_of col))
    /\ nth_error (_missing m') i = Some (countnans (floats_of col))
    /\ col = map Num (floats_of col)
    /\ length col = n_instances_of t
    /\ forall c role,
         data_value m' (cell i c) role = render m' v i (column_index c) role.
Proof.
  intros S N Hok Hi So.
  destruct (aligned_row m t i v col S N Hok Hi)
    as (m' & E & Ta & Na & Ni & Va & Vi & Ce & Di & Mi & Ma & Ms & Cells & Len).
  exists m'. repeat (split; [assumption|]).
  intros c role. apply data_value_unsorted.
  - destruct (set_data_keeps_sorting m m' t E) as [-> _]. exact So.
  - rewrite Na. apply Nat.lt_le_incl. apply nth_error_Some.
    rewrite Hi. discriminate.
  - exact Vi.
Qed.
End CellsOfRows.

Lemma missing_text_count (k n : nat) :
  1 <= n ->
  missing_text (of_nat k) n
  = inl (int_text (Z.of_nat k) ++ " ("
         ++ int_text (100 * Z.of_nat k / Z.of_nat n) ++ "%)")%string.
Proof.
  intros N. unfold missing_text, format_d, of_nat, fmul, fdiv.
  change (Qnum (inject_Z (Z.of_nat k))) with (Z.of_nat k).
  change (Qden (inject_Z (Z.of_nat k))) with 1%positive.
  rewrite Z.quot_1_r.
  assert (NZ : Qeq_bool (inject_Z (Z.of_nat n)) (0 # 1) = false).
  { destruct (Qeq_bool (inject_Z (Z.of_nat n)) (0 # 1)) eqn:E; [|reflexivity].
    apply Qeq_bool_iff in E. unfold Qeq in E. simpl in E. lia. }
  rewrite NZ.
  destruct n as [|n]; [lia|].
  unfold Qdiv, Qinv, Qmult, inject_Z. cbn [Qnum Qden].
  rewrite Nat2Z.inj_succ. unfold Z.succ. 
  destruct (Z.of_nat n + 1)%Z as [|p|p] eqn:P; try lia.
  cbn [Qnum Qden]. change (Z.of_nat 100) with 100%Z.
  rewrite Z.mul_1_r. change (1 * p)%positive with p.
  rewrite Z.quot_div_nonneg by lia. reflexivity.
Qed.

Section CellTexts.
Context `{SciPy} `{Rendering}.

(** X18. After [set_data] on a model in source order, the cells Center,
    Dispersion, Min and Max of a numeric column whose cells are all missing
    read 'NaN'. *)
Theorem all_missing_numeric_cells_read_NaN (m : Model) (t : Table) (i : nat)
        (v : Var) (col : list Cell) (c : Columns) :
  table_shape t = true -> 1 <= n_instances_of t ->
  forallb column_ok (canonical t) = true ->
  nth_error (canonical t) i = Some (v, col) ->
  sortInd m = None ->
  forallb cell_is_nan col = true ->
  isinstance v DiscreteVariable = false ->
  In c [CENTER; DISPERSION; MIN; MAX] ->
  exists m',
    model_set_data m (Some t) = Ok m'
    /\ data_value m' (cell i c) DisplayRole = Text "NaN".
Proof.
  intros S N Hok Hi So A D Hc.
  destruct (cells_of_row m t i v col S N Hok Hi So)
    as (m' & E & _ & _ & Ce & Di & Mi & Ma & _ & _ & _ & R).
  exists m'. split; [exact E|]. rewrite R.
  rewrite (floats_of_ok _ _ (all_nan_floats col A)) in Ce, Di, Mi, Ma.
  unfold center_of, dispersion_of in Ce, Di. rewrite D in Ce, Di.
  rewrite nanmean_all_nan in Ce. rewrite coefficient_of_variation_all_nan in Di.
  rewrite nanmin_all_nan in Mi. rewrite nanmax_all_nan in Ma.
  unfold render, cell_output, entry.
  destruct Hc as [<-|[<-|[<-|[<-|[]]]]]; simpl; rewrite ?D, ?Ce, ?Di, ?Mi, ?Ma;
    reflexivity.
Qed.

(** X19. After [set_data] on a model in source order, the Missing cell of a
    row reads 'k (p%)': [k] is the number of NaN cells of the column and
    [p] the whole part of [100 k / N], rounded down, for [N] instances. *)
Theorem missing_cell_reads_count_and_percent (m : Model) (t : Table) (i : nat)
        (v : Var) (col : list Cell) :
  table_shape t = true -> 1 <= n_instances_of t ->
  forallb column_ok (canonical t) = true ->
  nth_error (canonical t) i = Some (v, col) ->
  sortInd m = None ->
  exists m',
    model_set_data m (Some t) = Ok m'
    /\ data_value m' (cell i MISSING) DisplayRole
       = Text (int_text (Z.of_nat (length (filter cell_is_nan col))) ++ " ("
               ++ int_text (100 * Z.of_nat (length (filter cell_is_nan col))
                            / Z.of_nat (n_instances_of t))
               ++ "%)")%string.
Proof.
  intros S N Hok Hi So.
  destruct (cells_of_row m t i v col S N Hok Hi So)
    as (m' & E & _ & Ni & _ & _ & _ & _ & Ms & Cells & _ & R).
  exists m'. split; [exact E|]. rewrite R.
  assert (K : length (filter cell_is_nan col)
              = length (filter isnan (floats_of col))).
  { rewrite Cells at 1. apply filter_cell_is_nan. }
  unfold render, cell_output, entry. simpl. rewrite Ms, Ni.
  unfold countnans. rewrite (missing_text_count _ _ N), K. reflexivity.
Qed.
End CellTexts.

Lemma all_missing_numeric_cells_read_NaN_witness :
  exists m',
    model_set_data initial_model (Some example_table) = Ok m'
    /\ data_value m' (cell 2 DISPERSION) DisplayRole = Text "NaN".
Proof.
  apply (all_missing_numeric_cells_read_NaN initial_model example_table 2
           (fst continuous_all_missing) (snd continuous_all_missing)
           DISPERSION).
  - vm_compute. reflexivity.
  - vm_compute. lia.
  - vm_compute. reflexivity.
  - vm_compute. reflexivity.
  - reflexivity.
  - reflexivity.
  - reflexivity.
  - simpl. auto.
Defined.

Lemma missing_cell_reads_count_and_percent_witness :
  exists m',
    model_set_data initial_model (Some example_table) = Ok m'
    /\ data_value m' (cell 1 MISSING) DisplayRole
       = Text (int_text
                 (Z.of_nat (length (filter cell_is_nan (snd continuous_missing))))
               ++ " ("
               ++ int_text
                    (100 * Z.of_nat (length (filter cell_is_nan
                                               (snd continuous_missing)))
                     / Z.of_nat (n_instances_of example_table))
               ++ "%)")%string.
Proof.
  apply (missing_cell_reads_count_and_percent initial_model example_table 1
           (fst continuous_missing) (snd continuous_missing)).
  - vm_compute. reflexivity.
  - vm_compute. lia.
  - vm_compute. reflexivity.
  - vm_compute. reflexivity.
  - reflexivity.
Defined.

Example missing_cell_of_the_example :
  (int_text (Z.of_nat (length (filter cell_is_nan (snd continuous_missing))))
   ++ " ("
   ++ int_text (100 * Z.of_nat (length (filter cell_is_nan
                                          (snd continuous_missing)))
                / Z.of_nat (n_instances_of example_table))
   ++ "%)")%string
  = "1 (20%)".
Proof. vm_compute. reflexivity. Qed.

Lemma contains_true (l : list Var) (v : Var) : contains l v = true <-> In v l.
Proof.
  unfold contains. destruct (in_dec Var_eq_dec v l); split; auto; discriminate.
Qed.

Lemma visible_in_vars (vars : list Var) (x : Matrix) (vc : Var * list Cell) :
  In vc (visible vars x) -> In (fst vc) vars.
Proof.
  unfold visible. intros I. apply filter_In in I as [I _].
  destruct vc as [v c]. apply in_combine_l in I. exact I.
Qed.

Section CellsByVariable.
Context `{SciPy} `{Rendering}.

(** X20. After [set_data] on a model in source order, the Min and the Max
    cell of a categorical variable are empty unless the variable is
    ordered; for an ordered variable they show the category of the least
    and of the greatest code of the column. *)
Theorem categorical_min_max_cells (m : Model) (t : Table) (i : nat)
        (v : Var) (col : list Cell) :
  table_shape t = true -> 1 <= n_instances_of t ->
  forallb column_ok (canonical t) = true ->
  nth_error (canonical t) i = Some (v, col) ->
  sortInd m = None ->
  isinstance v DiscreteVariable = true ->
  exists m',
    model_set_data m (Some t) = Ok m'
    /\ data_value m' (cell i MIN) DisplayRole
       = (if ordered v then str_val_output v (nanmin (floats_of col))
          else NoValue)
    /\ data_value m' (cell i MAX) DisplayRole
       = (if ordered v then str_val_output v (nanmax (floats_of col))
          else NoValue).
Proof.
  intros S N Hok Hi So D.
  destruct (cells_of_row m t i v col S N Hok Hi So)
    as (m' & E & _ & _ & _ & _ & Mi & Ma & _ & _ & _ & R).
  exists m'. split; [exact E|]. rewrite !R.
  unfold render, cell_output, entry. simpl. rewrite D, Mi, Ma.
  destruct (ordered v); split; reflexivity.
Qed.

(** X21. After [set_data] on a model in source order, every row has a
    background colour, whatever the column: white for a variable among the
    attributes, else the colour of the metas for a variable among the
    metas, else grey, the variable then being a class variable. *)
Theorem background_tells_the_part (m : Model) (t : Table) (i : nat)
        (v : Var) (col : list Cell) (c : Columns) :
  table_shape t = true -> 1 <= n_instances_of t ->
  forallb column_ok (canonical t) = true ->
  nth_error (canonical t) i = Some (v, col) ->
  sortInd m = None ->
  exists m',
    model_set_data m (Some t) = Ok m'
    /\ data_value m' (cell i c) BackgroundRole
       = Color (COLOR_FOR_ROLE
                  (if contains (attributes (domain t)) v then ATTRIBUTE
                   else if contains (metas (domain t)) v then META
                   else CLASS_VAR))
    /\ (contains (attributes (domain t)) v = false ->
        contains (metas (domain t)) v = false ->
        In v (class_vars (domain t))).
Proof.
  intros S N Hok Hi So.
  destruct (cells_of_row m t i v col S N Hok Hi So)
    as (m' & E & Ta & _ & _ & _ & _ & _ & _ & _ & _ & R).
  exists m'. split; [exact E|]. rewrite R.
  assert (P : In v (attributes (domain t)) \/ In v (class_vars (domain t))
              \/ In v (metas (domain t))).
  { apply nth_error_In in Hi. unfold canonical in Hi.
    apply in_app_or in Hi as [I|I]; [|apply in_app_or in I as [I|I]];
      apply visible_in_vars in I; simpl in I; auto. }
  assert (Cl : contains (attributes (domain t)) v = false ->
               contains (metas (domain t)) v = false ->
               In v (class_vars (domain t))).
  { intros NA NM. destruct P as [I|[I|I]]; [|exact I|].
    - apply contains_true in I. rewrite I in NA. discriminate NA.
    - apply contains_true in I. rewrite I in NM. discriminate NM. }
  split; [|exact Cl].
  unfold render. rewrite Ta.
  destruct (contains (attributes (domain t)) v) eqn:A; [reflexivity|].
  destruct (contains (metas (domain t)) v) eqn:Me; [reflexivity|].
  rewrite (proj2 (contains_true _ _) (Cl eq_refl eq_refl)). reflexivity.
Qed.
End CellsByVariable.

Lemma categorical_min_max_cells_witness :
  exists m',
    model_set_data initial_model (Some example_table) = Ok m'
    /\ data_value m' (cell 4 MIN) DisplayRole
       = (if ordered (fst rgb_full)
          then str_val_output (fst rgb_full) (nanmin (floats_of (snd rgb_full)))
          else NoValue)
    /\ data_value m' (cell 4 MAX) DisplayRole
       = (if ordered (fst rgb_full)
          then str_val_output (fst rgb_full) (nanmax (floats_of (snd rgb_full)))
          else NoValue).
Proof.
  apply (categorical_min_max_cells initial_model example_table 4
           (fst rgb_full) (snd rgb_full)).
  - vm_compute. reflexivity.
  - vm_compute. lia.
  - vm_compute. reflexivity.
  - vm_compute. reflexivity.
  - reflexivity.
  - reflexivity.
Defined.

Lemma background_tells_the_part_witness :
  exists m',
    model_set_data initial_model (Some example_table) = Ok m'
    /\ data_value m' (cell 6 NAME) BackgroundRole
       = Color (COLOR_FOR_ROLE
                  (if contains (attributes (domain example_table))
                               (fst ints_full)
                   then ATTRIBUTE
                   else if contains (metas (domain example_table))
                                    (fst ints_full)
                   then META
                   else CLASS_VAR))
    /\ (contains (attributes (domain example_table)) (fst ints_full) = false ->
        contains (metas (domain example_table)) (fst ints_full) = false ->
        In (fst ints_full) (class_vars (domain example_table))).
Proof.
  apply (background_tells_the_part initial_model example_table 6
           (fst ints_full) (snd ints_full) NAME).
  - vm_compute. reflexivity.
  - vm_compute. lia.
  - vm_compute. reflexivity.
  - vm_compute. reflexivity.
  - reflexivity.
Defined.

(* ------------------------------------------------------------------ *)
(** ** The entropy of a categorical column *)

Lemma to_code_raises (x : float64) (e : Exception) :
  to_code x = Raise e -> e = ValueError.
Proof.
  unfold to_code. destruct x as [| |q|]; try (intros E; injection E as <-; reflexivity).
  destruct (Z.quot (Qnum q) (Z.pos (Qden q)) <? 0)%Z; [|discriminate].
  intros E. injection E as <-. reflexivity.
Qed.

Lemma mapM_to_code_raises (l : list float64) (e : Exception) :
  mapM to_code l = Raise e -> e = ValueError.
Proof.
  induction l as [|x l IH]; simpl; [discriminate|].
  destruct (to_code x) as [c|e'] eqn:Ex; simpl.
  - destruct (mapM to_code l) as [cs|e'']; simpl; [discriminate|].
    intros E. injection E as <-. apply IH. reflexivity.
  - intros E. injection E as <-. apply (to_code_raises x). exact Ex.
Qed.

(** The codes of a column that is read in another order. *)
Lemma mapM_to_code_perm (l l' : list float64) :
  Permutation l l' ->
  match mapM to_code l, mapM to_code l' with
  | Ok c, Ok c' => Permutation c c'
  | Raise e, Raise e' => e = e'
  | _, _ => False
  end.
Proof.
  induction 1 as [|x l l' _ IH|x y l|l l' l'' _ IH1 _ IH2]; simpl.
  - constructor.
  - destruct (to_code x) as [c|e]; simpl; [|reflexivity].
    destruct (mapM to_code l) as [cs|e], (mapM to_code l') as [cs'|e'];
      simpl; try contradiction; [constructor; exact IH | exact IH].
  - destruct (to_code x) as [c|e] eqn:Ex, (to_code y) as [d|e'] eqn:Ey; simpl;
      try rewrite (to_code_raises _ _ Ex); try rewrite (to_code_raises _ _ Ey);
      try reflexivity.
    destruct (mapM to_code l) as [cs|e]; simpl; [apply perm_swap|reflexivity].
  - destruct (mapM to_code l) as [c|e], (mapM to_code l') as [c'|e'],
      (mapM to_code l'') as [c''|e'']; try contradiction.
    + eapply perm_trans; eassumption.
    + congruence.
Qed.

Lemma list_max_perm (l l' : list nat) :
  Permutation l l' -> list_max l = list_max l'.
Proof.
  induction 1 as [|x l l' _ IH|x y l|l l' l'' _ IH1 _ IH2]; simpl; lia.
Qed.

Lemma perm_filter {A : Type} (f : A -> bool) (l l' : list A) :
  Permutation l l' -> Permutation (filter f l) (filter f l').
Proof.
  induction 1 as [|x l l' _ IH|x y l|l l' l'' _ IH1 _ IH2]; simpl.
  - apply perm_nil.
  - destruct (f x); [apply perm_skip|]; exact IH.
  - destruct (f x), (f y); try apply Permutation_refl. apply perm_swap.
  - eapply perm_trans; eassumption.
Qed.

Lemma bincount_perm (col col' : list float64) :
  Permutation (filter notnan col) (filter notnan col') ->
  bincount col = bincount col'.
Proof.
  intros P. unfold bincount. pose proof (mapM_to_code_perm _ _ P) as M.
  destruct (mapM to_code (filter notnan col)) as [c|e],
    (mapM to_code (filter notnan col')) as [c'|e']; try contradiction.
  - simpl. f_equal.
    assert (B : match c with [] => 0 | _ :: _ => S (list_max c) end
                = match c' with [] => 0 | _ :: _ => S (list_max c') end).
    { destruct c as [|x c], c' as [|x' c'].
      - reflexivity.
      - apply Permutation_nil in M. discriminate M.
      - symmetry in M. apply Permutation_nil in M. discriminate M.
      - rewrite (list_max_perm _ _ M). reflexivity. }
    rewrite B. apply map_ext. intros k.
    rewrite (proj1 (Permutation_count_occ Nat.eq_dec c c') M k). reflexivity.
  - simpl. rewrite M. reflexivity.
Qed.

Section Entropy.
Context `{SciPy}.

(** X22. The entropy that [_categorical_entropy] gives a column depends on
    nothing but how often each value that is not NaN occurs: two columns
    whose present values are the same up to their order, whatever the
    number and the places of their missing values, have the same entropy,
    and where one of them cannot be counted neither can the other. *)
Theorem categorical_entropy_of_present_values (col col' : list float64) :
  Permutation (filter notnan col) (filter notnan col') ->
  _categorical_entropy [col] = _categorical_entropy [col'].
Proof.
  intros P. unfold _categorical_entropy, categorical_entropy_col. simpl.
  rewrite (bincount_perm col col' P). reflexivity.
Qed.
End Entropy.

Lemma categorical_entropy_of_present_values_witness :
  _categorical_entropy [[NaN; Fin (0 # 1); Fin (1 # 1)]]
  = _categorical_entropy [[Fin (1 # 1); Fin (0 # 1)]].
Proof.
  apply (categorical_entropy_of_present_values
           [NaN; Fin (0 # 1); Fin (1 # 1)] [Fin (1 # 1); Fin (0 # 1)]).
  simpl. apply perm_swap.
Defined.

(* ------------------------------------------------------------------ *)
(** ** The mean lies between Min and Max *)

Lemma fold_fadd_fin (qs : list Q) (a : Q) :
  fold_left fadd (map Fin qs) (Fin a) = Fin (fold_left Qplus qs a).
Proof.
  revert a. induction qs as [|q qs IH]; intros a; simpl; [reflexivity|].
  apply IH.
Qed.

Lemma fold_Qplus_bounds (lo hi : Q) (qs : list Q) (a : Q) :
  (forall q, In q qs -> (lo <= q /\ q <= hi)%Q) ->
  (a + inject_Z (Z.of_nat (length qs)) * lo <= fold_left Qplus qs a
   /\ fold_left Qplus qs a <= a + inject_Z (Z.of_nat (length qs)) * hi)%Q.
Proof.
  revert a. induction qs as [|q qs IH]; intros a B.
  - cbn [length fold_left Z.of_nat]. change (inject_Z 0) with (0 # 1)%Q.
    split; lra.
  - destruct (B q (or_introl eq_refl)) as [Lq Hq].
    destruct (IH (a + q)%Q (fun x Hx => B x (or_intror Hx))) as [L U].
    assert (N : (inject_Z (Z.of_nat (length (q :: qs)))
                 == inject_Z (Z.of_nat (length qs)) + 1)%Q).
    { simpl length. rewrite Nat2Z.inj_succ. unfold Z.succ.
      rewrite inject_Z_plus. reflexivity. }
    simpl fold_left. rewrite N. split; lra.
Qed.

Lemma all_fin (xs : list float64) :
  (forall y, In y xs -> exists q, y = Fin q) -> exists qs, xs = map Fin qs.
Proof.
  induction xs as [|x xs IH]; intros F; [exists []; reflexivity|].
  destruct (F x (or_introl eq_refl)) as [q ->].
  destruct (IH (fun y Hy => F y (or_intror Hy))) as [qs ->].
  exists (q :: qs). reflexivity.
Qed.

(** The mean of a column whose present values are finite, in arithmetic
    that does not round. *)
Lemma nanmean_between (c : list float64) (q0 : Q) :
  (forall y, In y c -> y = NaN \/ exists q, y = Fin q) ->
  In (Fin q0) c ->
  exists lo mean hi,
    nanmin c = Fin lo /\ nanmean c = Fin mean /\ nanmax c = Fin hi
    /\ (lo <= mean)%Q /\ (mean <= hi)%Q.
Proof.
  intros F I0.
  destruct (nanmin_least c (Fin q0) I0 eq_refl) as (Il & Nl & Ll).
  destruct (nanmax_greatest c (Fin q0) I0 eq_refl) as (Ih & Nh & Lh).
  destruct (F _ Il) as [El|[lo El]]; [rewrite El in Nl; discriminate Nl|].
  destruct (F _ Ih) as [Eh|[hi Eh]]; [rewrite Eh in Nh; discriminate Nh|].
  destruct (all_fin (filter notnan c)) as [qs Eq].
  { intros y Hy. apply filter_In in Hy as [Hy Ny].
    destruct (F y Hy) as [->|E]; [discriminate Ny|exact E]. }
  assert (Bq : forall q, In q qs -> (lo <= q /\ q <= hi)%Q).
  { intros q Hq.
    assert (Iq : In (Fin q) c).
    { apply (in_map Fin) in Hq. rewrite <- Eq in Hq.
      apply filter_In in Hq. tauto. }
    pose proof (Ll _ Iq eq_refl) as A. pose proof (Lh _ Iq eq_refl) as B.
    rewrite El in A. rewrite Eh in B. simpl in A, B.
    apply Qltb_false in A, B. split; assumption. }
  assert (Pos : 1 <= length qs).
  { assert (Iq : In (Fin q0) (filter notnan c))
      by (apply filter_In; split; [exact I0|reflexivity]).
    rewrite Eq in Iq. destruct qs; [destruct Iq|simpl; lia]. }
  destruct (fold_Qplus_bounds lo hi qs (0 # 1) Bq) as [L U].
  set (n := inject_Z (Z.of_nat (length qs))) in *.
  assert (Pn : (0 < n)%Q).
  { unfold n. change (0 # 1)%Q with (inject_Z 0). rewrite <- Zlt_Qlt. lia. }
  assert (NZ : Qeq_bool n (0 # 1) = false).
  { destruct (Qeq_bool n (0 # 1)) eqn:E; [|reflexivity].
    apply Qeq_bool_iff in E. rewrite E in Pn. discriminate Pn. }
  exists lo, (fold_left Qplus qs (0 # 1) / n)%Q, hi.
  split; [exact El|]. split; [|split; [exact Eh|]].
  - unfold nanmean, fsum, fzero. rewrite Eq, fold_fadd_fin, length_map.
    unfold of_nat. fold n. simpl. rewrite NZ. reflexivity.
  - split.
    + apply Qle_shift_div_l; [exact Pn|]. lra.
    + apply Qle_shift_div_r; [exact Pn|]. lra.
Qed.

Section MeanBetween.
Context `{SciPy}.

(** X23. After [set_data], for a numeric variable whose column holds only
    NaN and whole numbers, at least one of them a number, each of a size
    that times the number of instances stays below [2^53] (the sum of the
    column is then a whole number that doubles hold exactly, whatever the
    order of the additions): Min, Center and Max are finite and the mean
    lies between the least and the greatest value, Min <= Center <= Max. *)
Theorem mean_between_min_and_max (m : Model) (t : Table) (i : nat)
        (v : Var) (col : list Cell) (z0 : Z) :
  table_shape t = true -> 1 <= n_instances_of t ->
  forallb column_ok (canonical t) = true ->
  nth_error (canonical t) i = Some (v, col) ->
  isinstance v DiscreteVariable = false ->
  Forall (fun c => c = Num NaN
                   \/ exists z : Z,
                        c = Num (Fin (inject_Z z))
                        /\ (Z.abs z * Z.of_nat (n_instances_of t) < 2 ^ 53)%Z)
         col ->
  In (Num (Fin (inject_Z z0))) col ->
  exists m' lo mean hi,
    model_set_data m (Some t) = Ok m'
    /\ nth_error (_min m') i = Some (Fin lo)
    /\ nth_error (_center m') i = Some (Fin mean)
    /\ nth_error (_max m') i = Some (Fin hi)
    /\ (lo <= mean)%Q /\ (mean <= hi)%Q.
Proof.
  intros S N Hok Hi D F I0.
  destruct (aligned_row m t i v col S N Hok Hi)
    as (m' & E & _ & _ & _ & _ & _ & Ce & _ & Mi & Ma & _ & Cells & _).
  assert (InC : forall y, In (Num y) col <-> In y (floats_of col)).
  { intros y. rewrite Cells at 1. apply in_map_Num. }
  destruct (nanmean_between (floats_of col) (inject_Z z0))
    as (lo & mean & hi & El & Em & Eh & L & U).
  - intros y Hy. apply InC in Hy. rewrite Forall_forall in F.
    destruct (F _ Hy) as [A|(z & A & _)]; injection A as ->;
      [left|right; exists (inject_Z z)]; reflexivity.
  - apply InC. exact I0.
  - exists m', lo, mean, hi. unfold center_of in Ce. rewrite D in Ce.
    rewrite El in Mi. rewrite Em in Ce. rewrite Eh in Ma.
    repeat (split; [assumption|]). exact U.
Qed.
End MeanBetween.

Lemma mean_between_min_and_max_witness :
  exists m' lo mean hi,
    model_set_data initial_model (Some example_table) = Ok m'
    /\ nth_error (_min m') 1 = Some (Fin lo)
    /\ nth_error (_center m') 1 = Some (Fin mean)
    /\ nth_error (_max m') 1 = Some (Fin hi)
    /\ (lo <= mean)%Q /\ (mean <= hi)%Q.
Proof.
  apply (mean_between_min_and_max initial_model example_table 1
           (fst continuous_missing) (snd continuous_missing) 2%Z).
  - vm_compute. reflexivity.
  - vm_compute. lia.
  - vm_compute. reflexivity.
  - vm_compute. reflexivity.
  - reflexivity.
  - simpl.
    repeat (apply Forall_cons;
            [first [left; reflexivity
                   | right; eexists; split; [reflexivity|vm_compute; reflexivity]]|]).
    apply Forall_nil.
  - simpl. auto.
Defined.

(* ------------------------------------------------------------------ *)
(** ** The rows of the model *)

Lemma filter_attributes_variables (attrs : list Var) (x : Matrix) :
  fst (__filter_attributes attrs x)
  = filter (fun attr => negb (is_hidden attr)) attrs.
Proof.
  unfold __filter_attributes. cbn [fst].
  pose proof (enumerate_select (fun attr => negb (is_hidden attr)) no_var
                               attrs attrs eq_refl) as E.
  apply (f_equal (map fst)) in E. rewrite map_map in E. cbn [fst] in E.
  rewrite E. apply (map_fst_filter_combine (fun attr => negb (is_hidden attr))).
  reflexivity.
Qed.

Section ModelRows.
Context `{SciPy}.

(** X24. Whenever [set_data] returns for a table, the rows of the model are
    exactly the variables of the domain that are neither text nor time, in
    the order attributes, class variables, metas, and [rowCount] is their
    number, whatever the matrices hold. *)
Theorem set_data_shows_the_visible_variables (m m' : Model) (t : Table) :
  model_set_data m (Some t) = Ok m' ->
  variables m'
  = filter (fun attr => negb (is_hidden attr))
           (attributes (domain t) ++ class_vars (domain t) ++ metas (domain t))
  /\ rowCount m' = length (variables m').
Proof.
  unfold model_set_data, __compute_statistics, bind. intros E.
  repeat match type of E with
         | match ?r with Ok _ => _ | Raise _ => _ end = _ =>
             destruct r; [|discriminate E]
         end.
  injection E as <-. unfold variables, rowCount.
  cbn [__attributes __class_vars __metas n_attributes].
  split; [|reflexivity].
  rewrite !filter_attributes_variables, !filter_app. reflexivity.
Qed.
End ModelRows.

Lemma set_data_shows_the_visible_variables_witness :
  variables (model_of hidden_first_table)
  = filter (fun attr => negb (is_hidden attr))
           (attributes (domain hidden_first_table)
            ++ class_vars (domain hidden_first_table)
            ++ metas (domain hidden_first_table))
  /\ rowCount (model_of hidden_first_table)
     = length (variables (model_of hidden_first_table)).
Proof.
  apply (set_data_shows_the_visible_variables initial_model
           (model_of hidden_first_table) hidden_first_table).
  vm_compute. reflexivity.
Defined.

(* ------------------------------------------------------------------ *)
(** ** The entropy of a categorical column is a finite number *)

Lemma fold_Qplus_nonneg (qs : list Q) (a : Q) :
  (forall q, In q qs -> (0 <= q)%Q) -> (a <= fold_left Qplus qs a)%Q.
Proof.
  revert a. induction qs as [|q qs IH]; intros a P; simpl; [lra|].
  pose proof (P q (or_introl eq_refl)).
  pose proof (IH (a + q)%Q (fun x Hx => P x (or_intror Hx))). lra.
Qed.

Lemma fold_Qplus_positive (qs : list Q) (a q0 : Q) :
  (forall q, In q qs -> (0 <= q)%Q) -> In q0 qs -> (0 < q0)%Q ->
  (a < fold_left Qplus qs a)%Q.
Proof.
  revert a. induction qs as [|q qs IH]; intros a P I0 P0; [destruct I0|].
  simpl. pose proof (P q (or_introl eq_refl)) as Pq.
  destruct I0 as [->|I0].
  - pose proof (fold_Qplus_nonneg qs (a + q0)%Q
                                  (fun x Hx => P x (or_intror Hx))). lra.
  - pose proof (IH (a + q)%Q (fun x Hx => P x (or_intror Hx)) I0 P0). lra.
Qed.

Lemma fsum_fin (qs : list Q) :
  fsum (map Fin qs) = Fin (fold_left Qplus qs (0 # 1)%Q).
Proof. unfold fsum, fzero. apply fold_fadd_fin. Qed.

Lemma fdiv_fin (qs : list Q) (s : Q) :
  (0 < s)%Q ->
  map (fun p => fdiv p (Fin s)) (map Fin qs)
  = map Fin (map (fun q => (q / s)%Q) qs).
Proof.
  intros P. rewrite !map_map. apply map_ext. intros q. simpl.
  destruct (Qeq_bool s (0 # 1)) eqn:E; [|reflexivity].
  apply Qeq_bool_iff in E. rewrite E in P. discriminate P.
Qed.

Section FiniteEntropy.
Context `{SciPy}.

Lemma entr_fin (q : Q) : (0 <= q)%Q -> exists r, entr (Fin q) = Fin r.
Proof.
  intros P. unfold entr. destruct (Qcompare q (0 # 1)) eqn:C.
  - exists (0 # 1)%Q. reflexivity.
  - apply Qlt_alt in C. lra.
  - eexists. reflexivity.
Qed.

Lemma fsum_entr_fin (qs : list Q) :
  (forall q, In q qs -> (0 <= q)%Q) ->
  exists r, fsum (map entr (map Fin qs)) = Fin r.
Proof.
  intros P.
  assert (E : exists rs, map entr (map Fin qs) = map Fin rs).
  { induction qs as [|q qs IH]; [exists []; reflexivity|].
    destruct (entr_fin q (P q (or_introl eq_refl))) as [r Er].
    destruct (IH (fun x Hx => P x (or_intror Hx))) as [rs Ers].
    exists (r :: rs). cbn [map]. rewrite Er, Ers. reflexivity. }
  destruct E as [rs ->]. rewrite fsum_fin. eexists. reflexivity.
Qed.

(** Normalising counts that are not all zero gives fractions that are not
    all zero. *)
Lemma normalised (qs : list Q) (q0 : Q) :
  (forall q, In q qs -> (0 <= q)%Q) -> In q0 qs -> (0 < q0)%Q ->
  exists qs' q0',
    map (fun p => fdiv p (fsum (map Fin qs))) (map Fin qs) = map Fin qs'
    /\ (forall q, In q qs' -> (0 <= q)%Q) /\ In q0' qs' /\ (0 < q0')%Q.
Proof.
  intros P I0 P0. rewrite fsum_fin.
  set (s := fold_left Qplus qs (0 # 1)%Q).
  assert (Ps : (0 < s)%Q) by (apply (fold_Qplus_positive qs _ q0); assumption).
  exists (map (fun q => (q / s)%Q) qs), (q0 / s)%Q.
  split; [apply fdiv_fin; exact Ps|]. split; [|split].
  - intros q Hq. apply in_map_iff in Hq as (x & <- & Hx).
    apply Qle_shift_div_l; [exact Ps|]. pose proof (P x Hx). lra.
  - apply (in_map (fun q => (q / s)%Q)). exact I0.
  - apply Qlt_shift_div_l; [exact Ps|]. lra.
Qed.

Lemma ss_entropy_fin (qs : list Q) (q0 : Q) :
  (forall q, In q qs -> (0 <= q)%Q) -> In q0 qs -> (0 < q0)%Q ->
  exists r, ss_entropy (map Fin qs) = Fin r.
Proof.
  intros P I0 P0. unfold ss_entropy.
  destruct (normalised qs q0 P I0 P0) as (qs' & _ & -> & P' & _).
  apply fsum_entr_fin. exact P'.
Qed.

Lemma categorical_entropy_fin (c : list float64) :
  is_ok (bincount c) = true ->
  exists r, categorical_entropy_col c = Ok (Fin r).
Proof.
  unfold categorical_entropy_col, bincount.
  destruct (mapM to_code (filter notnan c)) as [codes|e]; [|discriminate].
  intros _. simpl.
  destruct codes as [|x codes].
  - simpl. exists (0 # 1)%Q. reflexivity.
  - set (cs := x :: codes).
    set (counts := map (fun k => count_occ Nat.eq_dec cs k)
                       (seq 0 (S (list_max cs)))).
    assert (Pk : map (fun k => of_nat (count_occ Nat.eq_dec cs k))
                     (seq 0 (S (list_max cs)))
                 = map Fin (map (fun n => inject_Z (Z.of_nat n)) counts)).
    { unfold counts. rewrite !map_map. reflexivity. }
    rewrite Pk.
    set (qs := map (fun n => inject_Z (Z.of_nat n)) counts).
    assert (P : forall q, In q qs -> (0 <= q)%Q).
    { intros q Hq. apply in_map_iff in Hq as (n & <- & _).
      change (0 # 1)%Q with (inject_Z 0). rewrite <- Zle_Qle. lia. }
    assert (I0 : In (inject_Z (Z.of_nat (count_occ Nat.eq_dec cs x))) qs).
    { apply (in_map (fun n => inject_Z (Z.of_nat n)) counts
                    (count_occ Nat.eq_dec cs x)).
      unfold counts.
      apply (in_map (fun k => count_occ Nat.eq_dec cs k)).
      apply in_seq. split; [lia|]. simpl.
      assert (x <= list_max cs); [|lia].
      assert (F : Forall (fun k => k <= list_max cs) cs)
        by (apply list_max_le; lia).
      inversion F. assumption. }
    assert (P0 : (0 < inject_Z (Z.of_nat (count_occ Nat.eq_dec cs x)))%Q).
    { change (0 # 1)%Q with (inject_Z 0). rewrite <- Zlt_Qlt.
      assert (0 < count_occ Nat.eq_dec cs x); [|lia].
      apply count_occ_In. left. reflexivity. }
    destruct (normalised qs _ P I0 P0) as (qs' & q0' & -> & P' & I0' & P0').
    destruct (ss_entropy_fin qs' q0' P' I0' P0') as [r ->].
    exists r. reflexivity.
Qed.

(** X25. After [set_data], the Dispersion of a shown categorical variable,
    the entropy of its column, is a finite number: it is never NaN and
    never infinite, however many of the cells are missing. *)
Theorem categorical_dispersion_is_finite (m : Model) (t : Table) (i : nat)
        (v : Var) (col : list Cell) :
  table_shape t = true -> 1 <= n_instances_of t ->
  forallb column_ok (canonical t) = true ->
  nth_error (canonical t) i = Some (v, col) ->
  isinstance v DiscreteVariable = true ->
  exists m' q,
    model_set_data m (Some t) = Ok m'
    /\ nth_error (_dispersion m') i = Some (Fin q).
Proof.
  intros S N Hok Hi D.
  destruct (aligned_row m t i v col S N Hok Hi)
    as (m' & E & _ & _ & _ & _ & _ & _ & Di & _).
  assert (B : is_ok (bincount (floats_of col)) = true).
  { rewrite forallb_forall in Hok.
    pose proof (Hok _ (nth_error_In _ _ Hi)) as C.
    unfold column_ok, floats_of in *. simpl in C.
    destruct (floats col) as [c|e]; [|discriminate C].
    rewrite D in C. exact C. }
  destruct (categorical_entropy_fin _ B) as [q Eq].
  exists m', q. split; [exact E|].
  rewrite Di. unfold dispersion_of. rewrite D, Eq. reflexivity.
Qed.
End FiniteEntropy.

Lemma categorical_dispersion_is_finite_witness :
  exists m' q,
    model_set_data initial_model (Some example_table) = Ok m'
    /\ nth_error (_dispersion m') 5 = Some (Fin q).
Proof.
  apply (categorical_dispersion_is_finite initial_model example_table 5
           (fst rgb_missing) (snd rgb_missing)).
  - vm_compute. reflexivity.
  - vm_compute. lia.
  - vm_compute. reflexivity.
  - vm_compute. reflexivity.
  - reflexivity.
Defined.
